(** * Crypto-Price-Tracker: the data-access layer of [src/services/cryptoAPI.ts]

    A shallow embedding of the request / cache / retry module and of the
    prediction heuristic, followed by the properties of the specification.

    Modelling conventions.
    - JavaScript numbers are exact: rationals [Q] where the code computes with
      fractions, integers [Z] for milliseconds, HTTP status codes and counts.
      Rounding of IEEE doubles is outside the model: where a computed
      fraction can reach the edge of its exact range, its bound is stated
      with a margin that rounding cannot use up.
    - Strings are Rocq strings; a character stands for one code unit.
    - The effects of the module (the shared [cache] map, [fetch],
      [setTimeout], [Date.now], [Math.random]) are threaded through a state
      and exception monad [M].  What the platform answers is read from an
      environment [Env]; what the module did is recorded in the [World].
    - The retry count of [fetchWithRetry] is an integer; a negative one
      admits no attempt.
    - Console logging has no effect on any result and is left out. *)

From Stdlib Require Import ZArith QArith Qminmax Qabs Qround Lqa Lia Ascii String.
From stdpp Require Import gmap strings list pretty.

Local Open Scope Z_scope.

(** ** JavaScript values *)

(** The values that flow through the module: parsed JSON payloads, cached
    data and the entities handed back to callers. *)
#[warnings="-register-all"]
Inductive Value : Type :=
| VUndefined
| VNull
| VBool (b : bool)
| VNum (q : Q)
| VNaN
| VStr (s : string)
| VArr (elems : list Value)
| VObj (fields : list (string * Value)).

(** [if (v)], [v || d], [!v]: ToBoolean. *)
Definition truthy (v : Value) : bool :=
  match v with
  | VUndefined | VNull | VNaN => false
  | VBool b => b
  | VNum q => negb (Qeq_bool q 0)
  | VStr s => negb (String.eqb s "")
  | VArr _ | VObj _ => true
  end.

(** [a || b] where [b] has no effect. *)
Definition js_or (a b : Value) : Value := if truthy a then a else b.

Fixpoint assoc (k : string) (fields : list (string * Value)) : option Value :=
  match fields with
  | [] => None
  | (k', v) :: rest => if String.eqb k k' then Some v else assoc k rest
  end.

(** ** The platform and the world *)

(** An exception is identified by its message. *)
Definition Error : Type := string.

(** A [Response]: its status, and what [response.json()] resolves to
    ([None] when the body is not JSON and [json()] rejects). *)
Record Response : Type := mkResponse {
  status : Z;
  json_body : option Value
}.

(** [response.ok] of the Fetch standard: the status is in 200..299. *)
Definition ok (r : Response) : bool :=
  (200 <=? status r) && (status r <=? 299).

(** What one call of [fetch] yields: a rejection (network-level failure) or
    a response. *)
Inductive Outcome : Type :=
| NetworkError (e : Error)
| Responded (r : Response).

Record Request : Type := mkRequest {
  req_url : string;
  req_headers : gmap string string
}.

Record Env : Type := mkEnv {
  API_BASE_URL : string;
  (** the outcome of the k-th request the page issues *)
  network : nat -> Request -> Outcome;
  (** the k-th reading of [Date.now()] *)
  clock : nat -> Z;
  (** the k-th draw of [Math.random()] *)
  random : nat -> Q;
  toISOString : Z -> string;
  toUpperCase : string -> string;
  Math_sin : Q -> Q
}.

Record CacheEntry : Type := mkEntry {
  data : Value;
  timestamp : Z;
  ttl : Z
}.

Record World : Type := mkWorld {
  cache : gmap string CacheEntry;
  (** requests issued so far, oldest first *)
  requests : list Request;
  (** delays slept so far, oldest first *)
  sleeps : list Z;
  clock_reads : nat;
  random_draws : nat
}.

Definition set_cache (f : gmap string CacheEntry -> gmap string CacheEntry) (w : World) : World :=
  mkWorld (f (cache w)) (requests w) (sleeps w) (clock_reads w) (random_draws w).

(** ** The monad of the module's code *)

Inductive Res (A : Type) : Type :=
| Returned (a : A)
| Thrown (e : Error).
Arguments Returned {A} a.
Arguments Thrown {A} e.

Definition M (A : Type) : Type := Env -> World -> Res A * World.

Definition ret {A} (a : A) : M A := fun _ w => (Returned a, w).

Definition throw {A} (e : Error) : M A := fun _ w => (Thrown e, w).

Definition bind {A B} (c : M A) (k : A -> M B) : M B :=
  fun env w =>
    match c env w with
    | (Returned a, w') => k a env w'
    | (Thrown e, w') => (Thrown e, w')
    end.

(** [try { c } catch (error) { h error }] *)
Definition try_catch {A} (c : M A) (h : Error -> M A) : M A :=
  fun env w =>
    match c env w with
    | (Returned a, w') => (Returned a, w')
    | (Thrown e, w') => h e env w'
    end.

Declare Scope js_scope.
Delimit Scope js_scope with js.
Notation "x <- c ;; k" := (bind c (fun x => k))
  (at level 100, c at next level, right associativity) : js_scope.
Notation "c ;; k" := (bind c (fun _ => k))
  (at level 100, right associativity) : js_scope.
Local Open Scope js_scope.

Definition ask {A} (f : Env -> A) : M A := fun env w => (Returned (f env), w).

(** [await fetch(request)] *)
Definition fetch (rq : Request) : M Response :=
  fun env w =>
    let w' := mkWorld (cache w) (requests w ++ [rq]) (sleeps w)
                      (clock_reads w) (random_draws w) in
    match network env (length (requests w)) rq with
    | NetworkError e => (Thrown e, w')
    | Responded r => (Returned r, w')
    end.

(** [await delay(ms)] *)
Definition delay (ms : Z) : M unit :=
  fun _ w =>
    (Returned tt, mkWorld (cache w) (requests w) (sleeps w ++ [ms])
                          (clock_reads w) (random_draws w)).

(** [Date.now()] *)
Definition Date_now : M Z :=
  fun env w =>
    (Returned (clock env (clock_reads w)),
     mkWorld (cache w) (requests w) (sleeps w) (S (clock_reads w)) (random_draws w)).

(** [Math.random()] *)
Definition Math_random : M Q :=
  fun env w =>
    (Returned (random env (random_draws w)),
     mkWorld (cache w) (requests w) (sleeps w) (clock_reads w) (S (random_draws w))).

(** [await response.json()] *)
Definition response_json (r : Response) : M Value :=
  match json_body r with
  | Some v => ret v
  | None => throw "SyntaxError: Unexpected token in JSON"
  end.

(** [array.map(f)] for a callback with effects, left to right. *)
Fixpoint mapM {A B} (f : A -> M B) (l : list A) : M (list B) :=
  match l with
  | [] => ret []
  | x :: rest => y <- f x ;; ys <- mapM f rest ;; ret (y :: ys)
  end.

(** ** Retry with exponential backoff *)

Definition baseDelay : Z := 1000.
Definition maxDelay : Z := 10000.

(** [Math.min(1000 * Math.pow(2, attempt), 10000)], written out at both
    retry sites of [fetchWithRetry]. *)
Definition backoffDelay (attempt : nat) : Z :=
  Z.min (1000 * 2 ^ Z.of_nat attempt) 10000.

(** [{ ...options, headers: { 'Accept': 'application/json', ...options.headers } }] *)
Definition with_accept (options_headers : gmap string string) : gmap string string :=
  options_headers ∪ {[ "Accept" := "application/json" ]}.

(** What one iteration of the loop does with the control flow: [return] a
    response, or [continue] with the next attempt.  A rejection of [fetch]
    with no attempt left is rethrown. *)
Inductive Step : Type :=
| Return (response : Response)
| Continue.

(** The [try { ... } catch (error) { ... }] inside the loop of
    [fetchWithRetry], at iteration [attempt]. *)
Definition attempt_body (url : string) (options_headers : gmap string string)
    (retries : Z) (attempt : nat) : M Step :=
  try_catch
    (response <- fetch (mkRequest url (with_accept options_headers)) ;;
     if ok response || ((400 <=? status response) && (status response <? 500)) then
       ret (Return response)
     else if (Z.of_nat attempt <? retries)
             && ((500 <=? status response) || (status response =? 429)) then
       delay (backoffDelay attempt) ;;
       ret Continue
     else
       ret (Return response))
    (fun error =>
       if Z.of_nat attempt <? retries then
         delay (backoffDelay attempt) ;;
         ret Continue
       else throw error).

(** [for (let attempt = 0; attempt <= retries; attempt++) { ... }] followed
    by [throw new Error('Max retries exceeded')].  [iterations] is the number of
    iterations the guard [attempt <= retries] still admits: it is [0]
    exactly when [attempt > retries].  On a response that is neither OK nor
    retried the code reads [response.text()] for the log before returning
    it; the caller of such a response never reads its body. *)
Fixpoint retry_loop (iterations : nat) (url : string) (options_headers : gmap string string)
    (retries : Z) (attempt : nat) : M Response :=
  match iterations with
  | O => throw "Max retries exceeded"
  | S iterations' =>
    s <- attempt_body url options_headers retries attempt ;;
    match s with
    | Return response => ret response
    | Continue => retry_loop iterations' url options_headers retries (S attempt)
    end
  end.

Definition fetchWithRetry (url : string) (options_headers : gmap string string)
    (retries : Z) : M Response :=
  retry_loop (Z.to_nat (retries + 1)) url options_headers retries 0.

(** ** Cache management *)

(** [cache.get(key)], [cache.delete(key)], [cache.set(key, entry)] on the
    module's [Map]. *)
Definition cache_get (key : string) : M (option CacheEntry) :=
  fun _ w => (Returned (cache w !! key), w).

Definition cache_delete (key : string) : M unit :=
  fun _ w => (Returned tt, set_cache (delete key) w).

Definition cache_set (key : string) (entry : CacheEntry) : M unit :=
  fun _ w => (Returned tt, set_cache (<[ key := entry ]>) w).

(** [cached && Date.now() - cached.timestamp < cached.ttl]: the clock is
    read only when the key is present. *)
Definition getCachedData (key : string) : M Value :=
  cached <- cache_get key ;;
  match cached with
  | Some cached =>
    now <- Date_now ;;
    if now - timestamp cached <? ttl cached then ret (data cached)
    else (cache_delete key ;; ret VNull)
  | None => cache_delete key ;; ret VNull
  end.

(** [setCachedData]; a caller that omits [ttl] gets the default 30000. *)
Definition setCachedData (key : string) (d : Value) (ttl : Z) : M unit :=
  now <- Date_now ;;
  cache_set key (mkEntry d now ttl).

Definition default_ttl : Z := 30000.

(** ** Reading parsed payloads *)

(** [v.name] on a value that is neither [null] nor [undefined], for the
    property names the module reads ([tickers], [prices], [total_volumes],
    [market_caps], [name], [current_price], [market_cap], ...), none of
    which a prototype defines: an own property of an object, [undefined]
    everywhere else. *)
Definition prop (v : Value) (name : string) : Value :=
  match v with
  | VObj fields => default VUndefined (assoc name fields)
  | _ => VUndefined
  end.

(** [v.name]: reading a property of [null] or [undefined] throws. *)
Definition get_prop (v : Value) (name : string) : M Value :=
  match v with
  | VUndefined | VNull => throw "TypeError: Cannot read properties"
  | _ => ret (prop v name)
  end.

Definition char_value (c : ascii) : Value := VStr (String c "").

(** [v?.[i]] *)
Definition opt_index (v : Value) (i : nat) : Value :=
  match v with
  | VUndefined | VNull => VUndefined
  | VArr elems => default VUndefined (elems !! i)
  | VStr s => from_option char_value VUndefined (String.get i s)
  | VObj fields => default VUndefined (assoc (pretty i) fields)
  | VBool _ | VNum _ | VNaN => VUndefined
  end.

(** The elements an array pattern [[a, b, ...]] draws from a value: those
    of an array, the characters of a string; other values are not
    iterable. *)
Definition iterate (v : Value) : M (list Value) :=
  match v with
  | VArr elems => ret elems
  | VStr s => ret (char_value <$> list_ascii_of_string s)
  | _ => throw "TypeError: not iterable"
  end.

(** The i-th variable of an array pattern. *)
Definition pattern_var (parts : list Value) (i : nat) : Value :=
  default VUndefined (parts !! i).

(** [v.map(f)]: only arrays have a [map] method. *)
Definition array_of (v : Value) : M (list Value) :=
  match v with
  | VArr elems => ret elems
  | VUndefined | VNull => throw "TypeError: Cannot read properties"
  | _ => throw "TypeError: map is not a function"
  end.

(** [array.map((x, index) => ...)] with effects, [index] counting from [i]. *)
Fixpoint mapiM_from {A B} (i : nat) (f : A -> nat -> M B) (l : list A) : M (list B) :=
  match l with
  | [] => ret []
  | x :: rest => y <- f x i ;; ys <- mapiM_from (S i) f rest ;; ret (y :: ys)
  end.

(** [{ ...fields, name: v }] *)
Fixpoint set_field (name : string) (v : Value) (fields : list (string * Value))
    : list (string * Value) :=
  match fields with
  | [] => [(name, v)]
  | (k, x) :: rest =>
    if String.eqb k name then (k, v) :: rest else (k, x) :: set_field name v rest
  end.

Definition num (z : Z) : Value := VNum (inject_Z z).

(** ** Timeframes *)

Inductive ChartTimeframe : Type := TF_1h | TF_24h | TF_7d | TF_30d | TF_90d | TF_1y | TF_all.
Inductive ComparisonAsset : Type := CA_usd | CA_btc | CA_eth.

Definition timeframe_string (t : ChartTimeframe) : string :=
  match t with
  | TF_1h => "1h" | TF_24h => "24h" | TF_7d => "7d" | TF_30d => "30d"
  | TF_90d => "90d" | TF_1y => "1y" | TF_all => "all"
  end.

Definition comparison_string (c : ComparisonAsset) : string :=
  match c with CA_usd => "usd" | CA_btc => "btc" | CA_eth => "eth" end.

(** What [getTimeframeDays] returns: a number of days, or the string
    ['max'] passed off as a number. *)
Inductive Days : Type :=
| DaysNum (n : Z)
| DaysMax.

(** The [default] branch of the source's [switch] is not reachable from a
    [ChartTimeframe]. *)
Definition getTimeframeDays (timeframe : ChartTimeframe) : Days :=
  match timeframe with
  | TF_1h => DaysNum 1
  | TF_24h => DaysNum 1
  | TF_7d => DaysNum 7
  | TF_30d => DaysNum 30
  | TF_90d => DaysNum 90
  | TF_1y => DaysNum 365
  | TF_all => DaysMax
  end.

(** [`${days}`] *)
Definition days_string (d : Days) : string :=
  match d with DaysNum n => pretty n | DaysMax => "max" end.

(** [days <= n]; ['max' <= n] compares [NaN] and is false. *)
Definition days_le (d : Days) (n : Z) : bool :=
  match d with DaysNum k => k <=? n | DaysMax => false end.

(** ** Synthetic data *)

(** [new Date().toISOString()] *)
Definition now_iso : M Value :=
  t <- Date_now ;;
  iso <- ask (fun env => toISOString env t) ;;
  ret (VStr iso).

Local Open Scope Q_scope.

(** The curated profiles of [generateMockData]. *)
Definition bitcoin_profile : list (string * Value) :=
  [ ("id", VStr "bitcoin"); ("symbol", VStr "btc"); ("name", VStr "Bitcoin");
    ("current_price", VNum 43250.00);
    ("price_change_percentage_24h", VNum 2.45);
    ("price_change_percentage_7d", VNum 5.23);
    ("price_change_percentage_30d", VNum 12.45);
    ("market_cap", VNum 847000000000);
    ("market_cap_rank", VNum 1);
    ("fully_diluted_valuation", VNum 908000000000);
    ("total_volume", VNum 25000000000);
    ("circulating_supply", VNum 19600000);
    ("total_supply", VNum 19600000);
    ("max_supply", VNum 21000000);
    ("ath", VNum 69045);
    ("ath_date", VStr "2021-11-10T14:24:11.849Z");
    ("atl", VNum 67.81);
    ("atl_date", VStr "2013-07-06T00:00:00.000Z");
    ("image", VStr "https://assets.coingecko.com/coins/images/1/large/bitcoin.png") ].

Definition ethereum_profile : list (string * Value) :=
  [ ("id", VStr "ethereum"); ("symbol", VStr "eth"); ("name", VStr "Ethereum");
    ("current_price", VNum 2650.00);
    ("price_change_percentage_24h", VNum (-1.23));
    ("price_change_percentage_7d", VNum 3.45);
    ("price_change_percentage_30d", VNum 8.76);
    ("market_cap", VNum 318000000000);
    ("market_cap_rank", VNum 2);
    ("fully_diluted_valuation", VNum 318000000000);
    ("total_volume", VNum 15000000000);
    ("circulating_supply", VNum 120000000);
    ("total_supply", VNum 120000000);
    ("max_supply", VNull);
    ("ath", VNum 4878.26);
    ("ath_date", VStr "2021-11-10T14:24:19.604Z");
    ("atl", VNum 0.432979);
    ("atl_date", VStr "2015-10-20T00:00:00.000Z");
    ("image", VStr "https://assets.coingecko.com/coins/images/279/large/ethereum.png") ].

Definition solana_profile : list (string * Value) :=
  [ ("id", VStr "solana"); ("symbol", VStr "sol"); ("name", VStr "Solana");
    ("current_price", VNum 102.50);
    ("price_change_percentage_24h", VNum 5.67);
    ("price_change_percentage_7d", VNum 12.34);
    ("price_change_percentage_30d", VNum 25.67);
    ("market_cap", VNum 46000000000);
    ("market_cap_rank", VNum 5);
    ("fully_diluted_valuation", VNum 58000000000);
    ("total_volume", VNum 2500000000);
    ("circulating_supply", VNum 448000000);
    ("total_supply", VNum 565000000);
    ("max_supply", VNull);
    ("ath", VNum 259.96);
    ("ath_date", VStr "2021-11-06T21:54:35.825Z");
    ("atl", VNum 0.500801);
    ("atl_date", VStr "2020-05-11T19:35:23.449Z");
    ("image", VStr "https://assets.coingecko.com/coins/images/4128/large/solana.png") ].

Definition mockData : list (string * Value) :=
  [ ("bitcoin", VObj bitcoin_profile);
    ("ethereum", VObj ethereum_profile);
    ("solana", VObj solana_profile) ].

(** The property names an object literal inherits from [Object.prototype]. *)
Definition Object_prototype_names : list string :=
  [ "constructor"; "__proto__"; "hasOwnProperty"; "isPrototypeOf";
    "propertyIsEnumerable"; "toLocaleString"; "toString"; "valueOf";
    "__defineGetter__"; "__defineSetter__"; "__lookupGetter__"; "__lookupSetter__" ].

Definition inherited (name : string) : bool :=
  bool_decide (name ∈ Object_prototype_names).

(** The properties a spread [{ ...x }] copies: the own enumerable ones. *)
Definition own_enumerable (x : Value) : list (string * Value) :=
  match x with
  | VObj fields => fields
  | _ => []
  end.

(** [mockData[id]] as far as the caller looks at it, in the test [!crypto]
    and in the spread [{ ...crypto }].  An own property is a profile; a
    name found on [Object.prototype] is a truthy member with no enumerable
    property of its own, that is, nothing to spread; any other name is
    [undefined]. *)
Definition mockData_get (id : string) : option (list (string * Value)) :=
  match assoc id mockData with
  | Some crypto => Some (own_enumerable crypto)
  | None => if inherited id then Some [] else None
  end.

(** [id.charAt(0)] and [id.slice(1)] *)
Definition charAt0 (s : string) : string :=
  match s with String c _ => String c "" | EmptyString => "" end.

Definition slice1 (s : string) : string :=
  match s with String _ rest => rest | EmptyString => "" end.

(** The callback of [ids.map] in [generateMockData]. *)
Definition mock_currency (id : string) : M Value :=
  match mockData_get id with
  | None =>
    symbol <- ask (fun env => toUpperCase env (substring 0 3 id)) ;;
    initial <- ask (fun env => toUpperCase env (charAt0 id)) ;;
    ath_date <- now_iso ;;
    atl_date <- now_iso ;;
    last_updated <- now_iso ;;
    ret (VObj
      [ ("id", VStr id);
        ("symbol", VStr symbol);
        ("name", VStr (initial +:+ slice1 id));
        ("current_price", VNum 1.00);
        ("price_change_percentage_24h", VNum 0);
        ("price_change_percentage_7d", VNum 0);
        ("price_change_percentage_30d", VNum 0);
        ("market_cap", VNum 1000000);
        ("market_cap_rank", VNum 999);
        ("fully_diluted_valuation", VNum 1000000);
        ("total_volume", VNum 100000);
        ("circulating_supply", VNum 1000000);
        ("total_supply", VNum 1000000);
        ("max_supply", VNum 1000000);
        ("ath", VNum 2.00);
        ("ath_date", ath_date);
        ("atl", VNum 0.50);
        ("atl_date", atl_date);
        ("image", VStr ("https://via.placeholder.com/32x32/6366f1/ffffff?text=" +:+ initial));
        ("last_updated", last_updated) ])
  | Some crypto =>
    last_updated <- now_iso ;;
    ret (VObj (set_field "last_updated" last_updated crypto))
  end.

Definition generateMockData (ids : list string) : M Value :=
  entities <- mapM mock_currency ids ;;
  ret (VArr entities).

(** [x * c] for [x] a number or [undefined]. *)
Definition times (x : Value) (c : Q) : Value :=
  match x with
  | VNum q => VNum (q * c)
  | _ => VNaN
  end.

(** [`${x}`] for [x] a string or [undefined]. *)
Definition interpolate (x : Value) : string :=
  match x with
  | VStr s => s
  | _ => "undefined"
  end.

Definition generateMockDetailedData (id : string) : M Value :=
  listing <- generateMockData [id] ;;
  let baseData := opt_index listing 0 in
  let base_fields := match baseData with VObj fields => fields | _ => [] end in
  ret (VObj (fold_left (fun fields kv => set_field kv.1 kv.2 fields)
    [ ("description",
       VStr (interpolate (prop baseData "name") +:+
             " is a decentralized digital currency that enables instant payments to anyone, anywhere in the world."));
      ("homepage", VArr [VStr ("https://" +:+ id +:+ ".org")]);
      ("blockchain_site", VArr [VStr ("https://blockchair.com/" +:+ id)]);
      ("official_forum_url", VArr [VStr "https://bitcointalk.org"]);
      ("chat_url", VArr [VStr ("https://t.me/" +:+ id)]);
      ("announcement_url", VArr [VStr ("https://bitcointalk.org/index.php?topic=" +:+ id)]);
      ("twitter_screen_name", VStr id);
      ("telegram_channel_identifier", VStr id);
      ("subreddit_url", VStr ("https://reddit.com/r/" +:+ id));
      ("repos_url", VObj [("github", VArr [VStr ("https://github.com/" +:+ id +:+ "/" +:+ id)])]);
      ("contract_address",
       if String.eqb id "ethereum" then VUndefined
       else VStr "0x1234567890123456789012345678901234567890");
      ("genesis_date", VStr "2009-01-03");
      ("hashing_algorithm", VStr "SHA-256");
      ("categories", VArr [VStr "Cryptocurrency"; VStr "Store of Value"]);
      ("market_data", VObj
        [ ("price_change_24h_in_currency",
           VObj [("usd", times (prop baseData "current_price") 0.02)]);
          ("price_change_percentage_1h_in_currency", VObj [("usd", VNum 0.5)]);
          ("market_cap_change_24h_in_currency",
           VObj [("usd", times (prop baseData "market_cap") 0.02)]);
          ("market_cap_change_percentage_24h_in_currency", VObj [("usd", VNum 2.1)]) ]) ]
    base_fields)).

Definition generateMockExchanges : M Value :=
  ret (VArr
    [ VObj [ ("id", VStr "binance"); ("name", VStr "Binance");
             ("image", VStr "https://assets.coingecko.com/markets/images/52/small/binance.jpg");
             ("trust_score", VNum 10); ("trust_score_rank", VNum 1);
             ("trade_volume_24h_btc", VNum 150000);
             ("url", VStr "https://www.binance.com") ];
      VObj [ ("id", VStr "coinbase-exchange"); ("name", VStr "Coinbase Exchange");
             ("image", VStr "https://assets.coingecko.com/markets/images/23/small/Coinbase_Coin_Primary.png");
             ("trust_score", VNum 10); ("trust_score_rank", VNum 2);
             ("trade_volume_24h_btc", VNum 80000);
             ("url", VStr "https://pro.coinbase.com") ];
      VObj [ ("id", VStr "kraken"); ("name", VStr "Kraken");
             ("image", VStr "https://assets.coingecko.com/markets/images/29/small/kraken.jpg");
             ("trust_score", VNum 10); ("trust_score_rank", VNum 3);
             ("trade_volume_24h_btc", VNum 45000);
             ("url", VStr "https://www.kraken.com") ] ]).

Definition generateMockTradingPairs (coinId : string) : M Value :=
  let symbol :=
    if String.eqb coinId "bitcoin" then "BTC"
    else if String.eqb coinId "ethereum" then "ETH" else "SOL" in
  timestamp <- now_iso ;;
  last_traded_at <- now_iso ;;
  last_fetch_at <- now_iso ;;
  ret (VArr
    [ VObj [ ("base", VStr symbol);
             ("target", VStr "USDT");
             ("market", VObj [ ("name", VStr "Binance");
                               ("identifier", VStr "binance");
                               ("has_trading_incentive", VBool false) ]);
             ("last", VNum 43250);
             ("volume", VNum 125000000);
             ("converted_last", VObj [("btc", VNum 1); ("eth", VNum 16.3); ("usd", VNum 43250)]);
             ("converted_volume",
              VObj [("btc", VNum 2890); ("eth", VNum 47127); ("usd", VNum 125000000)]);
             ("trust_score", VStr "green");
             ("bid_ask_spread_percentage", VNum 0.01);
             ("timestamp", timestamp);
             ("last_traded_at", last_traded_at);
             ("last_fetch_at", last_fetch_at);
             ("is_anomaly", VBool false);
             ("is_stale", VBool false);
             ("trade_url", VStr ("https://www.binance.com/en/trade/" +:+ symbol +:+ "_USDT")) ] ]).

(** [points] and [interval] of the two series generators. *)
Definition mock_points (timeframe : ChartTimeframe) : nat :=
  match timeframe with TF_1h => 60 | TF_24h => 24 | _ => 168 end%nat.

Definition mock_interval (timeframe : ChartTimeframe) : Z :=
  match timeframe with TF_1h => 60000 | TF_24h => 3600000 | _ => 3600000 end%Z.

(** The loop [for (let i = 0; i < points; i++) { ...; data.push(...) }],
    [remaining] iterations from index [i]. *)
Fixpoint chart_loop (now : Z) (points : nat) (interval : Z) (remaining i : nat)
    : M (list Value) :=
  match remaining with
  | O => ret []
  | S remaining' =>
    let timestamp := (now - (Z.of_nat points - Z.of_nat i) * interval)%Z in
    s <- ask (fun env => Math_sin env (inject_Z (Z.of_nat i) * 0.1)) ;;
    r1 <- Math_random ;;
    let price := 43000 + s * 2000 + r1 * 1000 in
    r2 <- Math_random ;;
    let volume := r2 * 1000000000 in
    let market_cap := price * 19600000 in
    rest <- chart_loop now points interval remaining' (S i) ;;
    ret (VObj [ ("timestamp", num timestamp); ("price", VNum price);
                ("volume", VNum volume); ("market_cap", VNum market_cap) ] :: rest)
  end.

Definition generateMockChartData (timeframe : ChartTimeframe) : M Value :=
  now <- Date_now ;;
  let points := mock_points timeframe in
  let interval := mock_interval timeframe in
  data <- chart_loop now points interval points 0 ;;
  ret (VArr data).

Definition candle (timestamp open high low close volume : Value) : Value :=
  VObj [ ("timestamp", timestamp); ("open", open); ("high", high);
         ("low", low); ("close", close); ("volume", volume) ].

(** The loop of [generateMockCandlestickData], threading [lastClose]. *)
Fixpoint candle_loop (now : Z) (points : nat) (interval : Z) (remaining i : nat)
    (lastClose : Q) : M (list Value) :=
  match remaining with
  | O => ret []
  | S remaining' =>
    let timestamp := (now - (Z.of_nat points - Z.of_nat i) * interval)%Z in
    r1 <- Math_random ;;
    let open := lastClose + (r1 - 0.5) * 100 in
    r2 <- Math_random ;;
    let high := open + r2 * 500 in
    r3 <- Math_random ;;
    let low := open - r3 * 500 in
    r4 <- Math_random ;;
    let close := low + r4 * (high - low) in
    r5 <- Math_random ;;
    let volume := r5 * 1000000 in
    rest <- candle_loop now points interval remaining' (S i) close ;;
    ret (candle (num timestamp) (VNum open) (VNum high) (VNum low) (VNum close)
                (VNum volume) :: rest)
  end.

Definition generateMockCandlestickData (timeframe : ChartTimeframe) : M Value :=
  now <- Date_now ;;
  let points := mock_points timeframe in
  let interval := mock_interval timeframe in
  data <- candle_loop now points interval points 0 43000 ;;
  ret (VArr data).

Local Close Scope Q_scope.

(** ** The lookups of the facade *)

(** [ids.join(',')] *)
Definition join_ids (ids : list string) : string := String.concat "," ids.

Definition no_headers : gmap string string := ∅.
Definition default_retries : Z := 3.

(** The request URLs, as each lookup builds them from [API_BASE_URL]. *)
Definition markets_url (base : string) (ids : list string) : string :=
  base +:+ "/coins/markets?vs_currency=usd&ids=" +:+ join_ids ids +:+
  "&order=market_cap_desc&sparkline=false&price_change_percentage=24h,7d,30d".

Definition detail_url (base id : string) : string :=
  base +:+ "/coins/" +:+ id +:+
  "?localization=false&tickers=false&market_data=true&community_data=true&developer_data=true&sparkline=false".

Definition exchanges_url (base : string) : string := base +:+ "/exchanges".

Definition tickers_url (base coinId : string) : string :=
  base +:+ "/coins/" +:+ coinId +:+ "/tickers?include_exchange_logo=true&page=1&depth=true".

(** [days <= 1 ? 'hourly' : days <= 90 ? 'daily' : 'daily'] *)
Definition sampling_interval (days : Days) : string :=
  if days_le days 1 then "hourly" else if days_le days 90 then "daily" else "daily".

Definition market_chart_url (base id : string) (timeframe : ChartTimeframe)
    (comparison : ComparisonAsset) : string :=
  let days := getTimeframeDays timeframe in
  let interval := sampling_interval days in
  base +:+ "/coins/" +:+ id +:+ "/market_chart?vs_currency=" +:+
  comparison_string comparison +:+ "&days=" +:+ days_string days +:+
  "&interval=" +:+ interval.

Definition ohlc_url (base id : string) (timeframe : ChartTimeframe) : string :=
  let days := getTimeframeDays timeframe in
  base +:+ "/coins/" +:+ id +:+ "/ohlc?vs_currency=usd&days=" +:+ days_string days.

(** The cache keys, as each lookup builds its [cacheKey]. *)
Definition cryptos_key (ids : list string) : string :=
  "cryptos-" +:+ join_ids ids.

Definition detailed_key (id : string) : string :=
  "detailed-" +:+ id.

Definition exchanges_key : string := "exchanges".

Definition pairs_key (coinId : string) : string :=
  "pairs-" +:+ coinId.

Definition history_key (id : string) (timeframe : ChartTimeframe)
    (comparison : ComparisonAsset) : string :=
  "history-" +:+ id +:+ "-" +:+ timeframe_string timeframe +:+ "-" +:+
  comparison_string comparison.

Definition candlestick_key (id : string) (timeframe : ChartTimeframe) : string :=
  "candlestick-" +:+ id +:+ "-" +:+ timeframe_string timeframe.

Definition fetchCryptocurrencies (ids : list string) : M Value :=
  let cacheKey := cryptos_key ids in
  cached <- getCachedData cacheKey ;;
  if truthy cached then ret cached else
  try_catch
    (base <- ask API_BASE_URL ;;
     response <- fetchWithRetry (markets_url base ids) no_headers default_retries ;;
     if negb (ok response) then throw "Failed to fetch data" else
     data <- response_json response ;;
     setCachedData cacheKey data default_ttl ;;
     ret data)
    (fun error => generateMockData ids).

Definition fetchDetailedCoinData (id : string) : M Value :=
  let cacheKey := detailed_key id in
  cached <- getCachedData cacheKey ;;
  if truthy cached then ret cached else
  try_catch
    (base <- ask API_BASE_URL ;;
     response <- fetchWithRetry (detail_url base id) no_headers default_retries ;;
     if negb (ok response) then throw "Failed to fetch detailed data" else
     data <- response_json response ;;
     setCachedData cacheKey data 60000 ;;
     ret data)
    (fun error => generateMockDetailedData id).

Definition fetchExchanges : M Value :=
  let cacheKey := exchanges_key in
  cached <- getCachedData cacheKey ;;
  if truthy cached then ret cached else
  try_catch
    (base <- ask API_BASE_URL ;;
     response <- fetchWithRetry (exchanges_url base) no_headers default_retries ;;
     if negb (ok response) then throw "Failed to fetch exchanges" else
     data <- response_json response ;;
     setCachedData cacheKey data 300000 ;;
     ret data)
    (fun error => generateMockExchanges).

Definition fetchTradingPairs (coinId : string) : M Value :=
  let cacheKey := pairs_key coinId in
  cached <- getCachedData cacheKey ;;
  if truthy cached then ret cached else
  try_catch
    (base <- ask API_BASE_URL ;;
     response <- fetchWithRetry (tickers_url base coinId) no_headers default_retries ;;
     if negb (ok response) then throw "Failed to fetch trading pairs" else
     data <- response_json response ;;
     tickers <- get_prop data "tickers" ;;
     setCachedData cacheKey (js_or tickers (VArr [])) 60000 ;;
     tickers' <- get_prop data "tickers" ;;
     ret (js_or tickers' (VArr [])))
    (fun error => generateMockTradingPairs coinId).

(** The callback of [data.prices.map] in [fetchPriceHistory]. *)
Definition price_point (data : Value) (element : Value) (index : nat) : M Value :=
  parts <- iterate element ;;
  let timestamp := pattern_var parts 0 in
  let price := pattern_var parts 1 in
  ret (VObj
    [ ("timestamp", timestamp);
      ("price", price);
      ("volume", js_or (opt_index (opt_index (prop data "total_volumes") index) 1) (num 0));
      ("market_cap", js_or (opt_index (opt_index (prop data "market_caps") index) 1) (num 0)) ]).

Definition fetchPriceHistory (id : string) (timeframe : ChartTimeframe)
    (comparison : ComparisonAsset) : M Value :=
  let cacheKey := history_key id timeframe comparison in
  cached <- getCachedData cacheKey ;;
  if truthy cached then ret cached else
  try_catch
    (base <- ask API_BASE_URL ;;
     response <- fetchWithRetry (market_chart_url base id timeframe comparison)
                                no_headers default_retries ;;
     if negb (ok response) then throw "Failed to fetch price history" else
     data <- response_json response ;;
     prices <- get_prop data "prices" ;;
     elements <- array_of prices ;;
     points <- mapiM_from 0 (price_point data) elements ;;
     let chartData := VArr points in
     setCachedData cacheKey chartData 30000 ;;
     ret chartData)
    (fun error => generateMockChartData timeframe).

(** The callback of [data.map] in [fetchCandlestickData]. *)
Definition parse_candle (element : Value) : M Value :=
  parts <- iterate element ;;
  r <- Math_random ;;
  ret (candle (pattern_var parts 0) (pattern_var parts 1) (pattern_var parts 2)
              (pattern_var parts 3) (pattern_var parts 4) (VNum (r * 1000000)%Q)).

Definition fetchCandlestickData (id : string) (timeframe : ChartTimeframe) : M Value :=
  let cacheKey := candlestick_key id timeframe in
  cached <- getCachedData cacheKey ;;
  if truthy cached then ret cached else
  try_catch
    (base <- ask API_BASE_URL ;;
     response <- fetchWithRetry (ohlc_url base id timeframe) no_headers default_retries ;;
     if negb (ok response) then throw "Failed to fetch candlestick data" else
     data <- response_json response ;;
     elements <- array_of data ;;
     candles <- mapM parse_candle elements ;;
     let candlestickData := VArr candles in
     setCachedData cacheKey candlestickData 30000 ;;
     ret candlestickData)
    (fun error => generateMockCandlestickData timeframe).

(** The cached lookups of the facade, by resource kind and parameters
    (defaults of [timeframe] and [comparison] filled in). *)
Inductive Lookup : Type :=
| Cryptocurrencies (ids : list string)
| DetailedCoin (id : string)
| Exchanges
| TradingPairs (coinId : string)
| PriceHistory (id : string) (timeframe : ChartTimeframe) (comparison : ComparisonAsset)
| Candlesticks (id : string) (timeframe : ChartTimeframe).

Definition cacheKey (l : Lookup) : string :=
  match l with
  | Cryptocurrencies ids => cryptos_key ids
  | DetailedCoin id => detailed_key id
  | Exchanges => exchanges_key
  | TradingPairs coinId => pairs_key coinId
  | PriceHistory id timeframe comparison => history_key id timeframe comparison
  | Candlesticks id timeframe => candlestick_key id timeframe
  end.

Definition lookup (l : Lookup) : M Value :=
  match l with
  | Cryptocurrencies ids => fetchCryptocurrencies ids
  | DetailedCoin id => fetchDetailedCoinData id
  | Exchanges => fetchExchanges
  | TradingPairs coinId => fetchTradingPairs coinId
  | PriceHistory id timeframe comparison => fetchPriceHistory id timeframe comparison
  | Candlesticks id timeframe => fetchCandlestickData id timeframe
  end.

(** The URL a lookup requests. *)
Definition request_url (l : Lookup) (base : string) : string :=
  match l with
  | Cryptocurrencies ids => markets_url base ids
  | DetailedCoin id => detail_url base id
  | Exchanges => exchanges_url base
  | TradingPairs coinId => tickers_url base coinId
  | PriceHistory id timeframe comparison => market_chart_url base id timeframe comparison
  | Candlesticks id timeframe => ohlc_url base id timeframe
  end.

(** The Synthetic Data Generator of each resource kind. *)
Definition synthetic (l : Lookup) : M Value :=
  match l with
  | Cryptocurrencies ids => generateMockData ids
  | DetailedCoin id => generateMockDetailedData id
  | Exchanges => generateMockExchanges
  | TradingPairs coinId => generateMockTradingPairs coinId
  | PriceHistory _ timeframe _ => generateMockChartData timeframe
  | Candlesticks _ timeframe => generateMockCandlestickData timeframe
  end.

(** ** On-chain analytics and news: always synthetic *)

(** [Math.floor] *)
Definition Math_floor (q : Q) : Z := Qfloor q.

Definition generateMockOnChainData (id : string) : M Value :=
  r1 <- Math_random ;;
  r2 <- Math_random ;;
  r3 <- Math_random ;;
  r4 <- Math_random ;;
  network_hash_rate <-
    (if String.eqb id "bitcoin" then
       r <- Math_random ;; ret (VNum (r * 200 + 150)%Q)
     else ret VUndefined) ;;
  r5 <- Math_random ;;
  ret (VObj
    [ ("active_addresses", num (Math_floor (r1 * 1000000)%Q + 100000));
      ("transaction_count", num (Math_floor (r2 * 500000)%Q + 50000));
      ("large_transactions", num (Math_floor (r3 * 1000)%Q + 100));
      ("average_transaction_value", VNum (r4 * 10000 + 1000)%Q);
      ("network_hash_rate", network_hash_rate);
      ("holders_count", num (Math_floor (r5 * 5000000)%Q + 1000000)) ]).

Definition fetchOnChainData (id : string) : M Value :=
  generateMockOnChainData id.

Definition news_titles : list string :=
  [ "Major Institutional Adoption Drives Price Rally";
    "New Partnership Announced with Fortune 500 Company";
    "Technical Analysis Shows Strong Support Levels";
    "Regulatory Clarity Brings Positive Market Sentiment";
    "Network Upgrade Improves Scalability and Security" ].

(** [['positive', 'neutral', 'negative'][i]] *)
Definition sentiment_at (i : Z) : Value :=
  match i with
  | 0 => VStr "positive"
  | 1 => VStr "neutral"
  | 2 => VStr "negative"
  | _ => VUndefined
  end.

(** The callback of [titles.map] in [generateMockNews]; [coinId] is [None]
    when the caller passes no argument. *)
Definition news_item (coinId : option string) (title : string) (index : nat) : M Value :=
  subject <-
    match coinId with
    | Some c => if String.eqb c "" then ret "Crypto" else ask (fun env => toUpperCase env c)
    | None => ret "Crypto"
    end ;;
  now <- Date_now ;;
  published_at <- ask (fun env => toISOString env (now - Z.of_nat index * 3600000)) ;;
  r <- Math_random ;;
  ret (VObj
    [ ("id", VStr ("news-" +:+ pretty index));
      ("title", VStr (subject +:+ ": " +:+ title));
      ("description",
       VStr "Lorem ipsum dolor sit amet, consectetur adipiscing elit. Sed do eiusmod tempor incididunt ut labore et dolore magna aliqua.");
      ("url", VStr ("https://example.com/news/" +:+ pretty index));
      ("source", VStr "CryptoNews");
      ("published_at", VStr published_at);
      ("sentiment", sentiment_at (Math_floor (r * 3)%Q)) ]).

Definition generateMockNews (coinId : option string) : M Value :=
  items <- mapiM_from 0 (news_item coinId) news_titles ;;
  ret (VArr items).

Definition fetchCryptoNews (coinId : option string) : M Value :=
  generateMockNews coinId.

(** ** The prediction heuristic *)

(** The [CryptoCurrency] interface of [types/crypto.ts].  An optional field
    is an [option]; a field of type [number | null] holds [None] for
    [null]. *)
Record CryptoCurrency : Type := mkCryptoCurrency {
  id : string;
  symbol : string;
  name : string;
  current_price : Q;
  price_change_percentage_24h : option Q;
  price_change_percentage_7d : option (option Q);
  price_change_percentage_30d : option (option Q);
  market_cap : Q;
  market_cap_rank : Q;
  fully_diluted_valuation : option Q;
  total_volume : Q;
  circulating_supply : Q;
  total_supply : option Q;
  max_supply : option Q;
  ath : Q;
  ath_date : string;
  atl : Q;
  atl_date : string;
  image : string;
  last_updated : string
}.

Inductive Trend : Type := bullish | bearish | neutral.

Record PredictionData : Type := mkPrediction {
  currency : string;
  prediction : Q;
  confidence : Q;
  trend : Trend;
  timeframe : string
}.

Local Open Scope Q_scope.

(** ToNumber of a [number | null] operand: [null] converts to [0]. *)
Definition to_number (x : option Q) : Q :=
  match x with Some q => q | None => 0 end.

(** [a > b] and [a < b] on numbers *)
Definition gt (a b : Q) : bool := negb (Qle_bool a b).
Definition lt (a b : Q) : bool := negb (Qle_bool b a).

(** [Math.abs(x)] for [x : number | null] *)
Definition Math_abs (x : option Q) : Q := Qabs (to_number x).

Definition trendFactor (crypto : CryptoCurrency) : Q :=
  if gt (to_number (price_change_percentage_24h crypto)) 0 then 0.05 else -0.05.

Definition marketCapFactor (crypto : CryptoCurrency) : Q :=
  if Qle_bool (market_cap_rank crypto) 10 then 0.02 else -0.02.

Definition priceStability (crypto : CryptoCurrency) : Q :=
  if lt (Math_abs (price_change_percentage_24h crypto)) 5 then 0.1 else -0.1.

Definition marketCapStability (crypto : CryptoCurrency) : Q :=
  if gt (market_cap crypto) 1000000000 then 0.1 else -0.05.

Definition baseConfidence : Q := 0.7.

Definition generatePrediction (crypto : CryptoCurrency) : M PredictionData :=
  r1 <- Math_random ;;
  let volatilityFactor := r1 * 0.2 - 0.1 in
  let prediction :=
    current_price crypto *
    (1 + volatilityFactor + trendFactor crypto + marketCapFactor crypto) in
  r2 <- Math_random ;;
  let confidence :=
    Qmax 0.5 (Qmin 0.95
      (baseConfidence + priceStability crypto + marketCapStability crypto + r2 * 0.2)) in
  let trend :=
    if gt prediction (current_price crypto * 1.03) then bullish
    else if lt prediction (current_price crypto * 0.97) then bearish
    else neutral in
  currency <- ask (fun env => toUpperCase env (symbol crypto)) ;;
  ret (mkPrediction currency prediction confidence trend "24h").

Local Close Scope Q_scope.

(** ** The prediction card ([components/PredictionCard.tsx]) *)

(** A JavaScript number that may fail to be finite, as a quotient can. *)
Inductive Number : Type :=
| Finite (q : Q)
| PlusInfinity
| MinusInfinity
| NotANumber.

Local Open Scope Q_scope.

(** [a / b] for finite [a] and [b] (a zero divisor taken as [+0]). *)
Definition divide (a b : Q) : Number :=
  if Qeq_bool b 0 then
    if gt a 0 then PlusInfinity else if lt a 0 then MinusInfinity else NotANumber
  else Finite (a / b).

(** [x * 100] *)
Definition times100 (x : Number) : Number :=
  match x with
  | Finite q => Finite (q * 100)
  | other => other
  end.

(** [x > 0] *)
Definition positive (x : Number) : bool :=
  match x with
  | Finite q => gt q 0
  | PlusInfinity => true
  | MinusInfinity | NotANumber => false
  end.

Definition priceDiff (p : PredictionData) (currentPrice : Q) : Q :=
  prediction p - currentPrice.

Definition percentChange (p : PredictionData) (currentPrice : Q) : Number :=
  times100 (divide (priceDiff p currentPrice) currentPrice).

Definition getTrendColor (p : PredictionData) : string :=
  match trend p with
  | bullish => "text-green-400"
  | bearish => "text-red-400"
  | neutral => "text-gray-400"
  end.

Definition confidenceColor (p : PredictionData) : string :=
  if gt (confidence p) 0.8 then "text-green-400"
  else if gt (confidence p) 0.6 then "text-yellow-400"
  else "text-red-400".

(** The class and the sign prefix of the "Expected Change" figure:
    [percentChange > 0 ? 'text-green-400' : 'text-red-400'] and
    [percentChange > 0 ? '+' : '']. *)
Definition changeColor (p : PredictionData) (currentPrice : Q) : string :=
  if positive (percentChange p currentPrice) then "text-green-400" else "text-red-400".

Definition changeSign (p : PredictionData) (currentPrice : Q) : string :=
  if positive (percentChange p currentPrice) then "+" else "".

(** ** The charts ([components/PriceChart.tsx], [EnhancedPriceChart]) *)

(** The [ChartData] and [CandlestickData] interfaces of [types/crypto.ts]. *)
Record ChartData : Type := mkChartData {
  point_timestamp : Q;
  price : Q;
  point_volume : option Q;
  point_market_cap : option Q
}.

Record CandlestickData : Type := mkCandlestickData {
  candle_timestamp : Q;
  candle_open : Q;
  candle_high : Q;
  candle_low : Q;
  candle_close : Q;
  candle_volume : Q
}.

(** A step of a canvas path, with coordinates in [C]. *)
Inductive PathOp (C : Type) : Type :=
| MoveTo (x y : C)
| LineTo (x y : C).
Arguments MoveTo {C} x y.
Arguments LineTo {C} x y.

(** [Math.min(...l)] and [Math.max(...l)] of a list that is not empty,
    given as its head and tail. *)
Definition Math_min_of (first : Q) (rest : list Q) : Q := fold_left Qmin rest first.
Definition Math_max_of (first : Q) (rest : list Q) : Q := fold_left Qmax rest first.

Definition of_nat (n : nat) : Q := inject_Z (Z.of_nat n).

Definition PriceChart_padding : Q := 40.

(** The coordinates the two [forEach] callbacks of [PriceChart] compute for
    the point at [index] of [n]. *)
Definition PriceChart_x (n index : nat) (width : Q) : Q :=
  PriceChart_padding
  + (of_nat index / of_nat (n - 1)) * (width - 2 * PriceChart_padding).

Definition PriceChart_y (point_price minPrice priceRange height : Q) : Q :=
  height - PriceChart_padding
  - ((point_price - minPrice) / priceRange) * (height - 2 * PriceChart_padding).

(** What [PriceChart] draws on a canvas of the given size: the stroked
    price line and the filled area under it; [None] when the effect
    returns before drawing ([data.length < 2]).  The canvas and its
    context are taken to exist. *)
Record PriceChartDrawing : Type := mkPriceChartDrawing {
  price_line : list (PathOp Q);
  price_area : list (PathOp Q)
}.

Definition PriceChart_draw (data : list ChartData) (width height : Q)
    : option PriceChartDrawing :=
  match price <$> data with
  | first :: (_ :: _) as rest =>
    let n := length data in
    let minPrice := Math_min_of first rest in
    let maxPrice := Math_max_of first rest in
    (* maxPrice - minPrice || 1 *)
    let priceRange :=
      if Qeq_bool (maxPrice - minPrice) 0 then 1 else maxPrice - minPrice in
    let x index := PriceChart_x n index width in
    let y point := PriceChart_y (price point) minPrice priceRange height in
    Some (mkPriceChartDrawing
      (imap (fun index point =>
               if Nat.eqb index 0 then MoveTo (x index) (y point)
               else LineTo (x index) (y point)) data)
      (mjoin (imap (fun index point =>
               if Nat.eqb index 0 then
                 [MoveTo (x index) (height - PriceChart_padding);
                  LineTo (x index) (y point)]
               else [LineTo (x index) (y point)]) data)
       ++ [LineTo (width - PriceChart_padding) (height - PriceChart_padding)]))
  | _ => None
  end.

(** A quotient as far as the charts use it: [None] stands for a result
    that is not a finite number ([NaN] or an infinity), which every sum,
    difference and product with finite numbers, [Math.abs], [Math.min] and
    [Math.max] hand on. *)
Definition quotient (a b : Q) : option Q :=
  if Qeq_bool b 0 then None else Some (a / b).

Definition Enhanced_padding : Q := 60.

(** The coordinates [drawLineChart] and [drawCandlestickChart] compute. *)
Definition Enhanced_x (n index : nat) (width : Q) : option Q :=
  q ← quotient (of_nat index) (of_nat n - 1);
  Some (Enhanced_padding + q * (width - 2 * Enhanced_padding)).

Definition Enhanced_y (value minPrice priceRange height : Q) : option Q :=
  q ← quotient (value - minPrice) priceRange;
  Some (height - Enhanced_padding - q * (height - 2 * Enhanced_padding)).

(** What [drawLineChart] draws: [None] when it returns before drawing
    ([!chartData.length]). *)
Record LineChartDrawing : Type := mkLineChartDrawing {
  (** the six horizontal and seven vertical grid lines, as end points *)
  grid : list ((Q * Q) * (Q * Q));
  chart_line : list (PathOp (option Q));
  chart_area : list (PathOp (option Q))
}.

Definition drawLineChart (chartData : list ChartData) (width height : Q)
    : option LineChartDrawing :=
  match price <$> chartData with
  | first :: rest =>
    let n := length chartData in
    let padding := Enhanced_padding in
    let minPrice := Math_min_of first rest in
    let maxPrice := Math_max_of first rest in
    let priceRange := maxPrice - minPrice in
    let x index := Enhanced_x n index width in
    let y point := Enhanced_y (price point) minPrice priceRange height in
    Some (mkLineChartDrawing
      (((fun i => let gy := padding + (of_nat i / 5) * (height - 2 * padding) in
                  ((padding, gy), (width - padding, gy))) <$> seq 0 6)
       ++ ((fun i => let gx := padding + (of_nat i / 6) * (width - 2 * padding) in
                     ((gx, padding), (gx, height - padding))) <$> seq 0 7))
      (imap (fun index point =>
               if Nat.eqb index 0 then MoveTo (x index) (y point)
               else LineTo (x index) (y point)) chartData)
      (mjoin (imap (fun index point =>
               if Nat.eqb index 0 then
                 [MoveTo (x index) (Some (height - padding));
                  LineTo (x index) (y point)]
               else [LineTo (x index) (y point)]) chartData)
       ++ [LineTo (Some (width - padding)) (Some (height - padding))]))
  | [] => None
  end.

(** One candle as [drawCandlestickChart] draws it: the wick from
    [(x, highY)] to [(x, lowY)] and the body
    [fillRect(x - candleWidth / 2, bodyY, candleWidth, Math.max(1, bodyHeight))],
    both green when [close > open] and red otherwise. *)
Record CandleDrawing : Type := mkCandleDrawing {
  isGreen : bool;
  wick_x : option Q;
  highY : option Q;
  lowY : option Q;
  body_left : option Q;
  bodyY : option Q;
  body_width : Q;
  body_height : option Q
}.

(** The callback of [candlestickData.forEach] in [drawCandlestickChart],
    for a series of [n] candles. *)
Definition draw_candle (n : nat) (minPrice priceRange candleWidth width height : Q)
    (index : nat) (candle : CandlestickData) : CandleDrawing :=
  let x := Enhanced_x n index width in
  let openY := Enhanced_y (candle_open candle) minPrice priceRange height in
  let closeY := Enhanced_y (candle_close candle) minPrice priceRange height in
  let highY := Enhanced_y (candle_high candle) minPrice priceRange height in
  let lowY := Enhanced_y (candle_low candle) minPrice priceRange height in
  let bodyHeight := c ← closeY; o ← openY; Some (Qabs (c - o)) in
  let bodyY := o ← openY; c ← closeY; Some (Qmin o c) in
  mkCandleDrawing
    (gt (candle_close candle) (candle_open candle))
    x highY lowY
    ((fun x => x - candleWidth / 2) <$> x)
    bodyY candleWidth
    (Qmax 1 <$> bodyHeight).

Definition drawCandlestickChart (candlestickData : list CandlestickData)
    (width height : Q) : option (list CandleDrawing) :=
  (* candlestickData.flatMap(d => [d.high, d.low]) *)
  match mjoin ((fun d => [candle_high d; candle_low d]) <$> candlestickData) with
  | first :: rest =>
    let n := length candlestickData in
    let padding := Enhanced_padding in
    let minPrice := Math_min_of first rest in
    let maxPrice := Math_max_of first rest in
    let priceRange := maxPrice - minPrice in
    let candleWidth := Qmax 2 ((width - 2 * padding) / of_nat n * 0.8) in
    Some (imap (draw_candle n minPrice priceRange candleWidth width height)
               candlestickData)
  | [] => None
  end.

Local Close Scope Q_scope.

(** ** Describing runs *)

(** The world after the requests [rqs] were issued and the delays [ds]
    slept, nothing else touched. *)
Definition after_attempts (rqs : list Request) (ds : list Z) (w : World) : World :=
  mkWorld (cache w) (requests w ++ rqs) (sleeps w ++ ds) (clock_reads w) (random_draws w).

(** The world after one more reading of the clock. *)
Definition after_clock_read (w : World) : World :=
  mkWorld (cache w) (requests w) (sleeps w) (S (clock_reads w)) (random_draws w).

(** The attempts a call made: the requests it added. *)
Definition attempts_made (w w' : World) : nat :=
  (length (requests w') - length (requests w))%nat.

(** The request [fetchWithRetry] sends at every attempt. *)
Definition request_of (url : string) (options_headers : gmap string string) : Request :=
  mkRequest url (with_accept options_headers).

(** ** Describing identifiers *)

(** The character [c] does not occur in [s]. *)
Fixpoint free_of (c : ascii) (s : string) : bool :=
  match s with
  | EmptyString => true
  | String c' rest => negb (Ascii.eqb c c') && free_of c rest
  end.

(** An asset identifier that can be listed in [ids=a,b,c]: not empty and
    without a comma. *)
Definition listable (id : string) : Prop :=
  id <> "" /\ free_of "," id = true.

Definition listable_ids (l : Lookup) : Prop :=
  match l with
  | Cryptocurrencies ids => Forall listable ids
  | _ => True
  end.

(** ** Describing entities *)

(** The shape a TypeScript interface asks of a value: the type of each
    required field. *)
#[warnings="-register-all"]
Inductive Shape : Type :=
| SString
| SNumber
| SNullableNumber
| SBoolean
| SArray (element : Shape)
| SRecord (required : list (string * Shape)).

Fixpoint has_shape (s : Shape) (v : Value) : bool :=
  match s, v with
  | SString, VStr _ => true
  | SNumber, VNum _ => true
  | SNullableNumber, (VNum _ | VNull) => true
  | SBoolean, VBool _ => true
  | SArray element, VArr elems => forallb (has_shape element) elems
  | SRecord required, VObj fields =>
    forallb (fun field : string * Shape =>
               match assoc field.1 fields with
               | Some x => has_shape field.2 x
               | None => false
               end) required
  | _, _ => false
  end.

(** The required fields of the interfaces of [types/crypto.ts]. *)
Definition CryptoCurrency_shape : Shape :=
  SRecord
    [ ("id", SString); ("symbol", SString); ("name", SString);
      ("current_price", SNumber); ("price_change_percentage_24h", SNullableNumber);
      ("market_cap", SNumber); ("market_cap_rank", SNumber);
      ("total_volume", SNumber); ("circulating_supply", SNumber);
      ("ath", SNumber); ("ath_date", SString); ("atl", SNumber);
      ("atl_date", SString); ("image", SString); ("last_updated", SString) ].

(** [DetailedCoinData extends CryptoCurrency] with optional fields only. *)
Definition DetailedCoinData_shape : Shape := CryptoCurrency_shape.

(** The fields [generateMockDetailedData] adds to the listing record;
    [contract_address] is left out, being [undefined] for 'ethereum'. *)
Definition synthetic_detail_shape : Shape :=
  SRecord
    [ ("description", SString); ("homepage", SArray SString);
      ("blockchain_site", SArray SString); ("official_forum_url", SArray SString);
      ("chat_url", SArray SString); ("announcement_url", SArray SString);
      ("twitter_screen_name", SString); ("telegram_channel_identifier", SString);
      ("subreddit_url", SString);
      ("repos_url", SRecord [("github", SArray SString)]);
      ("genesis_date", SString); ("hashing_algorithm", SString);
      ("categories", SArray SString);
      ("market_data", SRecord
        [ ("price_change_24h_in_currency", SRecord [("usd", SNumber)]);
          ("price_change_percentage_1h_in_currency", SRecord [("usd", SNumber)]);
          ("market_cap_change_24h_in_currency", SRecord [("usd", SNumber)]);
          ("market_cap_change_percentage_24h_in_currency", SRecord [("usd", SNumber)]) ]) ].

Definition ExchangeData_shape : Shape :=
  SRecord
    [ ("id", SString); ("name", SString); ("image", SString);
      ("trust_score", SNumber); ("trust_score_rank", SNumber);
      ("trade_volume_24h_btc", SNumber); ("url", SString) ].

Definition TradingPair_shape : Shape :=
  SRecord
    [ ("base", SString); ("target", SString);
      ("market", SRecord [ ("name", SString); ("identifier", SString);
                           ("has_trading_incentive", SBoolean) ]);
      ("last", SNumber); ("volume", SNumber);
      ("converted_last", SRecord [("btc", SNumber); ("eth", SNumber); ("usd", SNumber)]);
      ("converted_volume", SRecord [("btc", SNumber); ("eth", SNumber); ("usd", SNumber)]);
      ("trust_score", SString); ("bid_ask_spread_percentage", SNumber);
      ("timestamp", SString); ("last_traded_at", SString); ("last_fetch_at", SString);
      ("is_anomaly", SBoolean); ("is_stale", SBoolean); ("trade_url", SString) ].

Definition ChartData_shape : Shape :=
  SRecord [ ("timestamp", SNumber); ("price", SNumber) ].

Definition CandlestickData_shape : Shape :=
  SRecord
    [ ("timestamp", SNumber); ("open", SNumber); ("high", SNumber);
      ("low", SNumber); ("close", SNumber); ("volume", SNumber) ].

(** The Candle invariant on numbers. *)
Definition ohlc_ordered (open high low close : Q) : Prop :=
  (low <= open)%Q /\ (open <= high)%Q /\ (low <= close)%Q /\ (close <= high)%Q.

(** The Candle invariant on a record: numeric fields,
    [low <= open <= high], [low <= close <= high], and a volume that is
    not negative. *)
Definition candle_invariant (v : Value) : Prop :=
  match prop v "open", prop v "high", prop v "low", prop v "close", prop v "volume" with
  | VNum open, VNum high, VNum low, VNum close, VNum volume =>
    ohlc_ordered open high low close /\ (0 <= volume)%Q
  | _, _, _, _, _ => False
  end.

(** A row of an upstream OHLC payload, [[timestamp, open, high, low, close]],
    and the Candle invariant on it as the upstream sent it. *)
Definition row_ordered (row : Value) : Prop :=
  match row with
  | VArr [VNum _; VNum open; VNum high; VNum low; VNum close] =>
    ohlc_ordered open high low close
  | _ => False
  end.

(** [c] is the candle read off [row]: the five numbers as they came, and a
    volume that is not negative. *)
Definition parsed_candle (row c : Value) : Prop :=
  exists t open high low close volume,
    row = VArr [VNum t; VNum open; VNum high; VNum low; VNum close]
    /\ c = candle (VNum t) (VNum open) (VNum high) (VNum low) (VNum close) (VNum volume)
    /\ (0 <= volume)%Q.

(** A structurally valid entity of the resource kind of a lookup: every
    required field of its interface is there with a value of its type; a
    listing has one record per identifier asked for, carrying that
    identifier; a coin detail carries the detail fields as well; a list of
    exchanges or of trading pairs is not empty; a series has the length
    its timeframe asks for. *)
Definition valid (l : Lookup) (v : Value) : Prop :=
  match l with
  | Cryptocurrencies ids =>
    exists entities, v = VArr entities
      /\ Forall2 (fun id e => has_shape CryptoCurrency_shape e = true
                              /\ prop e "id" = VStr id) ids entities
  | DetailedCoin id =>
    has_shape DetailedCoinData_shape v = true /\ prop v "id" = VStr id
    /\ has_shape synthetic_detail_shape v = true
  | Exchanges =>
    exists entities, v = VArr entities
      /\ entities <> []
      /\ Forall (fun e => has_shape ExchangeData_shape e = true) entities
  | TradingPairs _ =>
    exists entities, v = VArr entities
      /\ entities <> []
      /\ Forall (fun e => has_shape TradingPair_shape e = true) entities
  | PriceHistory _ timeframe _ =>
    exists entities, v = VArr entities
      /\ length entities = mock_points timeframe
      /\ Forall (fun e => has_shape ChartData_shape e = true) entities
  | Candlesticks _ timeframe =>
    exists entities, v = VArr entities
      /\ length entities = mock_points timeframe
      /\ Forall (fun e => has_shape CandlestickData_shape e = true
                          /\ candle_invariant e) entities
  end.

(** Asset identifiers that no object inherits as a property name. *)
Definition plain_ids (l : Lookup) : Prop :=
  match l with
  | Cryptocurrencies ids => Forall (fun id => inherited id = false) ids
  | DetailedCoin id => inherited id = false
  | _ => True
  end.

(** A random source as [Math.random] specifies it: draws in [[0, 1)]. *)
Definition unit_interval (env : Env) : Prop :=
  forall k, (0 <= random env k)%Q /\ (random env k < 1)%Q.

(** ** Describing runs of a lookup *)

(** The Fetch Client failed: it threw, or returned a response that is not
    OK. *)
Definition failed (res : Res Response) : Prop :=
  match res with
  | Thrown _ => True
  | Returned r => ok r = false
  end.

(** The template the six lookups share: consult the cache, fetch on a
    miss, reject a response that is not OK, hand the parsed payload to
    [process], fall back on any exception. *)
Definition lookup_template (key : string) (url : string -> string) (message : Error)
    (process : Value -> M Value) (fallback : M Value) : M Value :=
  cached <- getCachedData key ;;
  if truthy cached then ret cached else
  try_catch
    (base <- ask API_BASE_URL ;;
     response <- fetchWithRetry (url base) no_headers default_retries ;;
     if negb (ok response) then throw message else
     data <- response_json response ;;
     process data)
    (fun error => fallback).

(** What each lookup does with a parsed payload. *)
Definition process (l : Lookup) (data : Value) : M Value :=
  match l with
  | Cryptocurrencies ids =>
    setCachedData (cryptos_key ids) data default_ttl ;; ret data
  | DetailedCoin id =>
    setCachedData (detailed_key id) data 60000 ;; ret data
  | Exchanges =>
    setCachedData exchanges_key data 300000 ;; ret data
  | TradingPairs coinId =>
    tickers <- get_prop data "tickers" ;;
    setCachedData (pairs_key coinId) (js_or tickers (VArr [])) 60000 ;;
    tickers' <- get_prop data "tickers" ;;
    ret (js_or tickers' (VArr []))
  | PriceHistory id timeframe comparison =>
    prices <- get_prop data "prices" ;;
    elements <- array_of prices ;;
    points <- mapiM_from 0 (price_point data) elements ;;
    setCachedData (history_key id timeframe comparison) (VArr points) 30000 ;;
    ret (VArr points)
  | Candlesticks id timeframe =>
    elements <- array_of data ;;
    candles <- mapM parse_candle elements ;;
    setCachedData (candlestick_key id timeframe) (VArr candles) 30000 ;;
    ret (VArr candles)
  end.

(** The lifetime each lookup gives its cache entry. *)
Definition lifetime (l : Lookup) : Z :=
  match l with
  | Cryptocurrencies _ => default_ttl
  | DetailedCoin _ => 60000
  | Exchanges => 300000
  | TradingPairs _ => 60000
  | PriceHistory _ _ _ => 30000
  | Candlesticks _ _ => 30000
  end.

Definition failure_message (l : Lookup) : Error :=
  match l with
  | Cryptocurrencies _ => "Failed to fetch data"
  | DetailedCoin _ => "Failed to fetch detailed data"
  | Exchanges => "Failed to fetch exchanges"
  | TradingPairs _ => "Failed to fetch trading pairs"
  | PriceHistory _ _ _ => "Failed to fetch price history"
  | Candlesticks _ _ => "Failed to fetch candlestick data"
  end.

(** A computation that leaves the component [f] of the world as it finds
    it, and one that never throws. *)
Definition preserves {A X : Type} (f : World -> X) (c : M A) : Prop :=
  forall env w res w', c env w = (res, w') -> f w' = f w.

Definition always_returns {A : Type} (c : M A) : Prop :=
  forall env w, exists a w', c env w = (Returned a, w').

(** No [getCachedData] of [key] on the cache [m] can yield a truthy value. *)
Definition misses (key : string) (m : gmap string CacheEntry) : Prop :=
  match m !! key with
  | Some entry => truthy (data entry) = false
  | None => True
  end.

(** [{ ...crypto, price_change_percentage_24h: change }] *)
Definition with_change_24h (crypto : CryptoCurrency) (change : option Q) : CryptoCurrency :=
  mkCryptoCurrency (id crypto) (symbol crypto) (name crypto) (current_price crypto)
    change (price_change_percentage_7d crypto) (price_change_percentage_30d crypto)
    (market_cap crypto) (market_cap_rank crypto) (fully_diluted_valuation crypto)
    (total_volume crypto) (circulating_supply crypto) (total_supply crypto)
    (max_supply crypto) (ath crypto) (ath_date crypto) (atl crypto) (atl_date crypto)
    (image crypto) (last_updated crypto).

(** The world after two more draws from the random source. *)
Definition after_two_draws (w : World) : World :=
  mkWorld (cache w) (requests w) (sleeps w) (clock_reads w) (S (S (random_draws w))).

(** ** Sample platforms *)

(** A snapshot with the given price, 24h change, capitalisation and rank. *)
Definition sample_snapshot (price : Q) (change : option Q) (cap rank : Q) : CryptoCurrency :=
  mkCryptoCurrency "bitcoin" "btc" "Bitcoin" price change None None cap rank None
    25000000000 19600000 None None 69045 "2021-11-10T14:24:11.849Z"
    (6781 # 100) "2013-07-06T00:00:00.000Z"
    "https://assets.coingecko.com/coins/images/1/large/bitcoin.png"
    "2024-01-01T00:00:00.000Z".

(** A platform whose network answers every request with status [st] and
    body [body], whose clock reads [t] at every reading and whose random
    source always draws [1/2]. *)
Definition sample_env (st : Z) (body : option Value) (t : Z) : Env :=
  mkEnv "https://api.coingecko.com/api/v3"
        (fun _ _ => Responded (mkResponse st body))
        (fun _ => t)
        (fun _ => (1 # 2)%Q)
        (fun _ => "2024-01-01T00:00:00.000Z")
        (fun s => s)
        (fun _ => 0%Q).

(** A platform without connectivity whose random source always draws [r]. *)
Definition drawing_env (r : Q) : Env :=
  mkEnv "https://api.coingecko.com/api/v3"
        (fun _ _ => NetworkError "TypeError: Failed to fetch")
        (fun _ => 0)
        (fun _ => r)
        (fun _ => "2024-01-01T00:00:00.000Z")
        (fun s => s)
        (fun _ => 0%Q).

(** A platform without connectivity: every [fetch] rejects. *)
Definition offline_env (t : Z) : Env :=
  mkEnv "https://api.coingecko.com/api/v3"
        (fun _ _ => NetworkError "TypeError: Failed to fetch")
        (fun _ => t)
        (fun _ => (1 # 2)%Q)
        (fun _ => "2024-01-01T00:00:00.000Z")
        (fun s => s)
        (fun _ => 0%Q).

(** An upstream OHLC payload whose only row has [open = 1], [high = 0],
    [low = 5] and [close = 3]. *)
Definition disordered_ohlc : Value :=
  VArr [VArr [num 0; num 1; num 0; num 5; num 3]].

(** An upstream OHLC payload whose only row is ordered. *)
Definition ordered_ohlc : Value :=
  VArr [VArr [num 0; num 2; num 4; num 1; num 3]].

(** A fresh page: empty cache, nothing requested yet. *)
Definition fresh_world : World := mkWorld ∅ [] [] 0 0.

(** A page whose cache holds [d] under [key], stored at [t] with lifetime
    [life]. *)
Definition world_with (key : string) (d : Value) (t life : Z) : World :=
  mkWorld {[ key := mkEntry d t life ]} [] [] 0 0.

(** ** Describing attempts *)

(** An outcome the Fetch Client answers with another attempt, as long as
    one is left: a rejection of [fetch], or a response with status 500 or
    more. *)
Definition transient (o : Outcome) : bool :=
  match o with
  | NetworkError _ => true
  | Responded r => 500 <=? status r
  end.

(** The result of [fetchWithRetry] is what the outcome [o] delivers: the
    response itself, or the rejection rethrown. *)
Definition delivers (o : Outcome) (res : Res Response) : Prop :=
  match o, res with
  | Responded r, Returned r' => r = r'
  | NetworkError e, Thrown e' => e = e'
  | _, _ => False
  end.

(** The sum of a list of delays. *)
Definition total_delay (ds : list Z) : Z := fold_right Z.add 0 ds.

(** A platform whose network rejects the first [k] requests and answers
    every later one with status [st] and body [body]. *)
Definition flaky_env (k : nat) (st : Z) (body : option Value) : Env :=
  mkEnv "https://api.coingecko.com/api/v3"
        (fun i _ => if (i <? k)%nat then NetworkError "TypeError: Failed to fetch"
                    else Responded (mkResponse st body))
        (fun _ => 0)
        (fun _ => (1 # 2)%Q)
        (fun _ => "2024-01-01T00:00:00.000Z")
        (fun s => s)
        (fun _ => 0%Q).

(** ** Describing what a lookup touches *)

(** The lookups that hand the parsed payload on as it is. *)
Definition stores_payload (l : Lookup) : bool :=
  match l with
  | Cryptocurrencies _ | DetailedCoin _ | Exchanges => true
  | TradingPairs _ | PriceHistory _ _ _ | Candlesticks _ _ => false
  end.

(** The network side of the world: the requests issued and the delays
    slept. *)
Definition traffic (w : World) : list Request * list Z := (requests w, sleeps w).

(** The entry the cache holds under [k], if any. *)
Definition slot (k : string) (w : World) : option CacheEntry := cache w !! k.

(** A value an array pattern can draw from. *)
Definition iterable (v : Value) : bool :=
  match v with
  | VArr _ | VStr _ => true
  | _ => false
  end.

(** The point [fetchPriceHistory] builds from the row at [index] of
    [data.prices], when the row is an array. *)
Definition chart_point (data : Value) (index : nat) (row : Value) : Value :=
  VObj
    [ ("timestamp", opt_index row 0);
      ("price", opt_index row 1);
      ("volume", js_or (opt_index (opt_index (prop data "total_volumes") index) 1) (num 0));
      ("market_cap", js_or (opt_index (opt_index (prop data "market_caps") index) 1) (num 0)) ].

(** The rows of a series payload as the two series lookups read them:
    [data.prices] for the price history, [data] itself for the candles;
    [None] for any other lookup or when the rows are no array. *)
Definition series_rows (l : Lookup) (payload : Value) : option (list Value) :=
  match l with
  | PriceHistory _ _ _ =>
    match prop payload "prices" with VArr rows => Some rows | _ => None end
  | Candlesticks _ _ =>
    match payload with VArr rows => Some rows | _ => None end
  | _ => None
  end.

(** A market-chart payload with two rows of prices, one row of volumes
    and no market caps. *)
Definition sample_chart_payload : Value :=
  VObj [ ("prices", VArr [VArr [num 1000; num 42000]; VArr [num 2000; num 43000]]);
         ("total_volumes", VArr [VArr [num 1000; num 7]]) ].

(** A market-chart payload whose second row is a number. *)
Definition poisoned_chart_payload : Value :=
  VObj [ ("prices", VArr [VArr [num 1000; num 42000]; num 3]) ].

(** ** Describing the synthetic series *)

(** [Math.sin] stays within [-1, 1]. *)
Definition sine_bounded (env : Env) : Prop :=
  forall x, (-1 <= Math_sin env x)%Q /\ (Math_sin env x <= 1)%Q.

(** The timestamp both series generators give the entry at index [i]:
    [now - (points - i) * interval]. *)
Definition series_timestamp (now : Z) (timeframe : ChartTimeframe) (i : nat) : Z :=
  now - (Z.of_nat (mock_points timeframe) - Z.of_nat i) * mock_interval timeframe.

(** A run of candles in which each one opens less than 51 away from the
    close before it ([lastClose] for the first one), spans less than 1001
    from [low] to [high], and closes less than 501 away from its open.
    The code draws these distances from [[0, 50]], [[0, 1000)] and
    [[0, 500)]; the margin of 1 is more than rounding can add. *)
Fixpoint continues (lastClose : Q) (candles : list Value) : Prop :=
  match candles with
  | [] => True
  | c :: rest =>
    exists open high low close,
      prop c "open" = VNum open /\ prop c "high" = VNum high
      /\ prop c "low" = VNum low /\ prop c "close" = VNum close
      /\ (lastClose - 51 < open)%Q /\ (open < lastClose + 51)%Q
      /\ (high - low < 1001)%Q
      /\ (open - 501 < close)%Q /\ (close < open + 501)%Q
      /\ continues close rest
  end.

(** The subject [generateMockNews] puts in front of each title:
    [coinId ? coinId.toUpperCase() : 'Crypto']. *)
Definition news_subject (env : Env) (coinId : option string) : string :=
  match coinId with
  | Some c => if String.eqb c "" then "Crypto" else toUpperCase env c
  | None => "Crypto"
  end.

(** ** Describing drawings *)

(** The point a step of a path leads to. *)
Definition path_point {C : Type} (op : PathOp C) : C * C :=
  match op with
  | MoveTo x y => (x, y)
  | LineTo x y => (x, y)
  end.

Definition is_move {C : Type} (op : PathOp C) : bool :=
  match op with
  | MoveTo _ _ => true
  | LineTo _ _ => false
  end.

(** A point inside the plot area of a canvas of the given size: at least
    [padding] away from each edge. *)
Definition in_plot_area (padding width height : Q) (point : Q * Q) : Prop :=
  (padding <= point.1)%Q /\ (point.1 <= width - padding)%Q
  /\ (padding <= point.2)%Q /\ (point.2 <= height - padding)%Q.

(** ** Describing the synthetic listing *)

(** What [generateMockData] makes of one identifier.  A name inherited
    from [Object.prototype] yields a record with nothing but
    [last_updated]; any other identifier yields a record with that [id],
    which for an identifier without a profile is the placeholder coin. *)
Definition listing_entry (env : Env) (id : string) (e : Value) : Prop :=
  (exists stamp, prop e "last_updated" = VStr stamp)
  /\ (inherited id = true -> exists stamp, e = VObj [("last_updated", VStr stamp)])
  /\ (inherited id = false -> prop e "id" = VStr id)
  /\ (inherited id = false -> id ∉ ["bitcoin"; "ethereum"; "solana"] ->
      prop e "current_price" = VNum 1.00
      /\ prop e "market_cap_rank" = VNum 999
      /\ prop e "symbol" = VStr (toUpperCase env (substring 0 3 id))
      /\ prop e "name" = VStr (toUpperCase env (charAt0 id) +:+ slice1 id)).

(** The properties [generateMockDetailedData] sets itself. *)
Definition detail_keys : list string :=
  [ "description"; "homepage"; "blockchain_site"; "official_forum_url"; "chat_url";
    "announcement_url"; "twitter_screen_name"; "telegram_channel_identifier";
    "subreddit_url"; "repos_url"; "contract_address"; "genesis_date";
    "hashing_algorithm"; "categories"; "market_data" ].

(** The identifiers a lookup hands to [generateMockData] when it falls
    back: those of a market listing, the one of a coin detail. *)
Definition asks_for (l : Lookup) (id : string) : Prop :=
  match l with
  | Cryptocurrencies ids => id ∈ ids
  | DetailedCoin id' => id' = id
  | _ => False
  end.

(** * Properties *)

(** Every lookup is an instance of the template. *)
Lemma lookup_is_template (l : Lookup) :
  lookup l
  = lookup_template (cacheKey l) (request_url l) (failure_message l) (process l) (synthetic l).
Proof. destruct l; reflexivity. Qed.

(** ** The monad *)

Ltac unfold_monad :=
  unfold bind, ret, throw, try_catch, ask, fetch, delay, Date_now, Math_random,
    cache_get, cache_delete, cache_set, set_cache in *.

Lemma world_eta (w : World) :
  mkWorld (cache w) (requests w) (sleeps w) (clock_reads w) (random_draws w) = w.
Proof. by destruct w. Qed.

Lemma after_attempts_compose (rqs1 rqs2 : list Request) (ds1 ds2 : list Z) (w : World) :
  after_attempts rqs2 ds2 (after_attempts rqs1 ds1 w)
  = after_attempts (rqs1 ++ rqs2) (ds1 ++ ds2) w.
Proof. unfold after_attempts; simpl. by rewrite !app_assoc. Qed.

(** ** Backoff *)

Lemma backoffDelay_le_max (n : nat) : backoffDelay n <= maxDelay.
Proof. unfold backoffDelay, maxDelay. apply Z.le_min_r. Qed.

Lemma backoffDelay_mono (n1 n2 : nat) :
  (n1 <= n2)%nat -> backoffDelay n1 <= backoffDelay n2.
Proof.
  intros Hle. unfold backoffDelay.
  apply Z.min_le_compat_r, Z.mul_le_mono_nonneg_l; [lia |].
  apply Z.pow_le_mono_r; lia.
Qed.

(** ** One attempt of [fetchWithRetry] *)

Section Attempt.
Variables (url : string) (options_headers : gmap string string) (retries : Z).
Variables (env : Env) (w : World).

Let rq := request_of url options_headers.
Let outcome := network env (length (requests w)) rq.

(** A success or a client error is returned at once. *)
Lemma attempt_body_returns (attempt : nat) (r : Response) :
  outcome = Responded r ->
  ok r || ((400 <=? status r) && (status r <? 500)) = true ->
  attempt_body url options_headers retries attempt env w
  = (Returned (Return r), after_attempts [rq] [] w).
Proof.
  subst outcome rq. unfold request_of. intros Hnet Hret.
  unfold attempt_body. unfold_monad. rewrite Hnet, Hret.
  unfold after_attempts. by rewrite app_nil_r.
Qed.

(** A server error with an attempt left: sleep, then continue. *)
Lemma attempt_body_server_error_retries (attempt : nat) (r : Response) :
  outcome = Responded r ->
  500 <= status r ->
  Z.of_nat attempt < retries ->
  attempt_body url options_headers retries attempt env w
  = (Returned Continue, after_attempts [rq] [backoffDelay attempt] w).
Proof.
  subst outcome rq. unfold request_of. intros Hnet Hst Hlt.
  unfold attempt_body. unfold_monad. rewrite Hnet. unfold ok.
  repeat match goal with |- context [?a <=? ?b] => destruct (Z.leb_spec a b); try lia end.
  repeat match goal with |- context [?a <? ?b] => destruct (Z.ltb_spec a b); try lia end.
  all: simpl; try done.
Qed.

(** A server error on the last attempt is returned. *)
Lemma attempt_body_server_error_last (attempt : nat) (r : Response) :
  outcome = Responded r ->
  500 <= status r ->
  retries <= Z.of_nat attempt ->
  attempt_body url options_headers retries attempt env w
  = (Returned (Return r), after_attempts [rq] [] w).
Proof.
  subst outcome rq. unfold request_of. intros Hnet Hst Hlt.
  unfold attempt_body. unfold_monad. rewrite Hnet. unfold ok.
  repeat match goal with |- context [?a <=? ?b] => destruct (Z.leb_spec a b); try lia end.
  repeat match goal with |- context [?a <? ?b] => destruct (Z.ltb_spec a b); try lia end.
  all: simpl; unfold after_attempts; by rewrite app_nil_r.
Qed.

(** Whatever the outcome, an attempt that continues has slept for the
    backoff delay of its index, and no attempt touches the cache, the
    clock or the random source. *)
Lemma attempt_body_frame (attempt : nat) (res : Res Step) (w' : World) :
  attempt_body url options_headers retries attempt env w = (res, w') ->
  cache w' = cache w /\ clock_reads w' = clock_reads w
  /\ random_draws w' = random_draws w
  /\ requests w' = requests w ++ [rq]
  /\ (res = Returned Continue -> sleeps w' = sleeps w ++ [backoffDelay attempt])
  /\ (res <> Returned Continue -> sleeps w' = sleeps w).
Proof.
  subst rq. unfold request_of, attempt_body. unfold_monad.
  destruct (network env _ _) as [e | r]; simpl.
  - destruct (_ <? _); intros [= <- <-]; simpl; repeat split; done.
  - destruct (ok r || _); [intros [= <- <-]; simpl; repeat split; done |].
    destruct (_ && _); intros [= <- <-]; simpl; repeat split; done.
Qed.
End Attempt.

(** ** The retry loop *)

Section Retry.
Variables (url : string) (options_headers : gmap string string) (retries : Z).
Variable env : Env.

Let rq := request_of url options_headers.

(** The loop never touches the cache, the clock or the random source. *)
Lemma retry_loop_frame (iterations attempt : nat) (w w' : World) (res : Res Response) :
  retry_loop iterations url options_headers retries attempt env w = (res, w') ->
  cache w' = cache w /\ clock_reads w' = clock_reads w
  /\ random_draws w' = random_draws w
  /\ (length (requests w) <= length (requests w'))%nat.
Proof.
  revert attempt w. induction iterations as [| iterations IH]; intros attempt w; simpl.
  - unfold throw. by intros [= <- <-].
  - unfold bind at 1.
    destruct (attempt_body _ _ _ _ _ _) as [res0 w0] eqn:Hbody.
    apply attempt_body_frame in Hbody as (Hc & Hk & Hr & Hq & _).
    assert (length (requests w) <= length (requests w0))%nat as Hlen
      by (rewrite Hq, length_app; lia).
    destruct res0 as [[r |] | e].
    + unfold ret. intros [= <- <-]. done.
    + intros Hrun. apply IH in Hrun as (-> & -> & -> & ?). repeat split; [done .. | lia].
    + intros [= <- <-]. done.
Qed.

(** With at least one iteration admitted, an outcome that is returned at
    once ends the loop after a single request and no sleep. *)
Lemma retry_loop_returns_at_once (iterations attempt : nat) (w : World) (r : Response) :
  network env (length (requests w)) rq = Responded r ->
  ok r || ((400 <=? status r) && (status r <? 500)) = true ->
  retry_loop (S iterations) url options_headers retries attempt env w
  = (Returned r, after_attempts [rq] [] w).
Proof.
  intros Hnet Hret. simpl. unfold bind.
  by rewrite (attempt_body_returns _ _ _ _ _ _ r Hnet Hret).
Qed.

(** Server errors on every attempt: the loop uses up every iteration,
    sleeping for the backoff delay between two attempts, and returns the
    response of the last one. *)
Lemma retry_loop_server_errors (iterations attempt : nat) (w : World) :
  Z.of_nat attempt + Z.of_nat iterations = retries ->
  (forall k, (length (requests w) <= k)%nat ->
     exists r, network env k rq = Responded r /\ 500 <= status r) ->
  exists r,
    network env (length (requests w) + iterations) rq = Responded r
    /\ retry_loop (S iterations) url options_headers retries attempt env w
       = (Returned r,
          after_attempts (replicate (S iterations) rq)
                         (backoffDelay <$> seq attempt iterations) w).
Proof.
  revert attempt w. induction iterations as [| iterations IH]; intros attempt w Hiterations Hnet.
  - destruct (Hnet (length (requests w))) as (r & Hr & Hst); [lia |].
    exists r. split; [by rewrite Nat.add_0_r |].
    simpl. unfold bind.
    rewrite (attempt_body_server_error_last _ _ _ _ _ _ r Hr Hst); [done | lia].
  - destruct (Hnet (length (requests w))) as (r0 & Hr0 & Hst0); [lia |].
    remember (S iterations) as iterations1 eqn:Hiterations1.
    cbn [retry_loop]. unfold bind at 1.
    rewrite (attempt_body_server_error_retries _ _ _ _ _ _ r0 Hr0 Hst0); [| lia].
    subst iterations1.
    destruct (IH (S attempt) (after_attempts [rq] [backoffDelay attempt] w))
      as (r & Hr & Hrun); [lia | |].
    { intros k Hk. apply Hnet. simpl in Hk. rewrite length_app in Hk. simpl in Hk. lia. }
    exists r. split.
    + rewrite <- Hr. simpl. rewrite length_app. simpl. f_equal. lia.
    + fold rq. rewrite Hrun, after_attempts_compose. done.
Qed.
End Retry.

(** ** The claims on the Fetch Client *)

(** C8. At attempt index [n] the retry delay is
    [min (baseDelay * 2^n) maxDelay] with [baseDelay = 1000] and
    [maxDelay = 10000]; it never exceeds [maxDelay], it does not decrease
    with the index, and it is the delay an attempt of [fetchWithRetry]
    sleeps for before the loop continues. *)
Theorem backoff_schedule (n : nat) :
  backoffDelay n = Z.min (baseDelay * 2 ^ Z.of_nat n) maxDelay
  /\ baseDelay = 1000 /\ maxDelay = 10000
  /\ backoffDelay n <= maxDelay
  /\ (forall n2 : nat, (n < n2)%nat -> backoffDelay n <= backoffDelay n2)
  /\ (forall url options_headers retries env w w',
        attempt_body url options_headers retries n env w = (Returned Continue, w') ->
        sleeps w' = sleeps w ++ [backoffDelay n]).
Proof.
  split; [reflexivity |]. split; [reflexivity |]. split; [reflexivity |].
  split; [apply backoffDelay_le_max |]. split.
  - intros n2 Hlt. apply backoffDelay_mono. lia.
  - intros url options_headers retries env w w' Hbody.
    apply attempt_body_frame in Hbody as (_ & _ & _ & _ & Hsleep & _). by apply Hsleep.
Qed.

(** C5. With a retry count [retries >= 0]: when every attempt is answered
    with status 503, [fetchWithRetry] makes exactly [retries + 1] attempts,
    sleeping for the backoff delay between two of them, and returns the
    response of the last attempt; when the response has status 404, it
    makes exactly one attempt and returns that response. *)
Theorem retry_boundaries (env : Env) (w : World) (url : string)
    (options_headers : gmap string string) (retries : Z) :
  0 <= retries ->
  ((forall k, (length (requests w) <= k)%nat ->
      exists r, network env k (request_of url options_headers) = Responded r
                /\ status r = 503) ->
   exists r w',
     fetchWithRetry url options_headers retries env w = (Returned r, w')
     /\ attempts_made w w' = Z.to_nat (retries + 1)
     /\ requests w' = requests w
          ++ replicate (Z.to_nat (retries + 1)) (request_of url options_headers)
     /\ network env (length (requests w) + Z.to_nat retries)
          (request_of url options_headers) = Responded r
     /\ status r = 503
     /\ sleeps w' = sleeps w ++ (backoffDelay <$> seq 0 (Z.to_nat retries)))
  /\ (forall r,
       network env (length (requests w)) (request_of url options_headers) = Responded r ->
       status r = 404 ->
       exists w',
         fetchWithRetry url options_headers retries env w = (Returned r, w')
         /\ attempts_made w w' = 1%nat
         /\ requests w' = requests w ++ [request_of url options_headers]
         /\ sleeps w' = sleeps w).
Proof.
  intros Hretries. unfold fetchWithRetry.
  replace (Z.to_nat (retries + 1)) with (S (Z.to_nat retries)) by lia.
  split.
  - intros Hnet.
    destruct (retry_loop_server_errors url options_headers retries env
                (Z.to_nat retries) 0 w) as (r & Hlast & Hrun).
    + lia.
    + intros k Hk. destruct (Hnet k Hk) as (r & Hr & Hst). exists r. split; [done | lia].
    + exists r, (after_attempts (replicate (S (Z.to_nat retries)) (request_of url options_headers))
                   (backoffDelay <$> seq 0 (Z.to_nat retries)) w).
      split; [exact Hrun |]. split.
      { unfold attempts_made, after_attempts. simpl.
        rewrite length_app. simpl. rewrite length_replicate. lia. }
      split; [done |]. split; [exact Hlast |]. split; [| done].
      destruct (Hnet (length (requests w) + Z.to_nat retries)%nat) as (r' & Hr' & Hst'); [lia |].
      congruence.
  - intros r Hnet Hst.
    exists (after_attempts [request_of url options_headers] [] w).
    rewrite (retry_loop_returns_at_once _ _ _ _ _ _ _ r Hnet).
    + unfold attempts_made, after_attempts. simpl. rewrite length_app, app_nil_r. simpl.
      repeat split; [lia | done ..].
    + rewrite Hst. apply orb_true_r.
Qed.

(** C1, what the code does.  A response with status 429 satisfies the
    client-error test [status >= 400 && status < 500], which comes first:
    [fetchWithRetry] returns it after a single attempt and without
    sleeping, also when attempts remain.  The retry branch that names 429
    is never reached with that status. *)
Theorem rate_limit_returned_at_once (env : Env) (w : World) (url : string)
    (options_headers : gmap string string) (retries : Z) (r : Response) :
  0 < retries ->
  network env (length (requests w)) (request_of url options_headers) = Responded r ->
  status r = 429 ->
  fetchWithRetry url options_headers retries env w
  = (Returned r, after_attempts [request_of url options_headers] [] w).
Proof.
  intros Hretries Hnet Hst. unfold fetchWithRetry.
  replace (Z.to_nat (retries + 1)) with (S (Z.to_nat retries)) by lia.
  apply retry_loop_returns_at_once; [done |].
  rewrite Hst. apply orb_true_r.
Qed.

Lemma backoff_schedule_witness :
  (1 < 5)%nat /\ backoffDelay 1 <= backoffDelay 5
  /\ sleeps (attempt_body "u" ∅ 3 1 (sample_env 503 None 0) fresh_world).2 = [2000].
Proof.
  split; [lia |].
  destruct (backoff_schedule 1) as (_ & _ & _ & _ & Hmono & Hsleep).
  split; [apply Hmono; lia |].
  apply (Hsleep "u" ∅ 3 (sample_env 503 None 0) fresh_world). reflexivity.
Defined.

Lemma retry_boundaries_witness :
  0 <= 3
  /\ (exists r w',
        fetchWithRetry "u" ∅ 3 (sample_env 503 None 0) fresh_world = (Returned r, w')
        /\ attempts_made fresh_world w' = 4%nat /\ status r = 503
        /\ sleeps w' = [1000; 2000; 4000])
  /\ (exists w',
        fetchWithRetry "u" ∅ 3 (sample_env 404 None 0) fresh_world
        = (Returned (mkResponse 404 None), w')
        /\ attempts_made fresh_world w' = 1%nat).
Proof.
  split; [lia |]. split.
  - destruct (retry_boundaries (sample_env 503 None 0) fresh_world "u" ∅ 3) as [H503 _]; [lia |].
    destruct H503 as (r & w' & Hrun & Hn & _ & _ & Hst & Hsl).
    + intros k _. exists (mkResponse 503 None). split; reflexivity.
    + exists r, w'. repeat split; assumption.
  - destruct (retry_boundaries (sample_env 404 None 0) fresh_world "u" ∅ 3) as [_ H404]; [lia |].
    destruct (H404 (mkResponse 404 None)) as (w' & Hrun & Hn & _); [reflexivity .. |].
    exists w'. split; assumption.
Defined.

Lemma rate_limit_returned_at_once_witness :
  0 < 3
  /\ fetchWithRetry "u" ∅ 3 (sample_env 429 None 0) fresh_world
     = (Returned (mkResponse 429 None), after_attempts [request_of "u" ∅] [] fresh_world).
Proof.
  split; [lia |].
  apply (rate_limit_returned_at_once (sample_env 429 None 0) fresh_world "u" ∅ 3);
    [lia | reflexivity | reflexivity].
Defined.

(** ** The claims on the TTL cache *)

Lemma getCachedData_absent (env : Env) (w : World) (key : string) :
  cache w !! key = None ->
  getCachedData key env w = (Returned VNull, w).
Proof.
  intros Hnone. unfold getCachedData. unfold_monad. rewrite Hnone. simpl.
  rewrite delete_id by done. by rewrite world_eta.
Qed.

(** C4. For an entry stored under [key]: a [getCachedData] whose clock
    reading is strictly before [timestamp + ttl] returns the stored data
    and leaves the cache as it is; one at or after that instant returns
    [null] and deletes the entry.  While the key is absent every get
    returns [null] and changes nothing; [setCachedData] stores the value
    with the time of the call and the lifetime given. *)
Theorem ttl_correctness (env : Env) (w : World) (key : string) (entry : CacheEntry) :
  cache w !! key = Some entry ->
  (clock env (clock_reads w) < timestamp entry + ttl entry ->
   getCachedData key env w = (Returned (data entry), after_clock_read w))
  /\ (timestamp entry + ttl entry <= clock env (clock_reads w) ->
      exists w',
        getCachedData key env w = (Returned VNull, w')
        /\ cache w' = delete key (cache w)
        /\ cache w' !! key = None
        /\ (forall env2 w2, cache w2 = cache w' ->
              getCachedData key env2 w2 = (Returned VNull, w2))
        /\ (forall env2 w2 v life, cache w2 = cache w' ->
              exists w3,
                setCachedData key v life env2 w2 = (Returned tt, w3)
                /\ cache w3 !! key
                   = Some (mkEntry v (clock env2 (clock_reads w2)) life))).
Proof.
  intros Hkey. split.
  - intros Hfresh. unfold getCachedData. unfold_monad. rewrite Hkey. simpl.
    destruct (Z.ltb_spec (clock env (clock_reads w) - timestamp entry) (ttl entry)); [done | lia].
  - intros Hstale.
    exists (set_cache (delete key) (after_clock_read w)).
    split.
    { unfold getCachedData. unfold_monad. rewrite Hkey. simpl.
      destruct (Z.ltb_spec (clock env (clock_reads w) - timestamp entry) (ttl entry)); [lia | done]. }
    split; [done |]. split; [apply lookup_delete_eq |]. split.
    + intros env2 w2 Hc. apply getCachedData_absent. rewrite Hc. apply lookup_delete_eq.
    + intros env2 w2 v life Hc. unfold setCachedData. unfold_monad. simpl.
      eexists. split; [reflexivity |]. simpl. apply lookup_insert_eq.
Qed.

Lemma ttl_correctness_witness :
  (getCachedData "k" (sample_env 200 None 30999) (world_with "k" (VStr "v") 1000 30000)
   = (Returned (VStr "v"), after_clock_read (world_with "k" (VStr "v") 1000 30000)))
  /\ (exists w',
        getCachedData "k" (sample_env 200 None 31000) (world_with "k" (VStr "v") 1000 30000)
        = (Returned VNull, w')
        /\ cache w' !! "k" = None).
Proof.
  split.
  - apply (ttl_correctness (sample_env 200 None 30999) (world_with "k" (VStr "v") 1000 30000)
             "k" (mkEntry (VStr "v") 1000 30000)).
    + apply lookup_singleton_eq.
    + simpl. lia.
  - destruct (ttl_correctness (sample_env 200 None 31000) (world_with "k" (VStr "v") 1000 30000)
                "k" (mkEntry (VStr "v") 1000 30000)) as [_ Hstale].
    + apply lookup_singleton_eq.
    + destruct Hstale as (w' & Hrun & _ & Hnone & _); [simpl; lia |].
      exists w'. split; assumption.
Defined.

(** ** The claims on the prediction heuristic *)

Section Prediction.
Local Open Scope Q_scope.

Lemma gt_true (a b : Q) : gt a b = true <-> b < a.
Proof.
  unfold gt. rewrite negb_true_iff, <- not_true_iff_false, Qle_bool_iff.
  split; [apply Qnot_le_lt | apply Qlt_not_le].
Qed.

Lemma lt_true (a b : Q) : lt a b = true <-> a < b.
Proof. unfold lt. apply gt_true. Qed.

Lemma clamp_bounds (x : Q) : 0.5 <= Qmax 0.5 (Qmin 0.95 x) <= 0.95.
Proof.
  split; [apply Q.le_max_l |].
  apply Q.max_lub; [lra | apply Q.le_min_l].
Qed.

(** What [generatePrediction] returns, term by term. *)
Lemma generatePrediction_run (env : Env) (w : World) (crypto : CryptoCurrency) :
  let r1 := random env (random_draws w) in
  let r2 := random env (S (random_draws w)) in
  let predicted :=
    current_price crypto
    * (1 + (r1 * 0.2 - 0.1) + trendFactor crypto + marketCapFactor crypto) in
  generatePrediction crypto env w
  = (Returned
       (mkPrediction
          (toUpperCase env (symbol crypto))
          predicted
          (Qmax 0.5 (Qmin 0.95
             (baseConfidence + priceStability crypto + marketCapStability crypto
              + r2 * 0.2)))
          (if gt predicted (current_price crypto * 1.03) then bullish
           else if lt predicted (current_price crypto * 0.97) then bearish
           else neutral)
          "24h"),
     after_two_draws w).
Proof. reflexivity. Qed.

(** How the label of [generatePrediction] relates to the two thresholds. *)
Lemma label_thresholds (price predicted : Q) :
  let label :=
    if gt predicted (price * 1.03) then bullish
    else if lt predicted (price * 0.97) then bearish
    else neutral in
  (label = bullish <-> price * 1.03 < predicted)
  /\ (label = bearish <-> ~ price * 1.03 < predicted /\ predicted < price * 0.97)
  /\ (label = neutral <-> ~ price * 1.03 < predicted /\ ~ predicted < price * 0.97)
  /\ (0 <= price -> (label = bearish <-> predicted < price * 0.97)).
Proof.
  simpl. destruct (gt predicted (price * 1.03)) eqn:Hgt.
  - apply gt_true in Hgt. intuition (try discriminate; try lra).
  - assert (~ price * 1.03 < predicted) as Hn
      by (rewrite <- gt_true, Hgt; discriminate).
    destruct (lt predicted (price * 0.97)) eqn:Hlt.
    + apply lt_true in Hlt. intuition (try discriminate; try lra).
    + assert (~ predicted < price * 0.97) as Hm
        by (rewrite <- lt_true, Hlt; discriminate).
      intuition (try discriminate; try lra).
Qed.

(** C7, as the code has it.  For every snapshot [generatePrediction]
    returns [predicted = current_price * (1 + volatility + trend term + rank adjustment)],
    where the volatility is [random * 0.2 - 0.1], the trend term is [0.05]
    for a positive 24h change and [-0.05] otherwise, and the rank
    adjustment is [0.02] for a rank of at most 10 and [-0.02] otherwise,
    and a confidence in [[0.5, 0.95]].  The label is bullish exactly when
    [predicted > current_price * 1.03], bearish exactly when it is not
    bullish and [predicted < current_price * 0.97], neutral exactly when
    neither threshold is passed.  For a snapshot whose price is not
    negative the two thresholds exclude each other and the label is
    bearish exactly when [predicted < current_price * 0.97]. *)
Theorem prediction_bounds (env : Env) (w : World) (crypto : CryptoCurrency) :
  exists p trend_term rank_term,
    generatePrediction crypto env w = (Returned p, after_two_draws w)
    /\ prediction p
       = current_price crypto
         * (1 + (random env (random_draws w) * 0.2 - 0.1) + trend_term + rank_term)
    /\ (0 < to_number (price_change_percentage_24h crypto) -> trend_term = 0.05)
    /\ (~ 0 < to_number (price_change_percentage_24h crypto) -> trend_term = -0.05)
    /\ (market_cap_rank crypto <= 10 -> rank_term = 0.02)
    /\ (~ market_cap_rank crypto <= 10 -> rank_term = -0.02)
    /\ 0.5 <= confidence p <= 0.95
    /\ (trend p = bullish <-> current_price crypto * 1.03 < prediction p)
    /\ (trend p = bearish <->
          ~ current_price crypto * 1.03 < prediction p
          /\ prediction p < current_price crypto * 0.97)
    /\ (trend p = neutral <->
          ~ current_price crypto * 1.03 < prediction p
          /\ ~ prediction p < current_price crypto * 0.97)
    /\ (0 <= current_price crypto ->
        (trend p = bearish <-> prediction p < current_price crypto * 0.97)).
Proof.
  eexists. exists (trendFactor crypto), (marketCapFactor crypto).
  split; [apply generatePrediction_run |].
  cbn [prediction confidence trend].
  split; [reflexivity |].
  pose proof (gt_true (to_number (price_change_percentage_24h crypto)) 0) as Hrise.
  pose proof (Qle_bool_iff (market_cap_rank crypto) 10) as Hrank.
  unfold trendFactor at 1 2, marketCapFactor at 1 2.
  split; [intros H; apply Hrise in H; by rewrite H |].
  split; [intros H; destruct (gt _ 0); [exfalso; apply H; by apply Hrise | reflexivity] |].
  split; [intros H; apply Hrank in H; by rewrite H |].
  split; [intros H; destruct (Qle_bool _ 10);
          [exfalso; apply H; by apply Hrank | reflexivity] |].
  split; [apply clamp_bounds |].
  apply label_thresholds.
Qed.

(** C7 as stated fails for a negative price: at [current_price = -100],
    with a draw of 0.55, a falling coin of rank 1 is predicted at [-98],
    below [current_price * 0.97 = -97], and labelled bullish, not
    bearish, since [-98] also exceeds [current_price * 1.03 = -103]. *)
Lemma negative_price_counterexample :
  exists p,
    generatePrediction (sample_snapshot (-100) (Some (-2)) 847000000000 1)
                       (drawing_env (11 # 20)) fresh_world
    = (Returned p, after_two_draws fresh_world)
    /\ prediction p == -98
    /\ prediction p < -100 * 0.97
    /\ -100 * 1.03 < prediction p
    /\ trend p = bullish
    /\ trend p <> bearish.
Proof.
  eexists. split; [apply generatePrediction_run |].
  cbn [prediction trend]. repeat split; try reflexivity. discriminate.
Qed.

Lemma prediction_bounds_witness :
  0 <= 43250
  /\ exists p,
       generatePrediction (sample_snapshot 43250 (Some (-2)) 847000000000 50)
         (sample_env 200 None 0) fresh_world
       = (Returned p, after_two_draws fresh_world)
       /\ trend p = bearish
       /\ prediction p < 43250 * 0.97.
Proof.
  split; [lra |].
  destruct (prediction_bounds (sample_env 200 None 0) fresh_world
              (sample_snapshot 43250 (Some (-2)) 847000000000 50))
    as (p & trend_term & rank_term & Hrun & Hpred & _ & _ & _ & _ & _ & _ & _ & _ & Hbear).
  exists p. split; [exact Hrun |].
  assert (trend p = bearish) as Hlabel.
  { rewrite generatePrediction_run in Hrun. injection Hrun as <-. reflexivity. }
  split; [exact Hlabel |].
  apply Hbear; [simpl; lra | exact Hlabel].
Defined.

(** C10. On a snapshot whose 24h change is [null], [generatePrediction]
    returns as on the same snapshot with a change of [0]: the trend term
    is [-0.05], the volatility test [|change| < 5] holds and adds [0.1]
    to the confidence, which stays in [[0.5, 0.95]]; the label obeys the
    thresholds as for any other snapshot. *)
Theorem null_change_prediction (env : Env) (w : World) (crypto : CryptoCurrency) :
  price_change_percentage_24h crypto = None ->
  trendFactor crypto = -0.05
  /\ priceStability crypto = 0.1
  /\ generatePrediction crypto env w
     = generatePrediction (with_change_24h crypto (Some 0)) env w
  /\ exists p,
       generatePrediction crypto env w = (Returned p, after_two_draws w)
       /\ prediction p
          = current_price crypto
            * (1 + (random env (random_draws w) * 0.2 - 0.1)
               + -0.05 + marketCapFactor crypto)
       /\ confidence p
          = Qmax 0.5 (Qmin 0.95
              (0.7 + 0.1 + marketCapStability crypto
               + random env (S (random_draws w)) * 0.2))
       /\ 0.5 <= confidence p <= 0.95
       /\ (trend p = bullish <-> current_price crypto * 1.03 < prediction p)
       /\ (trend p = bearish <->
             ~ current_price crypto * 1.03 < prediction p
             /\ prediction p < current_price crypto * 0.97)
       /\ (trend p = neutral <->
             ~ current_price crypto * 1.03 < prediction p
             /\ ~ prediction p < current_price crypto * 0.97)
       /\ (0 <= current_price crypto ->
           (trend p = bearish <-> prediction p < current_price crypto * 0.97)).
Proof.
  intros Hnull.
  assert (trendFactor crypto = -0.05) as Htrend
    by (unfold trendFactor; rewrite Hnull; reflexivity).
  assert (priceStability crypto = 0.1) as Hstab
    by (unfold priceStability, Math_abs; rewrite Hnull; reflexivity).
  split; [exact Htrend |]. split; [exact Hstab |]. split.
  - rewrite !generatePrediction_run.
    unfold trendFactor, priceStability, Math_abs, marketCapFactor, marketCapStability.
    rewrite Hnull. reflexivity.
  - eexists. split; [apply generatePrediction_run |].
    cbn [prediction confidence trend].
    split; [by rewrite Htrend |].
    split; [by rewrite Hstab |].
    split; [apply clamp_bounds |].
    apply label_thresholds.
Qed.

Lemma null_change_prediction_witness :
  price_change_percentage_24h (sample_snapshot 43250 None 847000000000 1) = None
  /\ trendFactor (sample_snapshot 43250 None 847000000000 1) = -0.05
  /\ priceStability (sample_snapshot 43250 None 847000000000 1) = 0.1.
Proof.
  split; [reflexivity |].
  destruct (null_change_prediction (sample_env 200 None 0) fresh_world
              (sample_snapshot 43250 None 847000000000 1))
    as (Htrend & Hstab & _); [reflexivity |].
  split; assumption.
Defined.
End Prediction.

(** ** Frames: what a computation leaves alone *)

Section Frames.
Context {X : Type} (f : World -> X).

Lemma preserves_ret {A} (a : A) : preserves f (ret a).
Proof. intros env w res w'. unfold ret. by intros [= <- <-]. Qed.

Lemma preserves_throw {A} (e : Error) : preserves f (throw e : M A).
Proof. intros env w res w'. unfold throw. by intros [= <- <-]. Qed.

Lemma preserves_ask {A} (g : Env -> A) : preserves f (ask g).
Proof. intros env w res w'. unfold ask. by intros [= <- <-]. Qed.

Lemma preserves_bind {A B} (c : M A) (k : A -> M B) :
  preserves f c -> (forall a, preserves f (k a)) -> preserves f (bind c k).
Proof.
  intros Hc Hk env w res w'. unfold bind.
  destruct (c env w) as [[a | e] w0] eqn:Hrun.
  - intros Hrest. rewrite (Hk a _ _ _ _ Hrest). eapply Hc, Hrun.
  - intros [= <- <-]. eapply Hc, Hrun.
Qed.

Lemma preserves_try_catch {A} (c : M A) (h : Error -> M A) :
  preserves f c -> (forall e, preserves f (h e)) -> preserves f (try_catch c h).
Proof.
  intros Hc Hh env w res w'. unfold try_catch.
  destruct (c env w) as [[a | e] w0] eqn:Hrun.
  - intros [= <- <-]. eapply Hc, Hrun.
  - intros Hrest. rewrite (Hh e _ _ _ _ Hrest). eapply Hc, Hrun.
Qed.

Lemma preserves_mapM {A B} (g : A -> M B) (l : list A) :
  (forall a, preserves f (g a)) -> preserves f (mapM g l).
Proof.
  intros Hg. induction l as [| a l IH]; simpl.
  - apply preserves_ret.
  - apply preserves_bind; [apply Hg | intros b].
    apply preserves_bind; [apply IH | intros bs]. apply preserves_ret.
Qed.

Lemma preserves_mapiM_from {A B} (g : A -> nat -> M B) (l : list A) (i : nat) :
  (forall a j, preserves f (g a j)) -> preserves f (mapiM_from i g l).
Proof.
  intros Hg. revert i. induction l as [| a l IH]; intros i; simpl.
  - apply preserves_ret.
  - apply preserves_bind; [apply Hg | intros b].
    apply preserves_bind; [apply IH | intros bs]. apply preserves_ret.
Qed.
End Frames.

Lemma always_returns_ret {A} (a : A) : always_returns (ret a).
Proof. intros env w. by exists a, w. Qed.

Lemma always_returns_ask {A} (g : Env -> A) : always_returns (ask g).
Proof. intros env w. by exists (g env), w. Qed.

Lemma always_returns_bind {A B} (c : M A) (k : A -> M B) :
  always_returns c -> (forall a, always_returns (k a)) -> always_returns (bind c k).
Proof.
  intros Hc Hk env w. destruct (Hc env w) as (a & w0 & Hrun).
  destruct (Hk a env w0) as (b & w1 & Hrest).
  exists b, w1. unfold bind. by rewrite Hrun.
Qed.

Lemma always_returns_try_catch {A} (c : M A) (h : Error -> M A) :
  (forall e, always_returns (h e)) -> always_returns (try_catch c h).
Proof.
  intros Hh env w. unfold try_catch.
  destruct (c env w) as [[a | e] w0]; [by exists a, w0 | apply Hh].
Qed.

Lemma always_returns_mapM {A B} (g : A -> M B) (l : list A) :
  (forall a, always_returns (g a)) -> always_returns (mapM g l).
Proof.
  intros Hg. induction l as [| a l IH]; simpl.
  - apply always_returns_ret.
  - apply always_returns_bind; [apply Hg | intros b].
    apply always_returns_bind; [apply IH | intros bs]. apply always_returns_ret.
Qed.

Lemma always_returns_Date_now : always_returns Date_now.
Proof. intros env w. unfold Date_now. by eexists _, _. Qed.

Lemma always_returns_Math_random : always_returns Math_random.
Proof. intros env w. unfold Math_random. by eexists _, _. Qed.

Lemma preserves_cache_Date_now : preserves cache Date_now.
Proof. intros env w res w'. unfold Date_now. by intros [= <- <-]. Qed.

Lemma preserves_cache_Math_random : preserves cache Math_random.
Proof. intros env w res w'. unfold Math_random. by intros [= <- <-]. Qed.

Lemma preserves_requests_Date_now : preserves requests Date_now.
Proof. intros env w res w'. unfold Date_now. by intros [= <- <-]. Qed.

Lemma preserves_requests_Math_random : preserves requests Math_random.
Proof. intros env w res w'. unfold Math_random. by intros [= <- <-]. Qed.

Lemma preserves_requests_cache_set (key : string) (entry : CacheEntry) :
  preserves requests (cache_set key entry).
Proof. intros env w res w'. unfold cache_set. by intros [= <- <-]. Qed.

Lemma preserves_requests_cache_delete (key : string) :
  preserves requests (cache_delete key).
Proof. intros env w res w'. unfold cache_delete. by intros [= <- <-]. Qed.

Lemma preserves_requests_cache_get (key : string) :
  preserves requests (cache_get key).
Proof. intros env w res w'. unfold cache_get. by intros [= <- <-]. Qed.

Create HintDb frame.
#[local] Hint Resolve preserves_ret preserves_throw preserves_ask
  preserves_cache_Date_now preserves_cache_Math_random
  preserves_requests_Date_now preserves_requests_Math_random
  preserves_requests_cache_set preserves_requests_cache_delete
  preserves_requests_cache_get
  always_returns_ret always_returns_ask always_returns_Date_now
  always_returns_Math_random : frame.

(** Walks through a computation written with [bind], [if] and [match]. *)
Ltac frame_step :=
  match goal with
  | |- preserves _ (bind _ _) => apply preserves_bind; [| intros ?]
  | |- preserves _ (try_catch _ _) => apply preserves_try_catch; [| intros ?]
  | |- preserves _ (mapM _ _) => apply preserves_mapM; intros ?
  | |- preserves _ (mapiM_from _ _ _) => apply preserves_mapiM_from; intros ? ?
  | |- always_returns (bind _ _) => apply always_returns_bind; [| intros ?]
  | |- always_returns (try_catch _ _) => apply always_returns_try_catch; intros ?
  | |- always_returns (mapM _ _) => apply always_returns_mapM; intros ?
  | |- preserves _ (if ?b then _ else _) => destruct b
  | |- always_returns (if ?b then _ else _) => destruct b
  | |- preserves _ (match ?x with _ => _ end) => destruct x
  | |- always_returns (match ?x with _ => _ end) => destruct x
  | |- _ => solve [auto with frame]
  end.

Ltac frame := repeat frame_step.

Lemma preserves_requests_getCachedData (key : string) :
  preserves requests (getCachedData key).
Proof. unfold getCachedData. frame. Qed.

Lemma preserves_requests_setCachedData (key : string) (d : Value) (life : Z) :
  preserves requests (setCachedData key d life).
Proof. unfold setCachedData. frame. Qed.

Lemma now_iso_frames :
  preserves cache now_iso /\ preserves requests now_iso /\ always_returns now_iso.
Proof. unfold now_iso. repeat split; frame. Qed.

#[local] Hint Resolve preserves_requests_getCachedData preserves_requests_setCachedData : frame.
#[local] Hint Extern 1 (preserves cache now_iso) => apply now_iso_frames : frame.
#[local] Hint Extern 1 (preserves requests now_iso) => apply now_iso_frames : frame.
#[local] Hint Extern 1 (always_returns now_iso) => apply now_iso_frames : frame.

Lemma chart_loop_frames (now : Z) (points : nat) (interval : Z) (remaining i : nat) :
  preserves cache (chart_loop now points interval remaining i)
  /\ preserves requests (chart_loop now points interval remaining i)
  /\ always_returns (chart_loop now points interval remaining i).
Proof.
  revert i. induction remaining as [| remaining IH]; intros i; simpl.
  - repeat split; frame.
  - destruct (IH (S i)) as (Hc & Hr & Ha). repeat split; frame; assumption.
Qed.

Lemma candle_loop_frames (now : Z) (points : nat) (interval : Z) (remaining i : nat)
    (lastClose : Q) :
  preserves cache (candle_loop now points interval remaining i lastClose)
  /\ preserves requests (candle_loop now points interval remaining i lastClose)
  /\ always_returns (candle_loop now points interval remaining i lastClose).
Proof.
  revert i lastClose. induction remaining as [| remaining IH]; intros i lastClose; simpl.
  - repeat split; frame.
  - repeat split; frame; apply IH.
Qed.

Lemma mock_currency_frames (id : string) :
  preserves cache (mock_currency id) /\ preserves requests (mock_currency id)
  /\ always_returns (mock_currency id).
Proof. unfold mock_currency. repeat split; frame. Qed.

Lemma generateMockData_frames (ids : list string) :
  preserves cache (generateMockData ids) /\ preserves requests (generateMockData ids)
  /\ always_returns (generateMockData ids).
Proof. unfold generateMockData. repeat split; frame; apply mock_currency_frames. Qed.

(** The generators read the clock and the random source and nothing else:
    they leave the cache and the network alone, and they never throw. *)
Lemma synthetic_frames (l : Lookup) :
  preserves cache (synthetic l) /\ preserves requests (synthetic l)
  /\ always_returns (synthetic l).
Proof.
  destruct l as [ids | id | | coinId | id timeframe comparison | id timeframe]; simpl.
  - apply generateMockData_frames.
  - unfold generateMockDetailedData. repeat split; frame; apply generateMockData_frames.
  - unfold generateMockExchanges. repeat split; frame.
  - unfold generateMockTradingPairs. repeat split; frame.
  - unfold generateMockChartData. repeat split; frame; apply chart_loop_frames.
  - unfold generateMockCandlestickData. repeat split; frame; apply candle_loop_frames.
Qed.

Lemma process_preserves_requests (l : Lookup) (payload : Value) :
  preserves requests (process l payload).
Proof.
  destruct l; simpl; unfold get_prop, array_of, price_point, parse_candle, iterate; frame.
Qed.

(** ** The template of the lookups *)

Lemma getCachedData_returns (key : string) : always_returns (getCachedData key).
Proof.
  unfold getCachedData. frame.
  - intros env w. unfold cache_get. by eexists _, _.
  - intros env w. unfold cache_delete. by eexists _, _.
  - intros env w. unfold cache_delete. by eexists _, _.
Qed.

(** A get deletes at most: every entry it leaves was there before. *)
Lemma getCachedData_shrinks (key : string) (env : Env) (w w0 : World) (res : Res Value) :
  getCachedData key env w = (res, w0) -> cache w0 ⊆ cache w.
Proof.
  unfold getCachedData. unfold_monad.
  destruct (cache w !! key) as [entry |]; simpl.
  - destruct (_ <? _); intros [= <- <-]; simpl; [done | apply delete_subseteq].
  - intros [= <- <-]. simpl. apply delete_subseteq.
Qed.

(** After a get that came back falsy, so does every later get of the key
    on that cache, at any time. *)
Lemma miss_leaves_misses (key : string) (env : Env) (w w0 : World) (c : Value) :
  getCachedData key env w = (Returned c, w0) ->
  truthy c = false ->
  misses key (cache w0).
Proof.
  unfold getCachedData, misses. unfold_monad.
  destruct (cache w !! key) as [entry |] eqn:Hkey; simpl.
  - destruct (_ <? _); intros [= <- <-]; simpl.
    + rewrite Hkey. done.
    + by rewrite lookup_delete_eq.
  - intros [= <- <-]. simpl. by rewrite lookup_delete_eq.
Qed.

Lemma misses_get (key : string) (env : Env) (w : World) :
  misses key (cache w) ->
  exists c w0,
    getCachedData key env w = (Returned c, w0)
    /\ truthy c = false /\ requests w0 = requests w.
Proof.
  unfold misses, getCachedData. unfold_monad.
  destruct (cache w !! key) as [entry |]; simpl.
  - intros Hfalsy. destruct (_ <? _); eexists _, _; (split; [reflexivity |]); done.
  - intros _. eexists _, _. split; [reflexivity |]. done.
Qed.

(** With the default retry count the Fetch Client issues at least one
    request. *)
Lemma fetchWithRetry_attempts (url : string) (options_headers : gmap string string)
    (retries : Z) (env : Env) (w w1 : World) (res : Res Response) :
  0 <= retries ->
  fetchWithRetry url options_headers retries env w = (res, w1) ->
  (1 <= attempts_made w w1)%nat /\ cache w1 = cache w.
Proof.
  intros Hretries Hrun. split; [| by apply retry_loop_frame in Hrun as (? & _)].
  revert Hrun. unfold fetchWithRetry, attempts_made.
  replace (Z.to_nat (retries + 1)) with (S (Z.to_nat retries)) by lia.
  simpl. unfold bind at 1.
  destruct (attempt_body _ _ _ _ _ _) as [res0 w0] eqn:Hbody.
  apply attempt_body_frame in Hbody as (_ & _ & _ & Hq & _).
  assert (length (requests w0) = S (length (requests w))) as Hlen
    by (rewrite Hq, length_app; simpl; lia).
  destruct res0 as [[r |] | e].
  - unfold ret. intros [= <- <-]. lia.
  - intros Hrun. apply retry_loop_frame in Hrun as (_ & _ & _ & ?). lia.
  - intros [= <- <-]. lia.
Qed.

Section Template.
Variables (key : string) (url : string -> string) (message : Error).
Variables (process : Value -> M Value) (fallback : M Value).
Variables (env : Env) (w w0 : World) (c : Value).

Hypothesis Hget : getCachedData key env w = (Returned c, w0).

(** On a hit the cached value is returned and nothing is requested. *)
Lemma template_hit :
  truthy c = true ->
  lookup_template key url message process fallback env w = (Returned c, w0).
Proof. intros Hc. unfold lookup_template, bind. rewrite Hget, Hc. reflexivity. Qed.

(** On a miss the outcome of the Fetch Client decides. *)
Lemma template_miss (res : Res Response) (w1 : World) :
  truthy c = false ->
  fetchWithRetry (url (API_BASE_URL env)) no_headers default_retries env w0 = (res, w1) ->
  lookup_template key url message process fallback env w
  = match res with
    | Thrown _ => fallback env w1
    | Returned r =>
      if ok r then
        match json_body r with
        | Some payload => try_catch (process payload) (fun _ => fallback) env w1
        | None => fallback env w1
        end
      else fallback env w1
    end.
Proof.
  intros Hc Hfetch. unfold lookup_template. unfold bind at 1. rewrite Hget, Hc.
  unfold try_catch at 1, bind at 1, ask. unfold bind at 1. rewrite Hfetch.
  destruct res as [r | e]; [| reflexivity].
  destruct (ok r); simpl; [| reflexivity].
  unfold response_json. destruct (json_body r) as [payload |]; simpl.
  - unfold bind, ret, try_catch. by destruct (process payload env w1) as [[v | e] w2].
  - reflexivity.
Qed.
End Template.

(** ** The synthetic entities are structurally valid *)

Lemma mock_currency_valid (id : string) (env : Env) (w : World) :
  inherited id = false ->
  exists e w',
    mock_currency id env w = (Returned e, w')
    /\ has_shape CryptoCurrency_shape e = true
    /\ prop e "id" = VStr id.
Proof.
  intros Hplain. unfold mock_currency, mockData_get. simpl.
  destruct (String.eqb_spec id "bitcoin") as [-> | _];
    [eexists _, _; repeat split; reflexivity |].
  destruct (String.eqb_spec id "ethereum") as [-> | _];
    [eexists _, _; repeat split; reflexivity |].
  destruct (String.eqb_spec id "solana") as [-> | _];
    [eexists _, _; repeat split; reflexivity |].
  rewrite Hplain.
  eexists _, _; repeat split; reflexivity.
Qed.

Lemma generateMockData_valid (ids : list string) (env : Env) (w : World) :
  Forall (fun id => inherited id = false) ids ->
  exists v w',
    generateMockData ids env w = (Returned v, w') /\ valid (Cryptocurrencies ids) v.
Proof.
  intros Hplain. unfold generateMockData.
  assert (exists es w', mapM mock_currency ids env w = (Returned es, w')
          /\ Forall2 (fun id e => has_shape CryptoCurrency_shape e = true
                                  /\ prop e "id" = VStr id) ids es) as (es & w' & Hrun & Hes).
  { revert w. induction Hplain as [| id ids Hid _ IH]; intros w; simpl.
    - eexists _, _. split; [reflexivity | constructor].
    - destruct (mock_currency_valid id env w Hid) as (e & w0 & Hrun & Hshape & Hprop).
      destruct (IH w0) as (es & w1 & Hrest & Hes).
      exists (e :: es), w1. split; [| by constructor].
      unfold bind at 1. rewrite Hrun. unfold bind at 1. rewrite Hrest. reflexivity. }
  exists (VArr es), w'. split; [| by exists es].
  unfold bind. rewrite Hrun. reflexivity.
Qed.

Lemma generateMockDetailedData_valid (id : string) (env : Env) (w : World) :
  inherited id = false ->
  exists v w',
    generateMockDetailedData id env w = (Returned v, w') /\ valid (DetailedCoin id) v.
Proof.
  intros Hplain. unfold generateMockDetailedData, generateMockData, mock_currency, mockData_get.
  simpl.
  destruct (String.eqb_spec id "bitcoin") as [-> | _];
    [eexists _, _; repeat split; reflexivity |].
  destruct (String.eqb_spec id "ethereum") as [-> | _];
    [eexists _, _; repeat split; reflexivity |].
  destruct (String.eqb_spec id "solana") as [-> | _];
    [eexists _, _; repeat split; reflexivity |].
  rewrite Hplain.
  eexists _, _; repeat split; reflexivity.
Qed.

Lemma chart_loop_valid (now : Z) (points : nat) (interval : Z) (env : Env)
    (remaining i : nat) (w : World) :
  exists es w',
    chart_loop now points interval remaining i env w = (Returned es, w')
    /\ length es = remaining
    /\ Forall (fun e => has_shape ChartData_shape e = true) es.
Proof.
  revert i w. induction remaining as [| remaining IH]; intros i w; simpl.
  - eexists _, _. split; [reflexivity |]. split; [reflexivity | constructor].
  - unfold_monad.
    match goal with
    | |- context [chart_loop now points interval remaining (S i) env ?w0] =>
      destruct (IH (S i) w0) as (es & w' & Hrest & Hlen & Hes)
    end.
    rewrite Hrest. eexists _, _. split; [reflexivity |].
    split; [simpl; by rewrite Hlen | by constructor].
Qed.

Section Candles.
Local Open Scope Q_scope.

(** One synthetic candle: [high] is drawn above [open], [low] below it,
    and [close] between [low] and [high]. *)
Lemma synthetic_candle_ordered (lastClose r1 r2 r3 r4 : Q) :
  0 <= r2 -> 0 <= r3 -> 0 <= r4 -> r4 < 1 ->
  let open := lastClose + (r1 - 0.5) * 100 in
  let high := open + r2 * 500 in
  let low := open - r3 * 500 in
  let close := low + r4 * (high - low) in
  ohlc_ordered open high low close.
Proof.
  intros H2 H3 H4 H4'. simpl. unfold ohlc_ordered.
  set (open := lastClose + (r1 - 0.5) * 100).
  set (span := open + r2 * 500 - (open - r3 * 500)).
  assert (0 <= span) as Hspan by (subst span; lra).
  assert (0 <= r4 * span) as Hlow by (apply Qmult_le_0_compat; assumption).
  assert (0 <= (1 - r4) * span) as Hhigh by (apply Qmult_le_0_compat; [lra | assumption]).
  repeat split; subst span; lra.
Qed.

Lemma candle_loop_valid (env : Env) (now : Z) (points : nat) (interval : Z)
    (remaining i : nat) (lastClose : Q) (w : World) :
  unit_interval env ->
  exists es w',
    candle_loop now points interval remaining i lastClose env w = (Returned es, w')
    /\ length es = remaining
    /\ Forall (fun e => has_shape CandlestickData_shape e = true
                        /\ candle_invariant e) es.
Proof.
  intros Hunit. revert i lastClose w.
  induction remaining as [| remaining IH]; intros i lastClose w; simpl.
  - eexists _, _. split; [reflexivity |]. split; [reflexivity | constructor].
  - unfold_monad.
    match goal with
    | |- context [candle_loop now points interval remaining (S i) ?cl env ?w0] =>
      destruct (IH (S i) cl w0) as (es & w' & Hrest & Hlen & Hes)
    end.
    rewrite Hrest. eexists _, _. split; [reflexivity |].
    split; [simpl; by rewrite Hlen |].
    constructor; [| exact Hes]. split; [reflexivity |].
    unfold candle_invariant. simpl. split.
    + apply synthetic_candle_ordered; apply Hunit.
    + pose proof (Hunit (S (S (S (S (random_draws w)))))) as [H5 _]. lra.
Qed.
End Candles.

(** Every generator yields a structurally valid entity of its kind, for
    identifiers that are not inherited property names and a random source
    in the unit interval. *)
Lemma synthetic_valid (l : Lookup) (env : Env) (w : World) :
  plain_ids l ->
  unit_interval env ->
  exists v w', synthetic l env w = (Returned v, w') /\ valid l v.
Proof.
  intros Hplain Hunit.
  destruct l as [ids | id | | coinId | id timeframe comparison | id timeframe]; simpl in *.
  - by apply generateMockData_valid.
  - by apply generateMockDetailedData_valid.
  - eexists _, _. split; [reflexivity |]. eexists. split; [reflexivity |].
    split; [discriminate | repeat constructor].
  - eexists _, _. split; [reflexivity |]. eexists. split; [reflexivity |].
    split; [discriminate | repeat constructor].
  - unfold generateMockChartData. unfold_monad.
    match goal with
    | |- context [chart_loop ?n ?p ?iv ?r ?i env ?w0] =>
      destruct (chart_loop_valid n p iv env r i w0) as (es & w' & Hrun & Hlen & Hes)
    end.
    rewrite Hrun. eexists _, _. split; [reflexivity |]. by exists es.
  - unfold generateMockCandlestickData. unfold_monad.
    match goal with
    | |- context [candle_loop ?n ?p ?iv ?r ?i ?cl env ?w0] =>
      destruct (candle_loop_valid env n p iv r i cl w0 Hunit) as (es & w' & Hrun & Hlen & Hes)
    end.
    rewrite Hrun. eexists _, _. split; [reflexivity |]. by exists es.
Qed.

(** ** The claims on the facade *)

(** A lookup that misses the cache goes to the network. *)
Lemma miss_consults_network (l : Lookup) (env : Env) (w : World) :
  misses (cacheKey l) (cache w) ->
  (1 <= attempts_made w (lookup l env w).2)%nat.
Proof.
  intros Hmiss.
  destruct (misses_get (cacheKey l) env w Hmiss) as (c & w0 & Hget & Hc & Hreq).
  destruct (fetchWithRetry (request_url l (API_BASE_URL env)) no_headers default_retries env w0)
    as [res w1] eqn:Hfetch.
  rewrite lookup_is_template, (template_miss _ _ _ _ _ _ _ _ _ Hget res w1 Hc Hfetch).
  apply fetchWithRetry_attempts in Hfetch as [Hatt _]; [| done].
  unfold attempts_made in *. rewrite Hreq in Hatt.
  pose proof (synthetic_frames l) as (_ & Hsyn & _).
  assert (forall payload, preserves requests (try_catch (process l payload) (fun _ => synthetic l)))
    as Hproc
    by (intros payload; apply preserves_try_catch;
        [apply process_preserves_requests | intros _; exact Hsyn]).
  assert (forall (run : Res Value * World),
            requests run.2 = requests w1 ->
            (1 <= length (requests run.2) - length (requests w))%nat) as Hdone
    by (intros run ->; exact Hatt).
  destruct res as [r | e].
  - destruct (ok r); [destruct (json_body r) as [payload |] |]; apply Hdone.
    + destruct (try_catch _ _ env w1) as [res2 w2] eqn:Hrun. eapply Hproc, Hrun.
    + destruct (synthetic l env w1) as [res2 w2] eqn:Hrun. eapply Hsyn, Hrun.
    + destruct (synthetic l env w1) as [res2 w2] eqn:Hrun. eapply Hsyn, Hrun.
  - apply Hdone. destruct (synthetic l env w1) as [res2 w2] eqn:Hrun. eapply Hsyn, Hrun.
Qed.

(** X25. When a lookup misses the cache and the Fetch Client throws or
    returns a response that is not OK, the lookup returns what the
    Synthetic Data Generator of its resource kind produces and throws
    nothing.  The cache is left as the miss left it: nothing is written,
    every entry was there before the call.  The entity is structurally
    valid, for asset identifiers that are not inherited property names and
    random draws in the unit interval.  Any later identical call on that
    cache issues a network request again. *)
Theorem fallback_guarantee (env : Env) (w w0 w1 : World) (l : Lookup) (c : Value)
    (res : Res Response) :
  getCachedData (cacheKey l) env w = (Returned c, w0) ->
  truthy c = false ->
  fetchWithRetry (request_url l (API_BASE_URL env)) no_headers default_retries env w0
  = (res, w1) ->
  failed res ->
  exists v w2,
    lookup l env w = (Returned v, w2)
    /\ synthetic l env w1 = (Returned v, w2)
    /\ cache w2 = cache w0
    /\ cache w2 ⊆ cache w
    /\ (plain_ids l -> unit_interval env -> valid l v)
    /\ (forall env' w', cache w' = cache w2 ->
          (1 <= attempts_made w' (lookup l env' w').2)%nat).
Proof.
  intros Hget Hc Hfetch Hfailed.
  pose proof (synthetic_frames l) as (Hcache & _ & Hreturns).
  destruct (Hreturns env w1) as (v & w2 & Hsyn).
  assert (lookup l env w = synthetic l env w1) as Hlookup.
  { rewrite lookup_is_template, (template_miss _ _ _ _ _ _ _ _ _ Hget res w1 Hc Hfetch).
    destruct res as [r | e]; [| reflexivity].
    simpl in Hfailed. by rewrite Hfailed. }
  assert (cache w2 = cache w0) as Hsame.
  { rewrite (Hcache _ _ _ _ Hsyn).
    by apply fetchWithRetry_attempts in Hfetch as [_ ->]. }
  exists v, w2. split; [by rewrite Hlookup |]. split; [exact Hsyn |].
  split; [exact Hsame |]. split.
  { rewrite Hsame. eapply getCachedData_shrinks, Hget. }
  split.
  - intros Hplain Hunit.
    destruct (synthetic_valid l env w1 Hplain Hunit) as (v' & w2' & Hsyn' & Hvalid).
    congruence.
  - intros env' w' Hcache'. apply miss_consults_network.
    rewrite Hcache', Hsame. eapply miss_leaves_misses; eassumption.
Qed.

Lemma sample_env_unit_interval (st : Z) (body : option Value) (t : Z) :
  unit_interval (sample_env st body t).
Proof. intros k. simpl. split; [discriminate | reflexivity]. Qed.

Lemma fallback_guarantee_witness :
  (exists v w2,
     lookup (Candlesticks "bitcoin" TF_24h) (sample_env 500 None 0) fresh_world
     = (Returned v, w2)
     /\ cache w2 = cache fresh_world
     /\ valid (Candlesticks "bitcoin" TF_24h) v
     /\ (1 <= attempts_made w2
               (lookup (Candlesticks "bitcoin" TF_24h) (sample_env 500 None 0) w2).2)%nat)
  /\ (exists v w2,
       lookup (Cryptocurrencies ["bitcoin"; "dogecoin"]) (offline_env 0) fresh_world
       = (Returned v, w2)
       /\ cache w2 = cache fresh_world
       /\ valid (Cryptocurrencies ["bitcoin"; "dogecoin"]) v).
Proof.
  split.
  - edestruct fallback_guarantee
      with (env := sample_env 500 None 0) (w := fresh_world)
           (l := Candlesticks "bitcoin" TF_24h)
      as (v & w2 & Hrun & _ & Hcache & _ & Hvalid & Hagain).
    + vm_compute. reflexivity.
    + reflexivity.
    + vm_compute. reflexivity.
    + reflexivity.
    + exists v, w2. split; [exact Hrun |]. split; [exact Hcache |]. split.
      * apply Hvalid; [exact I | apply sample_env_unit_interval].
      * apply Hagain. reflexivity.
  - edestruct fallback_guarantee
      with (env := offline_env 0) (w := fresh_world)
           (l := Cryptocurrencies ["bitcoin"; "dogecoin"])
      as (v & w2 & Hrun & _ & Hcache & _ & Hvalid & _).
    + vm_compute. reflexivity.
    + reflexivity.
    + vm_compute. reflexivity.
    + exact I.
    + exists v, w2. split; [exact Hrun |]. split; [exact Hcache |].
      apply Hvalid.
      * repeat constructor.
      * intros k. simpl. split; [discriminate | reflexivity].
Defined.

(** ** Candles *)

Section ParsedCandles.
Local Open Scope Q_scope.

Lemma candle_invariant_candle (t : Value) (open high low close volume : Q) :
  candle_invariant (candle t (VNum open) (VNum high) (VNum low) (VNum close) (VNum volume))
  <-> ohlc_ordered open high low close /\ 0 <= volume.
Proof. reflexivity. Qed.

(** The callback copies the row and draws a volume. *)
Lemma parse_candle_row (env : Env) (w : World) (t open high low close : Q) :
  parse_candle (VArr [VNum t; VNum open; VNum high; VNum low; VNum close]) env w
  = (Returned (candle (VNum t) (VNum open) (VNum high) (VNum low) (VNum close)
                      (VNum (random env (random_draws w) * 1000000))),
     mkWorld (cache w) (requests w) (sleeps w) (clock_reads w) (S (random_draws w))).
Proof. reflexivity. Qed.

Lemma parse_candles (env : Env) (rows : list Value) (w : World) :
  unit_interval env ->
  Forall (fun row => exists t open high low close,
            row = VArr [VNum t; VNum open; VNum high; VNum low; VNum close]) rows ->
  exists candles w',
    mapM parse_candle rows env w = (Returned candles, w')
    /\ cache w' = cache w /\ clock_reads w' = clock_reads w
    /\ Forall2 (fun row c => parsed_candle row c
                             /\ (candle_invariant c <-> row_ordered row)) rows candles.
Proof.
  intros Hunit Hrows. revert w.
  induction Hrows as [| row rows (t & open & high & low & close & ->) _ IH]; intros w.
  - exists [], w. simpl. repeat split; constructor.
  - cbn [mapM]. unfold bind at 1. rewrite parse_candle_row.
    set (w0 := mkWorld _ _ _ _ _).
    destruct (IH w0) as (candles & w' & Hrest & Hcache & Hclock & Hall).
    unfold bind at 1. rewrite Hrest. eexists _, w'.
    split; [reflexivity |]. split; [exact Hcache |]. split; [exact Hclock |].
    constructor; [| exact Hall].
    assert (0 <= random env (random_draws w) * 1000000) as Hvol
      by (pose proof (Hunit (random_draws w)) as [? _]; lra).
    split.
    + exists t, open, high, low, close, (random env (random_draws w) * 1000000).
      split; [reflexivity |]. split; [reflexivity | exact Hvol].
    + rewrite candle_invariant_candle. simpl. tauto.
Qed.
End ParsedCandles.

(** C9, as the code has it.  With random draws in the unit interval: every
    candle of the synthetic generator satisfies [low <= open <= high] and
    [low <= close <= high] and carries a volume that is not negative.  A
    candle parsed from an upstream OHLC payload carries the five numbers of
    its row as they came and a synthesized volume that is not negative; it
    satisfies the ordering exactly when the upstream row does. *)
Theorem candle_invariants (env : Env) :
  unit_interval env ->
  (forall (timeframe : ChartTimeframe) (w : World),
     exists candles w',
       generateMockCandlestickData timeframe env w = (Returned (VArr candles), w')
       /\ length candles = mock_points timeframe
       /\ Forall candle_invariant candles)
  /\ (forall (id : string) (timeframe : ChartTimeframe) (w w0 w1 : World) (c : Value)
             (r : Response) (rows : list Value),
        getCachedData (candlestick_key id timeframe) env w = (Returned c, w0) ->
        truthy c = false ->
        fetchWithRetry (ohlc_url (API_BASE_URL env) id timeframe) no_headers
                       default_retries env w0 = (Returned r, w1) ->
        ok r = true ->
        json_body r = Some (VArr rows) ->
        Forall (fun row => exists t open high low close,
                  row = VArr [VNum t; VNum open; VNum high; VNum low; VNum close]) rows ->
        exists candles w2,
          fetchCandlestickData id timeframe env w = (Returned (VArr candles), w2)
          /\ cache w2 !! candlestick_key id timeframe
             = Some (mkEntry (VArr candles) (clock env (clock_reads w1)) 30000)
          /\ Forall2 (fun row c => parsed_candle row c
                                   /\ (candle_invariant c <-> row_ordered row))
                     rows candles).
Proof.
  intros Hunit. split.
  - intros timeframe w.
    destruct (synthetic_valid (Candlesticks "" timeframe) env w I Hunit)
      as (v & w' & Hrun & es & -> & Hlen & Hes).
    exists es, w'. split; [exact Hrun |]. split; [exact Hlen |].
    eapply Forall_impl; [exact Hes |]. by intros e [_ He].
  - intros id timeframe w w0 w1 c r rows Hget Hc Hfetch Hok Hbody Hrows.
    change (fetchCandlestickData id timeframe) with (lookup (Candlesticks id timeframe)).
    rewrite lookup_is_template,
      (template_miss _ _ _ _ _ _ _ _ _ Hget (Returned r) w1 Hc Hfetch), Hok, Hbody.
    destruct (parse_candles env rows w1 Hunit Hrows)
      as (candles & w' & Hrun & Hcache & Hclock & Hall).
    exists candles.
    unfold process, array_of, try_catch, bind, ret. rewrite Hrun.
    unfold setCachedData. unfold_monad. simpl.
    eexists. split; [reflexivity |]. simpl. split; [| exact Hall].
    rewrite lookup_insert_eq, Hclock. reflexivity.
Qed.

(** C9 as stated fails on parsed candles: an upstream row with
    [open = 1], [high = 0], [low = 5], [close = 3] is handed on as it
    came. *)
Lemma parsed_candle_counterexample :
  exists c w',
    fetchCandlestickData "bitcoin" TF_7d (sample_env 200 (Some disordered_ohlc) 0) fresh_world
    = (Returned (VArr [c]), w')
    /\ prop c "open" = num 1 /\ prop c "high" = num 0
    /\ ~ candle_invariant c.
Proof.
  eexists _, _. split; [vm_compute; reflexivity |].
  split; [reflexivity |]. split; [reflexivity |].
  intros [(Hlow & _) _]. vm_compute in Hlow. by apply Hlow.
Qed.

Lemma candle_invariants_witness :
  unit_interval (sample_env 200 (Some ordered_ohlc) 0)
  /\ exists candles w2,
       fetchCandlestickData "bitcoin" TF_7d (sample_env 200 (Some ordered_ohlc) 0) fresh_world
       = (Returned (VArr candles), w2)
       /\ Forall candle_invariant candles.
Proof.
  split; [apply sample_env_unit_interval |].
  destruct (candle_invariants (sample_env 200 (Some ordered_ohlc) 0)
              (sample_env_unit_interval _ _ _)) as [_ Hparsed].
  edestruct Hparsed
    with (id := "bitcoin") (timeframe := TF_7d) (w := fresh_world)
         (rows := [VArr [num 0; num 2; num 4; num 1; num 3]])
    as (candles & w2 & Hrun & _ & Hall).
  - vm_compute. reflexivity.
  - reflexivity.
  - vm_compute. reflexivity.
  - reflexivity.
  - reflexivity.
  - repeat constructor. by eexists _, _, _, _, _.
  - exists candles, w2. split; [exact Hrun |].
    inversion Hall as [| row c rows cs [_ Hiff] Hrest]; subst.
    inversion Hrest; subst. constructor; [| constructor].
    apply Hiff. vm_compute. repeat split; discriminate.
Defined.

(** ** Malformed payloads *)

(** No lookup lets an exception out. *)
Lemma lookup_always_returns (l : Lookup) : always_returns (lookup l).
Proof.
  rewrite lookup_is_template. unfold lookup_template.
  apply always_returns_bind; [apply getCachedData_returns | intros cached].
  destruct (truthy cached); [apply always_returns_ret |].
  apply always_returns_try_catch. intros _. apply synthetic_frames.
Qed.

(** C6, as the code has it.  No lookup propagates an exception.  When the
    fetch of a lookup succeeds with a parsed payload: the market listing,
    the coin detail and the exchange listing cache the payload and return
    it as it is; the trading-pairs lookup returns [data.tickers || []] and
    caches it for 60000 ms, that is the empty list when [tickers] is
    missing or falsy and the value of [tickers] as it is when that is
    truthy, array or not, and falls back to synthetic data, uncached, only
    on a payload that is [null]; the price-history lookup, on a payload
    without a [prices] array, and the candle lookup, on a payload that is
    not an array, return synthetic data and write nothing to the cache, as
    after a failed fetch. *)
Theorem malformed_payloads (env : Env) (w w0 w1 : World) (c : Value) (r : Response)
    (payload : Value) (l : Lookup) :
  getCachedData (cacheKey l) env w = (Returned c, w0) ->
  truthy c = false ->
  fetchWithRetry (request_url l (API_BASE_URL env)) no_headers default_retries env w0
  = (Returned r, w1) ->
  ok r = true ->
  json_body r = Some payload ->
  (forall l' : Lookup, exists v w', lookup l' env w = (Returned v, w'))
  /\ match l with
     | Cryptocurrencies _ | DetailedCoin _ | Exchanges =>
       exists w2,
         lookup l env w = (Returned payload, w2)
         /\ cache w2
            = <[ cacheKey l := mkEntry payload (clock env (clock_reads w1)) (lifetime l) ]>
                (cache w0)
     | TradingPairs _ =>
       (payload = VNull \/ payload = VUndefined ->
        exists v w2,
          lookup l env w = (Returned v, w2)
          /\ synthetic l env w1 = (Returned v, w2)
          /\ cache w2 = cache w0)
       /\ (payload <> VNull -> payload <> VUndefined ->
           exists served w2,
             lookup l env w = (Returned served, w2)
             /\ cache w2
                = <[ cacheKey l := mkEntry served (clock env (clock_reads w1)) (lifetime l) ]>
                    (cache w0)
             /\ (truthy (prop payload "tickers") = false -> served = VArr [])
             /\ (truthy (prop payload "tickers") = true -> served = prop payload "tickers"))
     | PriceHistory _ _ _ =>
       (forall elements, prop payload "prices" <> VArr elements) ->
       exists v w2,
         lookup l env w = (Returned v, w2)
         /\ synthetic l env w1 = (Returned v, w2)
         /\ cache w2 = cache w0
     | Candlesticks _ _ =>
       (forall rows, payload <> VArr rows) ->
       exists v w2,
         lookup l env w = (Returned v, w2)
         /\ synthetic l env w1 = (Returned v, w2)
         /\ cache w2 = cache w0
     end.
Proof.
  intros Hget Hc Hfetch Hok Hbody. split; [intros l'; apply lookup_always_returns |].
  rewrite lookup_is_template,
    (template_miss _ _ _ _ _ _ _ _ _ Hget (Returned r) w1 Hc Hfetch), Hok, Hbody.
  pose proof (synthetic_frames l) as (Hcache & _ & Hreturns).
  destruct (Hreturns env w1) as (v & w2 & Hsyn).
  assert (cache w1 = cache w0) as Hsame
    by (by apply fetchWithRetry_attempts in Hfetch as [_ ->]).
  assert (cache w2 = cache w0) as Hkept
    by (by rewrite (Hcache _ _ _ _ Hsyn)).
  destruct l as [ids | id | | coinId | id timeframe comparison | id timeframe];
    cbn [process cacheKey lifetime].
  - unfold setCachedData. unfold_monad. simpl.
    eexists. split; [reflexivity |]. simpl. by rewrite Hsame.
  - unfold setCachedData. unfold_monad. simpl.
    eexists. split; [reflexivity |]. simpl. by rewrite Hsame.
  - unfold setCachedData. unfold_monad. simpl.
    eexists. split; [reflexivity |]. simpl. by rewrite Hsame.
  - split.
    + intros [-> | ->]; exists v, w2; (split; [exact Hsyn | by split]).
    + intros Hnull Hundef.
      assert (get_prop payload "tickers" = ret (prop payload "tickers")) as Hprop
        by (by destruct payload).
      rewrite Hprop. unfold setCachedData. unfold_monad.
      exists (js_or (prop payload "tickers") (VArr [])). eexists.
      split; [reflexivity |]. split; [simpl; by rewrite Hsame |].
      unfold js_or. split; intros ->; reflexivity.
  - intros Hprices. exists v, w2. split; [| by split].
    unfold try_catch, bind at 1, get_prop.
    destruct payload; cbn [throw ret]; try exact Hsyn;
      unfold bind at 1, array_of; cbn [prop throw]; try exact Hsyn.
    destruct (default VUndefined (assoc "prices" fields)) eqn:Hp;
      cbn [throw]; try exact Hsyn.
    exfalso. eapply Hprices. simpl. exact Hp.
  - intros Hrows. exists v, w2. split; [| by split].
    unfold try_catch, bind at 1, array_of.
    destruct payload; cbn [throw]; try exact Hsyn.
    exfalso. by eapply Hrows.
Qed.

(** C6 as stated fails on trading pairs: on the payload [{}] the lookup
    returns the empty list, which the synthetic generator never produces,
    and stores it in the cache. *)
Lemma missing_tickers_counterexample :
  exists w',
    fetchTradingPairs "bitcoin" (sample_env 200 (Some (VObj [])) 0) fresh_world
    = (Returned (VArr []), w')
    /\ cache w' !! pairs_key "bitcoin" = Some (mkEntry (VArr []) 0 60000)
    /\ (forall env w, (generateMockTradingPairs "bitcoin" env w).1 <> Returned (VArr [])).
Proof.
  eexists. split; [vm_compute; reflexivity |]. split; [reflexivity |].
  intros env w. discriminate.
Qed.

Lemma malformed_payloads_witness :
  (exists v w2,
     fetchPriceHistory "bitcoin" TF_7d CA_usd (sample_env 200 (Some (VObj [])) 0) fresh_world
     = (Returned v, w2)
     /\ cache w2 = cache fresh_world)
  /\ (exists w2,
       fetchTradingPairs "bitcoin" (sample_env 200 (Some (VObj [])) 0) fresh_world
       = (Returned (VArr []), w2))
  /\ (exists w2,
       fetchTradingPairs "bitcoin" (sample_env 200 (Some (VObj [("tickers", num 5)])) 0)
                         fresh_world
       = (Returned (num 5), w2)
       /\ cache w2 !! pairs_key "bitcoin" = Some (mkEntry (num 5) 0 60000)).
Proof.
  split; [| split].
  - edestruct malformed_payloads
      with (env := sample_env 200 (Some (VObj [])) 0) (w := fresh_world)
           (payload := VObj []) (l := PriceHistory "bitcoin" TF_7d CA_usd)
      as (_ & v & w2 & Hrun & _ & Hcache).
    + vm_compute. reflexivity.
    + reflexivity.
    + vm_compute. reflexivity.
    + reflexivity.
    + reflexivity.
    + discriminate.
    + exists v, w2. split; [exact Hrun | exact Hcache].
  - edestruct malformed_payloads
      with (env := sample_env 200 (Some (VObj [])) 0) (w := fresh_world)
           (payload := VObj []) (l := TradingPairs "bitcoin")
      as (_ & _ & Hobject).
    + vm_compute. reflexivity.
    + reflexivity.
    + vm_compute. reflexivity.
    + reflexivity.
    + reflexivity.
    + destruct Hobject as (served & w2 & Hrun & _ & Hfalsy & _); [discriminate .. |].
      exists w2. by rewrite <- (Hfalsy eq_refl).
  - edestruct malformed_payloads
      with (env := sample_env 200 (Some (VObj [("tickers", num 5)])) 0) (w := fresh_world)
           (payload := VObj [("tickers", num 5)]) (l := TradingPairs "bitcoin")
      as (_ & _ & Hobject).
    + vm_compute. reflexivity.
    + reflexivity.
    + vm_compute. reflexivity.
    + reflexivity.
    + reflexivity.
    + destruct Hobject as (served & w2 & Hrun & Hcache & _ & Htruthy); [discriminate .. |].
      exists w2. rewrite (Htruthy eq_refl) in Hrun, Hcache. split; [exact Hrun |].
      rewrite Hcache. apply lookup_insert_eq.
Defined.

(** ** Cache keys *)

Section Keys.
Local Open Scope string_scope.
Local Arguments String.append !_ _ / : simpl nomatch.

Lemma append_assoc (a b c : string) : (a +:+ b) +:+ c = a +:+ (b +:+ c).
Proof. induction a as [| x a IH]; simpl; [done | by rewrite IH]. Qed.

Lemma free_of_append_sep (c : ascii) (a b : string) :
  free_of c (a +:+ String c b) = false.
Proof.
  induction a as [| x a IH]; simpl.
  - by rewrite Ascii.eqb_refl.
  - rewrite IH. apply andb_false_r.
Qed.

(** Splitting at the first separator. *)
Lemma split_first (c : ascii) (a1 a2 b1 b2 : string) :
  free_of c a1 = true -> free_of c a2 = true ->
  a1 +:+ String c b1 = a2 +:+ String c b2 ->
  a1 = a2 /\ b1 = b2.
Proof.
  revert a2. induction a1 as [| x a1 IH]; intros [| y a2]; simpl.
  - intros _ _ [= ->]. done.
  - intros _ Hfree [= <- _]. by rewrite Ascii.eqb_refl in Hfree.
  - intros Hfree _ [= -> _]. by rewrite Ascii.eqb_refl in Hfree.
  - intros [_ H1]%andb_prop [_ H2]%andb_prop [= -> Heq].
    destruct (IH a2 H1 H2 Heq) as [-> ->]. done.
Qed.

(** Splitting at the last separator. *)
Lemma split_last (c : ascii) (a1 a2 b1 b2 : string) :
  free_of c b1 = true -> free_of c b2 = true ->
  a1 +:+ String c b1 = a2 +:+ String c b2 ->
  a1 = a2 /\ b1 = b2.
Proof.
  intros H1 H2. revert a2. induction a1 as [| x a1 IH]; intros [| y a2]; simpl.
  - intros [= ->]. done.
  - intros [= _ Heq]. rewrite Heq, free_of_append_sep in H1. discriminate.
  - intros [= _ Heq]. rewrite <- Heq, free_of_append_sep in H2. discriminate.
  - intros [= -> Heq]. destruct (IH a2 Heq) as [-> ->]. done.
Qed.

(** Splitting at the last two separators. *)
Lemma two_separators (a1 a2 t1 t2 c1 c2 : string) :
  free_of "-" t1 = true -> free_of "-" t2 = true ->
  free_of "-" c1 = true -> free_of "-" c2 = true ->
  a1 +:+ "-" +:+ t1 +:+ "-" +:+ c1 = a2 +:+ "-" +:+ t2 +:+ "-" +:+ c2 ->
  a1 = a2 /\ t1 = t2 /\ c1 = c2.
Proof.
  intros Ht1 Ht2 Hc1 Hc2 Heq.
  assert (forall a t c, a +:+ "-" +:+ t +:+ "-" +:+ c = (a +:+ String "-" t) +:+ String "-" c)
    as Hgroup by (intros a t c; by rewrite append_assoc).
  rewrite !Hgroup in Heq.
  apply split_last in Heq as [Heq ->]; [| done ..].
  apply split_last in Heq as [-> ->]; done.
Qed.

Lemma timeframe_string_free (t : ChartTimeframe) : free_of "-" (timeframe_string t) = true.
Proof. by destruct t. Qed.

Lemma comparison_string_free (c : ComparisonAsset) :
  free_of "-" (comparison_string c) = true.
Proof. by destruct c. Qed.

Lemma timeframe_string_inj (t1 t2 : ChartTimeframe) :
  timeframe_string t1 = timeframe_string t2 -> t1 = t2.
Proof. destruct t1, t2; simpl; intros; congruence. Qed.

Lemma comparison_string_inj (c1 c2 : ComparisonAsset) :
  comparison_string c1 = comparison_string c2 -> c1 = c2.
Proof. destruct c1, c2; simpl; intros; congruence. Qed.

Lemma join_ids_cons (id : string) (ids : list string) :
  ids <> [] -> join_ids (id :: ids) = id +:+ String "," (join_ids ids).
Proof. destruct ids; [done | reflexivity]. Qed.

Lemma join_ids_nonempty (ids : list string) :
  Forall listable ids -> ids <> [] -> join_ids ids <> "".
Proof.
  intros Hall Hne. destruct Hall as [| id ids [Hid _] _]; [done |].
  destruct ids as [| id' ids]; [exact Hid |].
  rewrite join_ids_cons by done. destruct id; [done | discriminate].
Qed.

(** Joining listable identifiers loses nothing. *)
Lemma join_ids_inj (ids1 ids2 : list string) :
  Forall listable ids1 -> Forall listable ids2 ->
  join_ids ids1 = join_ids ids2 -> ids1 = ids2.
Proof.
  intros H1. revert ids2.
  induction H1 as [| id1 ids1 [Hne1 Hfree1] Hrest1 IH]; intros ids2 H2 Heq.
  - destruct ids2 as [| id2 ids2]; [done |].
    symmetry in Heq. by apply join_ids_nonempty in Heq.
  - destruct H2 as [| id2 ids2 [Hne2 Hfree2] Hrest2].
    { by apply (join_ids_nonempty (id1 :: ids1)) in Heq; [| constructor |]. }
    destruct ids1 as [| id1' ids1], ids2 as [| id2' ids2].
    + change (id1 = id2) in Heq. by subst.
    + rewrite (join_ids_cons id2) in Heq by done.
      change (join_ids [id1]) with id1 in Heq. subst id1.
      by rewrite free_of_append_sep in Hfree1.
    + rewrite (join_ids_cons id1) in Heq by done.
      change (join_ids [id2]) with id2 in Heq. subst id2.
      by rewrite free_of_append_sep in Hfree2.
    + rewrite !join_ids_cons in Heq by done.
      apply split_first in Heq as [-> Heq]; [| done ..].
      by rewrite (IH _ Hrest2 Heq).
Qed.

(** C2, as the code has it.  The key of the market listing is
    ["cryptos-"] followed by the identifiers joined with commas in the
    order given: a reordered list gets the same key only when it is the
    same list.  Lookups with different parameters never compute the same
    key, for identifier lists whose entries are not empty and hold no
    comma. *)
Theorem cache_keys_distinguish (l1 l2 : Lookup) :
  listable_ids l1 -> listable_ids l2 ->
  (forall ids, cacheKey (Cryptocurrencies ids) = "cryptos-" +:+ String.concat "," ids)
  /\ (cacheKey l1 = cacheKey l2 <-> l1 = l2).
Proof.
  intros H1 H2. split; [reflexivity |]. split; [| by intros ->].
  destruct l1 as [ids1 | id1 | | coin1 | id1 t1 c1 | id1 t1],
           l2 as [ids2 | id2 | | coin2 | id2 t2 c2 | id2 t2];
    simpl; try discriminate.
  - intros [= Heq]. f_equal. by apply join_ids_inj.
  - by intros [= ->].
  - done.
  - by intros [= ->].
  - intros [= Heq].
    apply two_separators in Heq as (-> & Ht & Hc);
      [| apply timeframe_string_free | apply timeframe_string_free
       | apply comparison_string_free | apply comparison_string_free].
    by rewrite (timeframe_string_inj _ _ Ht), (comparison_string_inj _ _ Hc).
  - intros [= Heq].
    apply (split_last "-") in Heq as [-> Ht]; [| apply timeframe_string_free ..].
    by rewrite (timeframe_string_inj _ _ Ht).
Qed.

Lemma cache_keys_distinguish_witness :
  listable_ids (Cryptocurrencies ["bitcoin"; "usd-coin"])
  /\ listable_ids (PriceHistory "usd-coin" TF_7d CA_usd)
  /\ cacheKey (Cryptocurrencies ["bitcoin"; "usd-coin"])
     <> cacheKey (PriceHistory "usd-coin" TF_7d CA_usd).
Proof.
  assert (listable_ids (Cryptocurrencies ["bitcoin"; "usd-coin"])) as Hids
    by (repeat constructor; discriminate).
  split; [exact Hids |]. split; [exact I |].
  intros Heq.
  destruct (cache_keys_distinguish (Cryptocurrencies ["bitcoin"; "usd-coin"])
              (PriceHistory "usd-coin" TF_7d CA_usd) Hids I) as [_ [Hinj _]].
  discriminate (Hinj Heq).
Defined.

(** C2 as stated fails: two orders of the same identifiers get two keys,
    and the second order misses the entry the first one cached. *)
Lemma reordered_ids_counterexample :
  Permutation ["bitcoin"; "ethereum"] ["ethereum"; "bitcoin"]
  /\ cacheKey (Cryptocurrencies ["bitcoin"; "ethereum"]) = "cryptos-bitcoin,ethereum"
  /\ cacheKey (Cryptocurrencies ["ethereum"; "bitcoin"]) = "cryptos-ethereum,bitcoin"
  /\ cacheKey (Cryptocurrencies ["bitcoin"; "ethereum"])
     <> cacheKey (Cryptocurrencies ["ethereum"; "bitcoin"])
  /\ (exists v w1,
        fetchCryptocurrencies ["bitcoin"; "ethereum"]
          (sample_env 200 (Some (VArr [])) 0) fresh_world = (Returned v, w1)
        /\ attempts_made w1
             (fetchCryptocurrencies ["bitcoin"; "ethereum"]
                (sample_env 200 (Some (VArr [])) 0) w1).2 = 0%nat
        /\ attempts_made w1
             (fetchCryptocurrencies ["ethereum"; "bitcoin"]
                (sample_env 200 (Some (VArr [])) 0) w1).2 = 1%nat).
Proof.
  split; [apply perm_swap |]. split; [reflexivity |]. split; [reflexivity |].
  split; [discriminate |].
  eexists _, _. split; [vm_compute; reflexivity |].
  split; vm_compute; reflexivity.
Qed.
End Keys.

(** ** End-to-end scenarios *)

(** Two market listings for the same identifiers within 30 seconds issue
    one network request: the second call is a cache hit. *)
Example listing_twice_one_request :
  let env := sample_env 200 (Some (VArr [VObj bitcoin_profile; VObj ethereum_profile])) 0 in
  let w1 := (fetchCryptocurrencies ["bitcoin"; "ethereum"] env fresh_world).2 in
  let w2 := (fetchCryptocurrencies ["bitcoin"; "ethereum"] env w1).2 in
  attempts_made fresh_world w1 = 1%nat /\ attempts_made w1 w2 = 0%nat.
Proof. split; vm_compute; reflexivity. Qed.

(** The timeframe ["1h"] asks for a window of one day, sampled hourly. *)
Example one_hour_window :
  getTimeframeDays TF_1h = DaysNum 1
  /\ sampling_interval (getTimeframeDays TF_1h) = "hourly"
  /\ market_chart_url "https://api.coingecko.com/api/v3" "bitcoin" TF_1h CA_usd
     = "https://api.coingecko.com/api/v3/coins/bitcoin/market_chart?vs_currency=usd&days=1&interval=hourly".
Proof. repeat split; vm_compute; reflexivity. Qed.

(** A network that answers 500 to every request: the coin-detail lookup
    yields a synthetic record whose [id] is the identifier asked for, after
    four attempts. *)
Example detail_on_server_errors :
  exists v w',
    fetchDetailedCoinData "dogecoin" (sample_env 500 None 0) fresh_world = (Returned v, w')
    /\ prop v "id" = VStr "dogecoin"
    /\ attempts_made fresh_world w' = 4%nat
    /\ sleeps w' = [1000; 2000; 4000]
    /\ cache w' = ∅.
Proof. eexists _, _. split; [vm_compute; reflexivity |]. repeat split. Qed.


(** * Further properties of the module *)

(** ** The Fetch Client on any network *)

Section Trace.
Variables (url : string) (options_headers : gmap string string) (retries : Z).
Variable env : Env.

(** One attempt, by the outcome of its request: the client-error test and
    the retry test of the code come down to [status >= 500]. *)
Lemma attempt_body_outcome (attempt : nat) (w : World) :
  attempt_body url options_headers retries attempt env w
  = match network env (length (requests w)) (request_of url options_headers) with
    | NetworkError e =>
      if Z.of_nat attempt <? retries then
        (Returned Continue,
         after_attempts [request_of url options_headers] [backoffDelay attempt] w)
      else (Thrown e, after_attempts [request_of url options_headers] [] w)
    | Responded r =>
      if (500 <=? status r) && (Z.of_nat attempt <? retries) then
        (Returned Continue,
         after_attempts [request_of url options_headers] [backoffDelay attempt] w)
      else (Returned (Return r), after_attempts [request_of url options_headers] [] w)
    end.
Proof.
  unfold attempt_body, request_of. unfold_monad. unfold after_attempts.
  destruct (network env _ _) as [e | r]; simpl.
  - destruct (_ <? _); simpl; by rewrite ?app_nil_r.
  - unfold ok.
    destruct (Z.leb_spec 200 (status r)), (Z.leb_spec (status r) 299),
      (Z.leb_spec 400 (status r)), (Z.ltb_spec (status r) 500),
      (Z.leb_spec 500 (status r)), (Z.eqb_spec (status r) 429),
      (Z.ltb_spec (Z.of_nat attempt) retries);
      simpl; rewrite ?app_nil_r; try reflexivity; lia.
Qed.

(** The run of the loop, whatever the network does: it stops at the first
    outcome that is not transient, or at the last attempt. *)
Lemma retry_loop_trace (iterations attempt : nat) (w w' : World) (res : Res Response) :
  Z.of_nat attempt + Z.of_nat iterations = retries ->
  retry_loop (S iterations) url options_headers retries attempt env w = (res, w') ->
  exists n : nat,
    (1 <= n <= S iterations)%nat
    /\ w' = after_attempts (replicate n (request_of url options_headers))
                           (backoffDelay <$> seq attempt (n - 1)) w
    /\ delivers (network env (length (requests w) + (n - 1))
                         (request_of url options_headers)) res
    /\ (forall j, (j < n - 1)%nat ->
          transient (network env (length (requests w) + j)
                             (request_of url options_headers)) = true)
    /\ ((n < S iterations)%nat ->
          transient (network env (length (requests w) + (n - 1))
                             (request_of url options_headers)) = false).
Proof.
  revert attempt w.
  induction iterations as [| iterations IH]; intros attempt w Hsum;
    cbn [retry_loop]; unfold bind at 1; rewrite attempt_body_outcome;
    destruct (network env (length (requests w)) (request_of url options_headers))
      as [e | r] eqn:Hnet.
  - destruct (Z.ltb_spec (Z.of_nat attempt) retries); [lia |].
    intros [= <- <-]. exists 1%nat. simpl. rewrite Nat.add_0_r, Hnet.
    repeat split; try done; intros; lia.
  - destruct (Z.ltb_spec (Z.of_nat attempt) retries); [lia |].
    rewrite andb_false_r. unfold ret. intros [= <- <-]. exists 1%nat. simpl.
    rewrite Nat.add_0_r, Hnet. repeat split; try done; intros; lia.
  - destruct (Z.ltb_spec (Z.of_nat attempt) retries); [| lia].
    intros Hrun. apply IH in Hrun as (n & Hn & -> & Hlast & Hbefore & Hstop); [| lia].
    exists (S n). cbn [after_attempts requests] in *. rewrite length_app in *. simpl in *.
    replace (n - 0)%nat with n by lia.
    split; [lia |]. split.
    { rewrite after_attempts_compose. destruct n as [| n]; [lia |]. simpl.
      by rewrite Nat.sub_0_r. }
    split. { replace (length (requests w) + n)%nat
               with (length (requests w) + 1 + (n - 1))%nat by lia. exact Hlast. }
    split.
    + intros j Hj. destruct j as [| j]; [by rewrite Nat.add_0_r, Hnet |].
      replace (length (requests w) + S j)%nat
        with (length (requests w) + 1 + j)%nat by lia.
      apply Hbefore. lia.
    + intros Hlt. replace (length (requests w) + n)%nat
                    with (length (requests w) + 1 + (n - 1))%nat by lia.
      apply Hstop. lia.
  - destruct (Z.leb_spec 500 (status r)) as [Hst | Hst];
      destruct (Z.ltb_spec (Z.of_nat attempt) retries); try lia; simpl.
    + intros Hrun. apply IH in Hrun as (n & Hn & -> & Hlast & Hbefore & Hstop); [| lia].
      exists (S n). cbn [after_attempts requests] in *. rewrite length_app in *. simpl in *.
      replace (n - 0)%nat with n by lia.
      split; [lia |]. split.
      { rewrite after_attempts_compose. destruct n as [| n]; [lia |]. simpl.
        by rewrite Nat.sub_0_r. }
      split. { replace (length (requests w) + n)%nat
                 with (length (requests w) + 1 + (n - 1))%nat by lia. exact Hlast. }
      split.
      * intros j Hj. destruct j as [| j].
        { rewrite Nat.add_0_r, Hnet. simpl. by apply Z.leb_le. }
        replace (length (requests w) + S j)%nat
          with (length (requests w) + 1 + j)%nat by lia.
        apply Hbefore. lia.
      * intros Hlt. replace (length (requests w) + n)%nat
                      with (length (requests w) + 1 + (n - 1))%nat by lia.
        apply Hstop. lia.
    + unfold ret. intros [= <- <-]. exists 1%nat. simpl.
      rewrite Nat.add_0_r, Hnet.
      split; [lia |]. split; [done |]. split; [done |].
      split; [intros; lia |]. intros _. by apply Z.leb_gt.
Qed.
End Trace.

Lemma total_delay_backoff (first count : nat) :
  0 <= total_delay (backoffDelay <$> seq first count) <= maxDelay * Z.of_nat count.
Proof.
  revert first. induction count as [| count IH]; intros first.
  - simpl. unfold maxDelay. lia.
  - pose proof (backoffDelay_le_max first) as Hmax.
    assert (0 <= backoffDelay first) as Hpos.
    { unfold backoffDelay. apply Z.min_glb; [| lia].
      apply Z.mul_nonneg_nonneg; [lia |]. apply Z.pow_nonneg. lia. }
    specialize (IH (S first)).
    change (total_delay (backoffDelay <$> seq first (S count)))
      with (backoffDelay first + total_delay (backoffDelay <$> seq (S first) count)).
    rewrite Nat2Z.inj_succ. unfold maxDelay in *. lia.
Qed.

Lemma fetchWithRetry_trace (env : Env) (w w' : World) (url : string)
    (options_headers : gmap string string) (retries : Z) (res : Res Response) :
  0 <= retries ->
  fetchWithRetry url options_headers retries env w = (res, w') ->
  exists n : nat,
    (1 <= n <= S (Z.to_nat retries))%nat
    /\ w' = after_attempts (replicate n (request_of url options_headers))
                           (backoffDelay <$> seq 0 (n - 1)) w
    /\ delivers (network env (length (requests w) + (n - 1))
                         (request_of url options_headers)) res
    /\ (forall j, (j < n - 1)%nat ->
          transient (network env (length (requests w) + j)
                             (request_of url options_headers)) = true)
    /\ ((n < S (Z.to_nat retries))%nat ->
          transient (network env (length (requests w) + (n - 1))
                             (request_of url options_headers)) = false).
Proof.
  intros Hretries. unfold fetchWithRetry.
  replace (Z.to_nat (retries + 1)) with (S (Z.to_nat retries)) by lia.
  apply retry_loop_trace. lia.
Qed.

(** X2. Whatever the network does, a call with a retry count that is not
    negative makes between one and [retries + 1] attempts, all with the
    same request; it sleeps for the backoff delays of the attempts it
    repeats, at most [maxDelay * retries] in total, and leaves the cache
    alone.  Every attempt but the last met a transient outcome; the
    result is what the last attempt met, and a call that stops early
    stopped on an outcome that is not transient. *)
Theorem fetch_client_trace (env : Env) (w w' : World) (url : string)
    (options_headers : gmap string string) (retries : Z) (res : Res Response) :
  0 <= retries ->
  fetchWithRetry url options_headers retries env w = (res, w') ->
  exists n : nat,
    (1 <= n <= Z.to_nat retries + 1)%nat
    /\ requests w' = requests w ++ replicate n (request_of url options_headers)
    /\ sleeps w' = sleeps w ++ (backoffDelay <$> seq 0 (n - 1))
    /\ total_delay (backoffDelay <$> seq 0 (n - 1)) <= maxDelay * retries
    /\ cache w' = cache w
    /\ delivers (network env (length (requests w) + (n - 1))
                         (request_of url options_headers)) res
    /\ (forall j, (j < n - 1)%nat ->
          transient (network env (length (requests w) + j)
                             (request_of url options_headers)) = true)
    /\ ((n <= Z.to_nat retries)%nat ->
          transient (network env (length (requests w) + (n - 1))
                             (request_of url options_headers)) = false).
Proof.
  intros Hretries Hrun.
  apply fetchWithRetry_trace in Hrun as (n & Hn & -> & Hlast & Hbefore & Hstop); [| lia].
  exists n. split; [lia |]. split; [done |]. split; [done |]. split.
  { pose proof (total_delay_backoff 0 (n - 1)) as [_ Hle].
    etransitivity; [exact Hle |].
    apply Z.mul_le_mono_nonneg_l; [unfold maxDelay |]; lia. }
  split; [done |]. split; [exact Hlast |]. split; [exact Hbefore |].
  intros Hle. apply Hstop. lia.
Qed.

Lemma fetch_client_trace_witness :
  0 <= 3
  /\ exists n : nat,
       (1 <= n <= 4)%nat
       /\ sleeps (fetchWithRetry "u" ∅ 3 (flaky_env 2 200 None) fresh_world).2
          = backoffDelay <$> seq 0 (n - 1)
       /\ n = 3%nat.
Proof.
  split; [lia |].
  destruct (fetchWithRetry "u" ∅ 3 (flaky_env 2 200 None) fresh_world) as [res w'] eqn:Hrun.
  destruct (fetch_client_trace (flaky_env 2 200 None) fresh_world w' "u" ∅ 3 res)
    as (n & Hn & Hreq & Hsl & _); [lia | exact Hrun |].
  exists n. split; [exact Hn |]. split; [exact Hsl |].
  vm_compute in Hrun. injection Hrun as <- <-. simpl in Hreq.
  apply (f_equal length) in Hreq. rewrite length_replicate in Hreq. simpl in Hreq. lia.
Defined.

(** X1. When every attempt is rejected by the network, a call with a retry
    count that is not negative makes exactly [retries + 1] attempts,
    sleeps for the backoff delay between two of them, and rethrows the
    rejection of the last attempt. *)
Theorem network_failure_exhausts (env : Env) (w : World) (url : string)
    (options_headers : gmap string string) (retries : Z) :
  0 <= retries ->
  (forall k, (length (requests w) <= k)%nat ->
     exists e, network env k (request_of url options_headers) = NetworkError e) ->
  exists e w',
    fetchWithRetry url options_headers retries env w = (Thrown e, w')
    /\ network env (length (requests w) + Z.to_nat retries)
         (request_of url options_headers) = NetworkError e
    /\ attempts_made w w' = Z.to_nat (retries + 1)
    /\ sleeps w' = sleeps w ++ (backoffDelay <$> seq 0 (Z.to_nat retries)).
Proof.
  intros Hretries Hnet.
  destruct (fetchWithRetry url options_headers retries env w) as [res w'] eqn:Hrun.
  destruct (fetchWithRetry_trace env w w' url options_headers retries res Hretries Hrun)
    as (n & Hn & -> & Hlast & _ & Hstop).
  assert (n = S (Z.to_nat retries)) as ->.
  { destruct (decide (n <= Z.to_nat retries)%nat) as [Hle | Hgt]; [| lia].
    assert (n < S (Z.to_nat retries))%nat as Hlt by lia. apply Hstop in Hlt as Hle'.
    clear Hle. rename Hle' into Hle.
    destruct (Hnet (length (requests w) + (n - 1))%nat) as (e & He); [lia |].
    rewrite He in Hle. discriminate. }
  replace (S (Z.to_nat retries) - 1)%nat with (Z.to_nat retries) in * by lia.
  destruct (Hnet (length (requests w) + Z.to_nat retries)%nat) as (e & He); [lia |].
  rewrite He in Hlast. destruct res as [r | e']; [done |]. simpl in Hlast. subst e'.
  eexists e, _. split; [reflexivity |]. split; [exact He |]. split; [| done].
  unfold attempts_made, after_attempts. cbn [requests].
  rewrite length_app, length_replicate. lia.
Qed.

Lemma network_failure_exhausts_witness :
  0 <= 3
  /\ exists e w',
       fetchWithRetry "u" ∅ 3 (offline_env 0) fresh_world = (Thrown e, w')
       /\ attempts_made fresh_world w' = 4%nat
       /\ sleeps w' = [1000; 2000; 4000].
Proof.
  split; [lia |].
  destruct (network_failure_exhausts (offline_env 0) fresh_world "u" ∅ 3)
    as (e & w' & Hrun & _ & Hn & Hsl); [lia | |].
  - intros k _. by exists "TypeError: Failed to fetch".
  - exists e, w'. split; [exact Hrun |]. split; [exact Hn | exact Hsl].
Defined.

(** X3. When the first [k] attempts meet transient outcomes (a rejection or
    a status of 500 or more), [k] is at most the retry count, and the next
    attempt is answered with a status below 500, that response is
    returned after exactly [k + 1] attempts and the backoff delays of the
    first [k]. *)
Theorem recovers_after_transient_failures (env : Env) (w : World) (url : string)
    (options_headers : gmap string string) (retries : Z) (k : nat) (r : Response) :
  Z.of_nat k <= retries ->
  (forall j, (j < k)%nat ->
     transient (network env (length (requests w) + j)
                        (request_of url options_headers)) = true) ->
  network env (length (requests w) + k) (request_of url options_headers) = Responded r ->
  status r < 500 ->
  fetchWithRetry url options_headers retries env w
  = (Returned r,
     after_attempts (replicate (S k) (request_of url options_headers))
                    (backoffDelay <$> seq 0 k) w).
Proof.
  intros Hk Hbefore Hnet Hst.
  destruct (fetchWithRetry url options_headers retries env w) as [res w'] eqn:Hrun.
  destruct (fetchWithRetry_trace env w w' url options_headers retries res ltac:(lia) Hrun)
    as (n & Hn & -> & Hlast & Htransient & Hstop).
  assert (n - 1 = k)%nat as Hnk.
  { destruct (Nat.lt_trichotomy (n - 1) k) as [Hlt | [Heq | Hgt]]; [| exact Heq |].
    - assert (transient (network env (length (requests w) + (n - 1))
                                 (request_of url options_headers)) = false) as Hfalse
        by (apply Hstop; lia).
      rewrite (Hbefore _ Hlt) in Hfalse. discriminate.
    - specialize (Htransient k Hgt). rewrite Hnet in Htransient. simpl in Htransient.
      apply Z.leb_le in Htransient. lia. }
  rewrite Hnk, Hnet in Hlast. destruct res as [r' | e]; [| done]. simpl in Hlast. subst r'.
  rewrite Hnk. by replace n with (S k) by lia.
Qed.

Lemma recovers_after_transient_failures_witness :
  Z.of_nat 2 <= 3
  /\ fetchWithRetry "u" ∅ 3 (flaky_env 2 404 None) fresh_world
     = (Returned (mkResponse 404 None),
        after_attempts (replicate 3 (request_of "u" ∅)) [1000; 2000] fresh_world).
Proof.
  split; [lia |].
  apply (recovers_after_transient_failures (flaky_env 2 404 None) fresh_world "u" ∅ 3 2).
  - lia.
  - intros j Hj. simpl. destruct j as [| [| j]]; [reflexivity | reflexivity | lia].
  - reflexivity.
  - simpl. lia.
Defined.

(** X4. With a negative retry count the loop admits no attempt:
    [fetchWithRetry] issues no request and throws 'Max retries exceeded'.
    With a count that is not negative an exception it throws is always the
    rejection of its last attempt. *)
Theorem max_retries_exceeded (env : Env) (w : World) (url : string)
    (options_headers : gmap string string) (retries : Z) :
  (retries < 0 ->
   fetchWithRetry url options_headers retries env w = (Thrown "Max retries exceeded", w))
  /\ (0 <= retries ->
      forall e w',
        fetchWithRetry url options_headers retries env w = (Thrown e, w') ->
        exists k, (length (requests w) <= k < length (requests w'))%nat
                  /\ network env k (request_of url options_headers) = NetworkError e
                  /\ S k = length (requests w')).
Proof.
  split.
  - intros Hneg. unfold fetchWithRetry.
    replace (Z.to_nat (retries + 1)) with 0%nat by lia. reflexivity.
  - intros Hretries e w' Hrun.
    apply fetchWithRetry_trace in Hrun as (n & Hn & -> & Hlast & _); [| done].
    exists (length (requests w) + (n - 1))%nat.
    cbn [after_attempts requests]. rewrite length_app, length_replicate.
    split; [lia |]. split; [| lia].
    destruct (network env _ _) as [e' | r]; [| done]. simpl in Hlast. by subst.
Qed.

Lemma max_retries_exceeded_witness :
  -1 < 0
  /\ fetchWithRetry "u" ∅ (-1) (sample_env 200 None 0) fresh_world
     = (Thrown "Max retries exceeded", fresh_world).
Proof.
  split; [lia |].
  apply (max_retries_exceeded (sample_env 200 None 0) fresh_world "u" ∅ (-1)). lia.
Defined.


(** ** The cache, set and get together *)

Lemma getCachedData_present (env : Env) (w : World) (key : string) (entry : CacheEntry) :
  cache w !! key = Some entry ->
  getCachedData key env w
  = if clock env (clock_reads w) - timestamp entry <? ttl entry then
      (Returned (data entry), after_clock_read w)
    else (Returned VNull, set_cache (delete key) (after_clock_read w)).
Proof.
  intros Hkey. unfold getCachedData. unfold_monad. rewrite Hkey. simpl.
  by destruct (_ <? _).
Qed.

(** X5. [setCachedData] stores the value under its key with the time of
    the call and leaves every other key as it was.  A later
    [getCachedData] of the key returns that value while less than the
    lifetime has passed on the clock since the store, and from then on
    returns [null] and deletes the entry; with a lifetime of zero or less
    the value is never served once the clock is back at or past the time
    of the store. *)
Theorem cache_round_trip (env : Env) (w : World) (key : string) (v : Value) (life : Z) :
  exists w1,
    setCachedData key v life env w = (Returned tt, w1)
    /\ cache w1 = <[ key := mkEntry v (clock env (clock_reads w)) life ]> (cache w)
    /\ (forall key', key' <> key -> cache w1 !! key' = cache w !! key')
    /\ (forall env2 w2,
          cache w2 = cache w1 ->
          (clock env2 (clock_reads w2) - clock env (clock_reads w) < life ->
           getCachedData key env2 w2 = (Returned v, after_clock_read w2))
          /\ (life <= clock env2 (clock_reads w2) - clock env (clock_reads w) ->
              exists w3,
                getCachedData key env2 w2 = (Returned VNull, w3)
                /\ cache w3 = delete key (cache w))).
Proof.
  eexists. split; [reflexivity |]. simpl. split; [reflexivity |]. split.
  - intros key' Hne. by rewrite lookup_insert_ne.
  - intros env2 w2 Hcache.
    assert (cache w2 !! key = Some (mkEntry v (clock env (clock_reads w)) life)) as Hkey
      by (rewrite Hcache; apply lookup_insert_eq).
    rewrite (getCachedData_present _ _ _ _ Hkey). simpl. split.
    + intros Hfresh. by destruct (Z.ltb_spec (clock env2 (clock_reads w2)
                                              - clock env (clock_reads w)) life); [| lia].
    + intros Hstale.
      destruct (Z.ltb_spec (clock env2 (clock_reads w2) - clock env (clock_reads w)) life);
        [lia |].
      eexists. split; [reflexivity |]. simpl. rewrite Hcache. apply delete_insert_eq.
Qed.

Lemma cache_round_trip_witness :
  exists w1,
    setCachedData "k" (VStr "v") 30000 (sample_env 200 None 1000) fresh_world
    = (Returned tt, w1)
    /\ getCachedData "k" (sample_env 200 None 30999) w1
       = (Returned (VStr "v"), after_clock_read w1)
    /\ (getCachedData "k" (sample_env 200 None 31000) w1).1 = Returned VNull.
Proof.
  destruct (cache_round_trip (sample_env 200 None 1000) fresh_world "k" (VStr "v") 30000)
    as (w1 & Hset & _ & _ & Hget).
  exists w1. split; [exact Hset |]. split.
  - apply (Hget (sample_env 200 None 30999) w1); [reflexivity | simpl; lia].
  - destruct (Hget (sample_env 200 None 31000) w1) as [_ Hstale]; [reflexivity |].
    destruct Hstale as (w3 & -> & _); [simpl; lia | reflexivity].
Defined.

(** ** Hits and misses of the lookups *)

(** X6. A lookup that finds a truthy value under its key, stored less than
    its lifetime ago, returns that value at once: no request is issued,
    nothing is slept, no random number is drawn and the cache is left as
    it is. *)
Theorem cache_hit_serves_stored_value (l : Lookup) (env : Env) (w : World)
    (entry : CacheEntry) :
  cache w !! cacheKey l = Some entry ->
  truthy (data entry) = true ->
  clock env (clock_reads w) - timestamp entry < ttl entry ->
  lookup l env w = (Returned (data entry), after_clock_read w).
Proof.
  intros Hkey Htruthy Hfresh.
  rewrite lookup_is_template. apply template_hit; [| exact Htruthy].
  rewrite (getCachedData_present _ _ _ _ Hkey).
  by destruct (Z.ltb_spec (clock env (clock_reads w) - timestamp entry) (ttl entry)); [| lia].
Qed.

Lemma cache_hit_serves_stored_value_witness :
  lookup (TradingPairs "bitcoin") (offline_env 59999)
         (world_with "pairs-bitcoin" (VArr []) 0 60000)
  = (Returned (VArr []), after_clock_read (world_with "pairs-bitcoin" (VArr []) 0 60000)).
Proof.
  apply (cache_hit_serves_stored_value (TradingPairs "bitcoin") (offline_env 59999)
           (world_with "pairs-bitcoin" (VArr []) 0 60000) (mkEntry (VArr []) 0 60000)).
  - apply lookup_singleton_eq.
  - reflexivity.
  - simpl. lia.
Defined.

(** A falsy value in the cache ([null], [0], [false], the empty string)
    is never served: a lookup that finds one under its key goes to the
    network, however fresh the entry is. *)
Lemma falsy_entry_is_a_miss (l : Lookup) (env : Env) (w : World) (entry : CacheEntry) :
  cache w !! cacheKey l = Some entry ->
  truthy (data entry) = false ->
  (1 <= attempts_made w (lookup l env w).2)%nat.
Proof.
  intros Hkey Hfalsy. apply miss_consults_network. unfold misses. by rewrite Hkey.
Qed.

Lemma hit_serves (l : Lookup) (env : Env) (w : World) (entry : CacheEntry) :
  cache w !! cacheKey l = Some entry ->
  truthy (data entry) = true ->
  clock env (clock_reads w) - timestamp entry < ttl entry ->
  lookup l env w = (Returned (data entry), after_clock_read w).
Proof.
  intros Hkey Htruthy Hfresh.
  rewrite lookup_is_template. apply template_hit; [| exact Htruthy].
  rewrite (getCachedData_present _ _ _ _ Hkey).
  by destruct (Z.ltb_spec (clock env (clock_reads w) - timestamp entry) (ttl entry)); [| lia].
Qed.

(** What the market-listing, coin-detail and exchange lookups do when the
    fetch succeeds: store the parsed payload and return it. *)
Lemma payload_lookup_success (l : Lookup) (env : Env) (w w0 w1 : World) (c : Value)
    (r : Response) (payload : Value) :
  stores_payload l = true ->
  getCachedData (cacheKey l) env w = (Returned c, w0) ->
  truthy c = false ->
  fetchWithRetry (request_url l (API_BASE_URL env)) no_headers default_retries env w0
  = (Returned r, w1) ->
  ok r = true ->
  json_body r = Some payload ->
  lookup l env w
  = (Returned payload,
     set_cache (<[ cacheKey l := mkEntry payload (clock env (clock_reads w1)) (lifetime l) ]>)
               (after_clock_read w1)).
Proof.
  intros Hraw Hget Hc Hfetch Hok Hbody.
  rewrite lookup_is_template,
    (template_miss _ _ _ _ _ _ _ _ _ Hget (Returned r) w1 Hc Hfetch), Hok, Hbody.
  destruct l; try discriminate; reflexivity.
Qed.

(** X7. When the market-listing, coin-detail or exchange lookup misses the
    cache and the fetch succeeds, the parsed payload is returned and
    stored.  A truthy payload is then served from the cache, without any
    request, to every identical lookup that reads the clock less than the
    lifetime of the resource after the store.  A falsy payload ([null],
    [0], [false], the empty string) is stored as well but never served:
    every later identical lookup goes to the network again. *)
Theorem fetched_payload_is_served (l : Lookup) (env : Env) (w w0 w1 : World) (c : Value)
    (r : Response) (payload : Value) :
  stores_payload l = true ->
  getCachedData (cacheKey l) env w = (Returned c, w0) ->
  truthy c = false ->
  fetchWithRetry (request_url l (API_BASE_URL env)) no_headers default_retries env w0
  = (Returned r, w1) ->
  ok r = true ->
  json_body r = Some payload ->
  exists w2,
    lookup l env w = (Returned payload, w2)
    /\ (forall env2 w3,
          cache w3 = cache w2 ->
          (truthy payload = true ->
           clock env2 (clock_reads w3) - clock env (clock_reads w1) < lifetime l ->
           lookup l env2 w3 = (Returned payload, after_clock_read w3))
          /\ (truthy payload = false ->
              (1 <= attempts_made w3 (lookup l env2 w3).2)%nat)).
Proof.
  intros Hraw Hget Hc Hfetch Hok Hbody.
  eexists. split; [by apply (payload_lookup_success l env w w0 w1 c r payload) |].
  intros env2 w3 Hcache.
  assert (cache w3 !! cacheKey l
          = Some (mkEntry payload (clock env (clock_reads w1)) (lifetime l))) as Hkey
    by (rewrite Hcache; apply lookup_insert_eq).
  split.
  - intros Htruthy Hfresh. by apply (hit_serves l env2 w3 _ Hkey).
  - intros Hfalsy. by apply (falsy_entry_is_a_miss l env2 w3 _ Hkey).
Qed.

Lemma fetched_payload_is_served_witness :
  exists w2,
    lookup Exchanges (sample_env 200 (Some (VArr [VStr "binance"])) 0) fresh_world
    = (Returned (VArr [VStr "binance"]), w2)
    /\ lookup Exchanges (offline_env 299999) w2
       = (Returned (VArr [VStr "binance"]), after_clock_read w2).
Proof.
  edestruct fetched_payload_is_served
    with (l := Exchanges) (env := sample_env 200 (Some (VArr [VStr "binance"])) 0)
         (w := fresh_world) (payload := VArr [VStr "binance"])
    as (w2 & Hrun & Hlater).
  - reflexivity.
  - vm_compute. reflexivity.
  - reflexivity.
  - vm_compute. reflexivity.
  - reflexivity.
  - reflexivity.
  - exists w2. split; [exact Hrun |].
    apply (Hlater (offline_env 299999) w2); [reflexivity | reflexivity | simpl; lia].
Defined.


(** ** What a lookup leaves alone *)

Lemma preserves_slot_of_cache {A} (k : string) (c : M A) :
  preserves cache c -> preserves (slot k) c.
Proof. intros Hc env w res w' Hrun. unfold slot. by rewrite (Hc _ _ _ _ Hrun). Qed.

Lemma preserves_slot_cache_set (k key : string) (entry : CacheEntry) :
  k <> key -> preserves (slot k) (cache_set key entry).
Proof.
  intros Hne env w res w'. unfold cache_set, slot. intros [= <- <-]. simpl.
  by rewrite lookup_insert_ne.
Qed.

Lemma preserves_slot_cache_delete (k key : string) :
  k <> key -> preserves (slot k) (cache_delete key).
Proof.
  intros Hne env w res w'. unfold cache_delete, slot. intros [= <- <-]. simpl.
  by rewrite lookup_delete_ne.
Qed.

Lemma preserves_slot_cache_get (k key : string) : preserves (slot k) (cache_get key).
Proof. intros env w res w'. unfold cache_get. by intros [= <- <-]. Qed.

Lemma preserves_slot_Date_now (k : string) : preserves (slot k) Date_now.
Proof. apply preserves_slot_of_cache, preserves_cache_Date_now. Qed.

Lemma preserves_slot_Math_random (k : string) : preserves (slot k) Math_random.
Proof. apply preserves_slot_of_cache, preserves_cache_Math_random. Qed.

Lemma preserves_traffic_Date_now : preserves traffic Date_now.
Proof. intros env w res w'. unfold Date_now. by intros [= <- <-]. Qed.

Lemma preserves_traffic_Math_random : preserves traffic Math_random.
Proof. intros env w res w'. unfold Math_random. by intros [= <- <-]. Qed.

Lemma preserves_traffic_cache_set (key : string) (entry : CacheEntry) :
  preserves traffic (cache_set key entry).
Proof. intros env w res w'. unfold cache_set. by intros [= <- <-]. Qed.

Lemma preserves_traffic_cache_delete (key : string) : preserves traffic (cache_delete key).
Proof. intros env w res w'. unfold cache_delete. by intros [= <- <-]. Qed.

Lemma preserves_traffic_cache_get (key : string) : preserves traffic (cache_get key).
Proof. intros env w res w'. unfold cache_get. by intros [= <- <-]. Qed.

#[local] Hint Resolve preserves_slot_cache_set preserves_slot_cache_delete
  preserves_slot_cache_get preserves_slot_Date_now preserves_slot_Math_random
  preserves_traffic_Date_now preserves_traffic_Math_random preserves_traffic_cache_set
  preserves_traffic_cache_delete preserves_traffic_cache_get : frame.

Lemma getCachedData_keeps (k key : string) :
  (k <> key -> preserves (slot k) (getCachedData key))
  /\ preserves traffic (getCachedData key).
Proof. unfold getCachedData. split; [intros Hne |]; frame. Qed.

Lemma setCachedData_keeps (k key : string) (d : Value) (life : Z) :
  (k <> key -> preserves (slot k) (setCachedData key d life))
  /\ preserves traffic (setCachedData key d life).
Proof. unfold setCachedData. split; [intros Hne |]; frame. Qed.

Lemma process_keeps (l : Lookup) (payload : Value) (k : string) :
  (k <> cacheKey l -> preserves (slot k) (process l payload))
  /\ preserves traffic (process l payload).
Proof.
  split; [intros Hne |];
    destruct l; simpl in *;
    unfold get_prop, array_of, price_point, parse_candle, iterate;
    frame; by apply setCachedData_keeps.
Qed.

Lemma now_iso_traffic : preserves traffic now_iso.
Proof. unfold now_iso. frame. Qed.

#[local] Hint Resolve now_iso_traffic : frame.

Lemma chart_loop_traffic (now : Z) (points : nat) (interval : Z) (remaining i : nat) :
  preserves traffic (chart_loop now points interval remaining i).
Proof.
  revert i. induction remaining as [| remaining IH]; intros i; simpl; frame.
Qed.

Lemma candle_loop_traffic (now : Z) (points : nat) (interval : Z) (remaining i : nat)
    (lastClose : Q) :
  preserves traffic (candle_loop now points interval remaining i lastClose).
Proof.
  revert i lastClose. induction remaining as [| remaining IH]; intros i lastClose; simpl;
    frame.
Qed.

Lemma synthetic_traffic (l : Lookup) : preserves traffic (synthetic l).
Proof.
  destruct l; simpl.
  - unfold generateMockData, mock_currency. frame.
  - unfold generateMockDetailedData, generateMockData, mock_currency. frame.
  - unfold generateMockExchanges. frame.
  - unfold generateMockTradingPairs. frame.
  - unfold generateMockChartData. frame. apply chart_loop_traffic.
  - unfold generateMockCandlestickData. frame. apply candle_loop_traffic.
Qed.

Lemma fetchWithRetry_preserves_cache (url : string) (options_headers : gmap string string)
    (retries : Z) :
  preserves cache (fetchWithRetry url options_headers retries).
Proof.
  intros env w res w' Hrun. unfold fetchWithRetry in Hrun.
  by apply retry_loop_frame in Hrun as (? & _).
Qed.

(** X8. A lookup touches the cache under its own key only: whatever the
    network answers, every entry stored under another key is after the
    call what it was before. *)
Theorem lookup_keeps_other_keys (l : Lookup) (env : Env) (w : World) (k : string) :
  k <> cacheKey l ->
  cache (lookup l env w).2 !! k = cache w !! k.
Proof.
  intros Hne.
  assert (preserves (slot k) (lookup l)) as Hkeeps.
  { rewrite lookup_is_template. unfold lookup_template, response_json.
    pose proof (synthetic_frames l) as (Hsyn & _).
    frame; try (by apply getCachedData_keeps); try (by apply process_keeps);
      apply preserves_slot_of_cache;
      [apply fetchWithRetry_preserves_cache | exact Hsyn]. }
  destruct (lookup l env w) as [res w'] eqn:Hrun. exact (Hkeeps _ _ _ _ Hrun).
Qed.

Lemma lookup_keeps_other_keys_witness :
  "exchanges" <> cacheKey (TradingPairs "bitcoin")
  /\ cache (lookup (TradingPairs "bitcoin") (sample_env 200 (Some (VObj [])) 5)
                   (world_with "exchanges" (VArr []) 0 300000)).2 !! "exchanges"
     = Some (mkEntry (VArr []) 0 300000).
Proof.
  split; [discriminate |].
  rewrite (lookup_keeps_other_keys (TradingPairs "bitcoin")
             (sample_env 200 (Some (VObj [])) 5)
             (world_with "exchanges" (VArr []) 0 300000) "exchanges");
    [apply lookup_singleton_eq | discriminate].
Defined.

(** X9. A lookup issues at most four requests, all of them for the URL of
    its resource with the header [Accept: application/json], and sleeps
    for the backoff delays between them, at most 7000 ms in total. *)
Theorem lookup_traffic_bounds (l : Lookup) (env : Env) (w : World) :
  exists n : nat,
    (n <= 4)%nat
    /\ requests (lookup l env w).2
       = requests w
         ++ replicate n (request_of (request_url l (API_BASE_URL env)) no_headers)
    /\ sleeps (lookup l env w).2 = sleeps w ++ (backoffDelay <$> seq 0 (n - 1))
    /\ total_delay (backoffDelay <$> seq 0 (n - 1)) <= 7000
    /\ req_headers (request_of (request_url l (API_BASE_URL env)) no_headers) !! "Accept"
       = Some "application/json".
Proof.
  assert (forall n : nat, (n <= 4)%nat ->
            total_delay (backoffDelay <$> seq 0 (n - 1)) <= 7000) as Hdelay.
  { intros n Hn. destruct n as [| [| [| [| [| n]]]]]; vm_compute; try discriminate. lia. }
  destruct (getCachedData_returns (cacheKey l) env w) as (c & w0 & Hget).
  pose proof (proj2 (getCachedData_keeps "" (cacheKey l)) _ _ _ _ Hget) as Hw0.
  rewrite lookup_is_template.
  destruct (truthy c) eqn:Hc.
  - rewrite (template_hit _ _ _ _ _ _ _ _ _ Hget Hc). exists 0%nat. simpl.
    injection Hw0 as -> ->. rewrite !app_nil_r. repeat split; (lia || done).
  - destruct (fetchWithRetry (request_url l (API_BASE_URL env)) no_headers
                             default_retries env w0) as [res w1] eqn:Hfetch.
    rewrite (template_miss _ _ _ _ _ _ _ _ _ Hget res w1 Hc Hfetch).
    apply fetchWithRetry_trace in Hfetch as (n & Hn & -> & _); [| done].
    exists n.
    assert (forall run : Res Value * World,
              traffic run.2
              = traffic (after_attempts
                           (replicate n (request_of (request_url l (API_BASE_URL env)) no_headers))
                           (backoffDelay <$> seq 0 (n - 1)) w0) ->
              requests run.2
              = requests w
                ++ replicate n (request_of (request_url l (API_BASE_URL env)) no_headers)
              /\ sleeps run.2 = sleeps w ++ (backoffDelay <$> seq 0 (n - 1))) as Hdone.
    { intros run Htraffic. unfold traffic in *. simpl in *.
      injection Hw0 as Hr Hs. injection Htraffic as -> ->. by rewrite Hr, Hs. }
    assert (forall payload,
              preserves traffic (try_catch (process l payload) (fun _ => synthetic l)))
      as Hproc
      by (intros payload; apply preserves_try_catch;
          [apply process_keeps; exact "" | intros _; apply synthetic_traffic]).
    pose proof (synthetic_traffic l) as Hsyn.
    change (Z.to_nat default_retries) with 3%nat in Hn.
    split; [lia |].
    match goal with
    | |- requests (?run).2 = ?a /\ sleeps _ = ?b /\ _ =>
      assert (requests run.2 = a /\ sleeps run.2 = b) as [Ha Hb]
    end.
    { apply Hdone.
      destruct res as [r | e].
      - destruct (ok r); [destruct (json_body r) as [payload |] |].
        + destruct (try_catch _ _ env _) as [res2 w2] eqn:Hrun. eapply Hproc, Hrun.
        + destruct (synthetic l env _) as [res2 w2] eqn:Hrun. eapply Hsyn, Hrun.
        + destruct (synthetic l env _) as [res2 w2] eqn:Hrun. eapply Hsyn, Hrun.
      - destruct (synthetic l env _) as [res2 w2] eqn:Hrun. eapply Hsyn, Hrun. }
    split; [exact Ha |]. split; [exact Hb |]. split; [apply Hdelay; lia | reflexivity].
Qed.


(** ** Series payloads *)

Lemma price_points_of_arrays (payload : Value) (env : Env) (w : World) (rows : list Value)
    (i : nat) :
  Forall (fun row => exists parts, row = VArr parts) rows ->
  mapiM_from i (price_point payload) rows env w
  = (Returned (imap (fun j => chart_point payload (i + j)) rows), w).
Proof.
  intros Hrows. revert i. induction Hrows as [| row rows (parts & ->) _ IH]; intros i.
  - reflexivity.
  - cbn [mapiM_from]. unfold bind at 1.
    change (price_point payload (VArr parts) i env w)
      with (Returned (chart_point payload i (VArr parts)), w).
    unfold bind at 1. rewrite (IH (S i)). unfold ret. cbn [imap].
    rewrite Nat.add_0_r. do 3 f_equal. apply imap_ext. intros j x _. simpl.
    f_equal. lia.
Qed.

(** X10. When the price-history lookup misses the cache and the fetch
    succeeds with a payload whose [prices] rows are arrays, the lookup
    returns one point per row, in order, carrying the first two entries of
    the row as timestamp and price and, as volume and market cap, the
    second entry of the row at the same index of [total_volumes] and
    [market_caps], or [0] where that is missing or falsy; the series is
    stored under the key of the lookup for 30000 ms. *)
Theorem price_history_pairs_rows (env : Env) (w w0 w1 : World) (c : Value) (r : Response)
    (payload : Value) (rows : list Value) (id : string) (timeframe : ChartTimeframe)
    (comparison : ComparisonAsset) :
  getCachedData (history_key id timeframe comparison) env w = (Returned c, w0) ->
  truthy c = false ->
  fetchWithRetry (market_chart_url (API_BASE_URL env) id timeframe comparison)
                 no_headers default_retries env w0 = (Returned r, w1) ->
  ok r = true ->
  json_body r = Some payload ->
  prop payload "prices" = VArr rows ->
  Forall (fun row => exists parts, row = VArr parts) rows ->
  exists w2,
    fetchPriceHistory id timeframe comparison env w
    = (Returned (VArr (imap (chart_point payload) rows)), w2)
    /\ length (imap (chart_point payload) rows) = length rows
    /\ cache w2 !! history_key id timeframe comparison
       = Some (mkEntry (VArr (imap (chart_point payload) rows))
                       (clock env (clock_reads w1)) 30000)
    /\ (prop payload "total_volumes" = VUndefined ->
        forall i point, imap (chart_point payload) rows !! i = Some point ->
                        prop point "volume" = num 0)
    /\ (forall i parts, rows !! i = Some (VArr parts) ->
          exists point,
            imap (chart_point payload) rows !! i = Some point
            /\ prop point "timestamp" = default VUndefined (parts !! 0%nat)
            /\ prop point "price" = default VUndefined (parts !! 1%nat)).
Proof.
  intros Hget Hc Hfetch Hok Hbody Hprices Hrows.
  change (fetchPriceHistory id timeframe comparison)
    with (lookup (PriceHistory id timeframe comparison)).
  rewrite lookup_is_template,
    (template_miss _ _ _ _ _ _ _ _ _ Hget (Returned r) w1 Hc Hfetch), Hok, Hbody.
  assert (get_prop payload "prices" = ret (VArr rows)) as Hprop
    by (destruct payload; try discriminate; by rewrite <- Hprices).
  cbn [process]. rewrite Hprop. unfold try_catch, bind at 1, ret at 1.
  unfold bind at 1, array_of, ret at 1. unfold bind at 1.
  rewrite (price_points_of_arrays payload env w1 rows 0 Hrows).
  unfold setCachedData. unfold_monad. simpl.
  eexists. split; [reflexivity |]. split; [apply length_imap |]. split.
  { simpl. apply lookup_insert_eq. }
  split.
  - intros Hvol i point Hpoint. apply list_lookup_imap_Some in Hpoint as (row & _ & ->).
    unfold chart_point. cbn [prop assoc String.eqb Ascii.eqb Bool.eqb default from_option].
    by rewrite Hvol.
  - intros i parts Hrow. eexists. split.
    + rewrite list_lookup_imap, Hrow. reflexivity.
    + split; reflexivity.
Qed.

Lemma price_history_pairs_rows_witness :
  exists w2,
    fetchPriceHistory "bitcoin" TF_7d CA_usd (sample_env 200 (Some sample_chart_payload) 5)
                      fresh_world
    = (Returned (VArr
        [ VObj [("timestamp", num 1000); ("price", num 42000); ("volume", num 7);
                ("market_cap", num 0)];
          VObj [("timestamp", num 2000); ("price", num 43000); ("volume", num 0);
                ("market_cap", num 0)] ]), w2)
    /\ cache w2 !! history_key "bitcoin" TF_7d CA_usd
       = Some (mkEntry (VArr (imap (chart_point sample_chart_payload)
                                   [VArr [num 1000; num 42000]; VArr [num 2000; num 43000]]))
                       5 30000).
Proof.
  edestruct price_history_pairs_rows
    with (env := sample_env 200 (Some sample_chart_payload) 5) (w := fresh_world)
         (payload := sample_chart_payload) (id := "bitcoin") (timeframe := TF_7d)
         (comparison := CA_usd)
         (rows := [VArr [num 1000; num 42000]; VArr [num 2000; num 43000]])
    as (w2 & Hrun & _ & Hcache & _).
  - vm_compute. reflexivity.
  - reflexivity.
  - vm_compute. reflexivity.
  - reflexivity.
  - reflexivity.
  - reflexivity.
  - repeat constructor; eexists; reflexivity.
  - exists w2. split; [exact Hrun | exact Hcache].
Defined.

Lemma price_point_outcome (payload row : Value) (i : nat) (env : Env) (w : World) :
  if iterable row
  then exists v, price_point payload row i env w = (Returned v, w)
  else exists e, price_point payload row i env w = (Thrown e, w).
Proof.
  destruct row; cbn [iterable]; eexists; unfold price_point, iterate, bind, ret, throw;
    reflexivity.
Qed.

Lemma parse_candle_outcome (row : Value) (env : Env) (w : World) :
  if iterable row
  then exists v w', parse_candle row env w = (Returned v, w')
                    /\ cache w' = cache w /\ traffic w' = traffic w
  else exists e, parse_candle row env w = (Thrown e, w).
Proof.
  destruct row; cbn [iterable]; unfold parse_candle, iterate, bind, ret, throw, Math_random;
    try (eexists; reflexivity); eexists _, _; (split; [reflexivity | done]).
Qed.

Lemma price_points_poisoned (payload : Value) (env : Env) (rows : list Value) (i : nat)
    (w : World) :
  Exists (fun row => iterable row = false) rows ->
  exists e, mapiM_from i (price_point payload) rows env w = (Thrown e, w).
Proof.
  revert i. induction rows as [| row rows IH]; intros i Hbad; [by inversion Hbad |].
  cbn [mapiM_from]. unfold bind at 1.
  pose proof (price_point_outcome payload row i env w) as Hrow.
  destruct (iterable row) eqn:Hiter.
  - destruct Hrow as (v & ->).
    inversion Hbad as [? ? Hhd | ? ? Hrest]; subst; [congruence |].
    destruct (IH (S i) Hrest) as (e & Hrun). exists e. unfold bind at 1. by rewrite Hrun.
  - destruct Hrow as (e & ->). by exists e.
Qed.

Lemma candles_poisoned (env : Env) (rows : list Value) (w : World) :
  Exists (fun row => iterable row = false) rows ->
  exists e w',
    mapM parse_candle rows env w = (Thrown e, w')
    /\ cache w' = cache w /\ traffic w' = traffic w.
Proof.
  revert w. induction rows as [| row rows IH]; intros w Hbad; [by inversion Hbad |].
  cbn [mapM]. unfold bind at 1.
  pose proof (parse_candle_outcome row env w) as Hrow.
  destruct (iterable row) eqn:Hiter.
  - destruct Hrow as (v & w0 & -> & Hcache0 & Htraffic0).
    inversion Hbad as [? ? Hhd | ? ? Hrest]; subst; [congruence |].
    destruct (IH w0 Hrest) as (e & w' & Hrun & Hcache & Htraffic).
    exists e, w'. unfold bind at 1. rewrite Hrun.
    split; [reflexivity |]. split; congruence.
  - destruct Hrow as (e & ->). by exists e, w.
Qed.

Lemma process_poisoned (l : Lookup) (payload : Value) (rows : list Value) (env : Env)
    (w : World) :
  series_rows l payload = Some rows ->
  Exists (fun row => iterable row = false) rows ->
  exists e w',
    process l payload env w = (Thrown e, w')
    /\ cache w' = cache w /\ traffic w' = traffic w.
Proof.
  intros Hrows Hbad. destruct l as [| | | | id timeframe comparison | id timeframe];
    try discriminate; cbn [series_rows process] in *.
  - destruct (prop payload "prices") as [| | | | | | prices |] eqn:Hprices; try discriminate.
    injection Hrows as ->.
    assert (get_prop payload "prices" = ret (VArr rows)) as ->
      by (destruct payload; try discriminate; by rewrite <- Hprices).
    destruct (price_points_poisoned payload env rows 0 w Hbad) as (e & Hrun).
    exists e, w. unfold bind at 1, ret at 1. unfold bind at 1, array_of, ret at 1.
    unfold bind at 1. by rewrite Hrun.
  - destruct payload as [| | | | | | elements |]; try discriminate.
    injection Hrows as ->.
    destruct (candles_poisoned env rows w Hbad) as (e & w' & Hrun & Hcache & Htraffic).
    exists e, w'. unfold bind at 1, array_of, ret at 1. unfold bind at 1.
    by rewrite Hrun.
Qed.

(** X11. When the price-history or the candlestick lookup misses the cache
    and the fetch succeeds, but one of the rows of the payload is neither
    an array nor a string, the array pattern of the callback throws: the
    lookup returns what its synthetic generator produces, the rows already
    converted are dropped, nothing is stored in the cache and no further
    request is made. *)
Theorem non_iterable_row_falls_back (l : Lookup) (env : Env) (w w0 w1 : World) (c : Value)
    (r : Response) (payload : Value) (rows : list Value) :
  getCachedData (cacheKey l) env w = (Returned c, w0) ->
  truthy c = false ->
  fetchWithRetry (request_url l (API_BASE_URL env)) no_headers default_retries env w0
  = (Returned r, w1) ->
  ok r = true ->
  json_body r = Some payload ->
  series_rows l payload = Some rows ->
  Exists (fun row => iterable row = false) rows ->
  exists w1' v w2,
    lookup l env w = (Returned v, w2)
    /\ synthetic l env w1' = (Returned v, w2)
    /\ cache w1' = cache w1 /\ traffic w1' = traffic w1
    /\ cache w2 = cache w0
    /\ traffic w2 = traffic w1.
Proof.
  intros Hget Hc Hfetch Hok Hbody Hrows Hbad.
  destruct (process_poisoned l payload rows env w1 Hrows Hbad)
    as (e & w1' & Hprocess & Hcache & Htraffic).
  destruct (synthetic_frames l) as (Hkeeps & _ & Hreturns).
  destruct (Hreturns env w1') as (v & w2 & Hsynthetic).
  exists w1', v, w2.
  rewrite lookup_is_template,
    (template_miss _ _ _ _ _ _ _ _ _ Hget (Returned r) w1 Hc Hfetch), Hok, Hbody.
  unfold try_catch. rewrite Hprocess.
  repeat split; try done.
  - rewrite (Hkeeps _ _ _ _ Hsynthetic), Hcache.
    apply (fetchWithRetry_preserves_cache _ _ _ _ _ _ _ Hfetch).
  - by rewrite (synthetic_traffic l _ _ _ _ Hsynthetic).
Qed.

Lemma non_iterable_row_falls_back_witness :
  exists w1' v w2,
    lookup (PriceHistory "bitcoin" TF_7d CA_usd)
           (sample_env 200 (Some poisoned_chart_payload) 5) fresh_world
    = (Returned v, w2)
    /\ synthetic (PriceHistory "bitcoin" TF_7d CA_usd)
                 (sample_env 200 (Some poisoned_chart_payload) 5) w1'
       = (Returned v, w2)
    /\ cache w2 = ∅.
Proof.
  edestruct non_iterable_row_falls_back
    with (l := PriceHistory "bitcoin" TF_7d CA_usd)
         (env := sample_env 200 (Some poisoned_chart_payload) 5) (w := fresh_world)
         (payload := poisoned_chart_payload)
         (rows := [VArr [num 1000; num 42000]; num 3])
    as (w1' & v & w2 & Hrun & Hsynthetic & _ & _ & Hcache & _).
  - vm_compute. reflexivity.
  - reflexivity.
  - vm_compute. reflexivity.
  - reflexivity.
  - reflexivity.
  - reflexivity.
  - apply Exists_cons_tl, Exists_cons_hd. reflexivity.
  - exists w1', v, w2. split; [exact Hrun |]. split; [exact Hsynthetic | exact Hcache].
Defined.

(** ** Timeframes *)

Lemma append_cancel_l (a b c : string) : a +:+ b = a +:+ c -> b = c.
Proof. induction a as [| x a IH]; simpl; [done | intros [= H]; auto]. Qed.

(** X12. The request of a chart depends on the timeframe through its
    number of days only: two timeframes give the same market-chart URL, and
    the same OHLC URL, exactly when [getTimeframeDays] maps them to the same
    number of days, which happens for equal timeframes and for '1h' and
    '24h'.  The cache keys of two distinct timeframes differ, so the '1h'
    and the '24h' chart send the same request and are cached apart. *)
Theorem timeframe_requests (base id : string) (comparison : ComparisonAsset)
    (t1 t2 : ChartTimeframe) :
  (market_chart_url base id t1 comparison = market_chart_url base id t2 comparison
   <-> getTimeframeDays t1 = getTimeframeDays t2)
  /\ (ohlc_url base id t1 = ohlc_url base id t2
      <-> getTimeframeDays t1 = getTimeframeDays t2)
  /\ (getTimeframeDays t1 = getTimeframeDays t2
      <-> t1 = t2 \/ (t1 = TF_1h /\ t2 = TF_24h) \/ (t1 = TF_24h /\ t2 = TF_1h))
  /\ (history_key id t1 comparison = history_key id t2 comparison -> t1 = t2)
  /\ (candlestick_key id t1 = candlestick_key id t2 -> t1 = t2).
Proof.
  repeat split.
  - unfold market_chart_url. cbv zeta. intros H.
    do 4 apply append_cancel_l in H.
    destruct comparison, t1, t2; vm_compute in H; try discriminate H; reflexivity.
  - unfold market_chart_url. cbv zeta. by intros ->.
  - unfold ohlc_url. cbv zeta. intros H.
    do 3 apply append_cancel_l in H.
    destruct t1, t2; vm_compute in H; try discriminate H; reflexivity.
  - unfold ohlc_url. cbv zeta. by intros ->.
  - destruct t1, t2; simpl; intros H; try discriminate H; auto.
  - intros [-> | [[-> ->] | [-> ->]]]; reflexivity.
  - unfold history_key. intros H. do 2 apply append_cancel_l in H.
    destruct comparison, t1, t2; vm_compute in H; try discriminate H; reflexivity.
  - unfold candlestick_key. intros H. do 2 apply append_cancel_l in H.
    destruct t1, t2; vm_compute in H; try discriminate H; reflexivity.
Qed.


(** ** The synthetic series *)

Section Series.
Local Open Scope Q_scope.

Lemma chart_loop_series (env : Env) (now : Z) (points : nat) (interval : Z)
    (remaining i : nat) (w : World) :
  unit_interval env ->
  sine_bounded env ->
  exists es w',
    chart_loop now points interval remaining i env w = (Returned es, w')
    /\ length es = remaining
    /\ random_draws w' = (random_draws w + 2 * remaining)%nat
    /\ clock_reads w' = clock_reads w
    /\ forall j e, es !! j = Some e ->
         exists price volume,
           e = VObj [ ("timestamp",
                       num (now - (Z.of_nat points - Z.of_nat (i + j)) * interval)%Z);
                      ("price", VNum price); ("volume", VNum volume);
                      ("market_cap", VNum (price * 19600000)) ]
           /\ 41000 <= price /\ price < 46000
           /\ 0 <= volume /\ volume < 1000000000.
Proof.
  intros Hunit Hsine. revert i w.
  induction remaining as [| remaining IH]; intros i w; simpl.
  - eexists _, _. split; [reflexivity |]. repeat split; [simpl; lia |].
    intros j e Hj. by destruct j.
  - unfold_monad.
    match goal with
    | |- context [chart_loop now points interval remaining (S i) env ?w0] =>
      destruct (IH (S i) w0) as (es & w' & Hrest & Hlen & Hdraws & Hclock & Hes)
    end.
    rewrite Hrest. eexists _, _. split; [reflexivity |].
    split; [simpl; by rewrite Hlen |].
    split; [simpl in Hdraws; lia |].
    split; [exact Hclock |].
    intros [| j] e Hj; simpl in Hj.
    + injection Hj as <-. rewrite Nat.add_0_r. eexists _, _. split; [reflexivity |].
      pose proof (Hsine (inject_Z (Z.of_nat i) * 0.1)) as [Hs1 Hs2].
      pose proof (Hunit (random_draws w)) as [Hr1 Hr1'].
      pose proof (Hunit (S (random_draws w))) as [Hr2 Hr2'].
      repeat split; lra.
    + replace (i + S j)%nat with (S i + j)%nat by lia. by apply Hes.
Qed.

Lemma candle_loop_continues (env : Env) (now : Z) (points : nat) (interval : Z)
    (remaining i : nat) (lastClose : Q) (w : World) :
  unit_interval env ->
  exists es w',
    candle_loop now points interval remaining i lastClose env w = (Returned es, w')
    /\ length es = remaining
    /\ random_draws w' = (random_draws w + 5 * remaining)%nat
    /\ clock_reads w' = clock_reads w
    /\ continues lastClose es
    /\ forall j e, es !! j = Some e ->
         prop e "timestamp"
         = num (now - (Z.of_nat points - Z.of_nat (i + j)) * interval)%Z.
Proof.
  intros Hunit. revert i lastClose w.
  induction remaining as [| remaining IH]; intros i lastClose w; simpl.
  - eexists _, _. split; [reflexivity |]. repeat split; [simpl; lia |].
    intros j e Hj. by destruct j.
  - unfold_monad.
    match goal with
    | |- context [candle_loop now points interval remaining (S i) ?cl env ?w0] =>
      destruct (IH (S i) cl w0) as (es & w' & Hrest & Hlen & Hdraws & Hclock & Hchain & Hes)
    end.
    rewrite Hrest. eexists _, _. split; [reflexivity |].
    split; [simpl; by rewrite Hlen |].
    split; [simpl in Hdraws; lia |].
    split; [exact Hclock |].
    split.
    + eexists _, _, _, _. do 4 (split; [reflexivity |]).
      cbn [random_draws cache requests sleeps clock_reads].
      pose proof (Hunit (random_draws w)) as [H1 H1'].
      pose proof (Hunit (S (random_draws w))) as [H2 H2'].
      pose proof (Hunit (S (S (random_draws w)))) as [H3 H3'].
      pose proof (Hunit (S (S (S (random_draws w))))) as [H4 H4'].
      set (r1 := random env (random_draws w)) in *.
      set (r2 := random env (S (random_draws w))) in *.
      set (r3 := random env (S (S (random_draws w)))) in *.
      set (r4 := random env (S (S (S (random_draws w))))) in *.
      set (open := lastClose + (r1 - 0.5) * 100) in *.
      set (span := open + r2 * 500 - (open - r3 * 500)) in *.
      assert (0 <= span) as Hspan by (subst span; lra).
      assert (0 <= r4 * span) as Hlow by (apply Qmult_le_0_compat; assumption).
      assert (0 <= (1 - r4) * span) as Hhigh
        by (apply Qmult_le_0_compat; [lra | assumption]).
      split; [subst open; lra |]. split; [subst open; lra |].
      split; [subst span; lra |].
      split; [subst span; lra |]. split; [subst span; lra | exact Hchain].
    + intros [| j] e Hj; simpl in Hj.
      * injection Hj as <-. rewrite Nat.add_0_r. reflexivity.
      * replace (i + S j)%nat with (S i + j)%nat by lia. by apply Hes.
Qed.
End Series.

Lemma series_timestamp_past (now : Z) (timeframe : ChartTimeframe) (i : nat) :
  (i < mock_points timeframe)%nat ->
  series_timestamp now timeframe i < series_timestamp now timeframe (S i)
  /\ series_timestamp now timeframe i < now
  /\ series_timestamp now timeframe (mock_points timeframe) = now.
Proof.
  intros Hi. unfold series_timestamp.
  assert (0 < mock_interval timeframe) by (by destruct timeframe).
  repeat split; nia.
Qed.

(** X13. Given random draws in [0, 1) and a sine between -1 and 1, the
    synthetic chart generator returns 60 points for '1h', 24 for '24h' and
    168 for any other timeframe, after one reading of the clock and two
    random draws per point.  The point at index [i] carries the timestamp
    [now - (points - i) * interval], which is before [now] and before the
    timestamp of the next index, a price in [41000, 46000), a volume in
    [0, 1000000000) and the market cap [price * 19600000]. *)
Theorem synthetic_chart_series (timeframe : ChartTimeframe) (env : Env) (w : World) :
  unit_interval env ->
  sine_bounded env ->
  exists points w',
    generateMockChartData timeframe env w = (Returned (VArr points), w')
    /\ length points = mock_points timeframe
    /\ random_draws w' = (random_draws w + 2 * mock_points timeframe)%nat
    /\ clock_reads w' = S (clock_reads w)
    /\ forall i point, points !! i = Some point ->
         exists price volume,
           point = VObj [ ("timestamp",
                           num (series_timestamp (clock env (clock_reads w)) timeframe i));
                          ("price", VNum price); ("volume", VNum volume);
                          ("market_cap", VNum (price * 19600000)%Q) ]
           /\ series_timestamp (clock env (clock_reads w)) timeframe i
              < series_timestamp (clock env (clock_reads w)) timeframe (S i)
           /\ series_timestamp (clock env (clock_reads w)) timeframe i
              < clock env (clock_reads w)
           /\ (41000 <= price)%Q /\ (price < 46000)%Q
           /\ (0 <= volume)%Q /\ (volume < 1000000000)%Q.
Proof.
  intros Hunit Hsine. unfold generateMockChartData. unfold bind at 1, Date_now.
  destruct (chart_loop_series env (clock env (clock_reads w)) (mock_points timeframe)
              (mock_interval timeframe) (mock_points timeframe) 0
              (mkWorld (cache w) (requests w) (sleeps w) (S (clock_reads w)) (random_draws w))
              Hunit Hsine)
    as (es & w' & Hrun & Hlen & Hdraws & Hclock & Hes).
  unfold bind at 1. rewrite Hrun. exists es, w'. split; [reflexivity |].
  split; [exact Hlen |]. split; [exact Hdraws |]. split; [exact Hclock |].
  intros i point Hpoint.
  assert (i < mock_points timeframe)%nat as Hi
    by (rewrite <- Hlen; by apply lookup_lt_Some with (x := point)).
  destruct (Hes i point Hpoint) as (price & volume & -> & Hbounds).
  destruct (series_timestamp_past (clock env (clock_reads w)) timeframe i Hi)
    as (Hnext & Hpast & _).
  exists price, volume. split; [reflexivity |]. split; [exact Hnext |].
  split; [exact Hpast | exact Hbounds].
Qed.

Lemma synthetic_chart_series_witness :
  exists points w',
    generateMockChartData TF_24h (sample_env 200 None 1000000000) fresh_world
    = (Returned (VArr points), w')
    /\ length points = 24%nat
    /\ random_draws w' = 48%nat.
Proof.
  destruct (synthetic_chart_series TF_24h (sample_env 200 None 1000000000) fresh_world)
    as (points & w' & Hrun & Hlen & Hdraws & _).
  - apply sample_env_unit_interval.
  - intros x. simpl. split; discriminate.
  - exists points, w'. split; [exact Hrun |]. split; [exact Hlen | exact Hdraws].
Defined.

(** X14. Given random draws in [0, 1), the synthetic candlestick generator
    returns 60 candles for '1h', 24 for '24h' and 168 for any other
    timeframe, after one reading of the clock and five random draws per
    candle.  The first candle opens less than 51 away from 43000 and every
    later one less than 51 away from the close of the candle before it;
    each candle spans less than 1001 from low to high and closes less than
    501 away from its open;
    the candle at index [i] carries the timestamp
    [now - (points - i) * interval]. *)
Theorem synthetic_candles_continue (timeframe : ChartTimeframe) (env : Env) (w : World) :
  unit_interval env ->
  exists candles w',
    generateMockCandlestickData timeframe env w = (Returned (VArr candles), w')
    /\ length candles = mock_points timeframe
    /\ random_draws w' = (random_draws w + 5 * mock_points timeframe)%nat
    /\ clock_reads w' = S (clock_reads w)
    /\ continues 43000 candles
    /\ forall i c, candles !! i = Some c ->
         prop c "timestamp"
         = num (series_timestamp (clock env (clock_reads w)) timeframe i)
         /\ series_timestamp (clock env (clock_reads w)) timeframe i
            < clock env (clock_reads w).
Proof.
  intros Hunit. unfold generateMockCandlestickData. unfold bind at 1, Date_now.
  destruct (candle_loop_continues env (clock env (clock_reads w)) (mock_points timeframe)
              (mock_interval timeframe) (mock_points timeframe) 0 43000
              (mkWorld (cache w) (requests w) (sleeps w) (S (clock_reads w)) (random_draws w))
              Hunit)
    as (es & w' & Hrun & Hlen & Hdraws & Hclock & Hchain & Hes).
  unfold bind at 1. rewrite Hrun. exists es, w'. split; [reflexivity |].
  split; [exact Hlen |]. split; [exact Hdraws |]. split; [exact Hclock |].
  split; [exact Hchain |].
  intros i c Hc. split; [by apply Hes |].
  assert (i < mock_points timeframe)%nat as Hi
    by (rewrite <- Hlen; by apply lookup_lt_Some with (x := c)).
  by destruct (series_timestamp_past (clock env (clock_reads w)) timeframe i Hi)
    as (_ & Hpast & _).
Qed.

Lemma synthetic_candles_continue_witness :
  exists candles w',
    generateMockCandlestickData TF_1h (sample_env 200 None 1000000000) fresh_world
    = (Returned (VArr candles), w')
    /\ length candles = 60%nat
    /\ continues 43000 candles.
Proof.
  destruct (synthetic_candles_continue TF_1h (sample_env 200 None 1000000000) fresh_world)
    as (candles & w' & Hrun & Hlen & _ & _ & Hchain & _).
  - apply sample_env_unit_interval.
  - exists candles, w'. split; [exact Hrun |]. split; [exact Hlen | exact Hchain].
Defined.


(** ** On-chain analytics and news *)

Lemma floor_of_scaled (r : Q) (n : Z) :
  (0 <= r)%Q -> (r < 1)%Q -> 0 < n ->
  0 <= Math_floor (r * (n # 1))%Q < n.
Proof.
  intros H0 H1 Hn. unfold Math_floor. change (n # 1)%Q with (inject_Z n).
  assert (0 <= r * inject_Z n)%Q as Hlow.
  { apply Qmult_le_0_compat; [exact H0 |]. change 0%Q with (inject_Z 0).
    rewrite <- Zle_Qle. lia. }
  assert (r * inject_Z n < inject_Z n)%Q as Hhigh.
  { assert (0 < inject_Z n)%Q as Hpos
      by (change 0%Q with (inject_Z 0); rewrite <- Zlt_Qlt; lia).
    pose proof (Qmult_lt_compat_r r 1 (inject_Z n) Hpos H1) as Hmul.
    by rewrite Qmult_1_l in Hmul. }
  split.
  - pose proof (Qfloor_resp_le 0 _ Hlow) as Hfloor. exact Hfloor.
  - rewrite Zlt_Qlt. eapply Qle_lt_trans; [apply Qfloor_le | exact Hhigh].
Qed.

Lemma sentiment_of_draw (r : Q) :
  (0 <= r)%Q -> (r < 1)%Q ->
  sentiment_at (Math_floor (r * 3)%Q) ∈ [VStr "positive"; VStr "neutral"; VStr "negative"].
Proof.
  intros H0 H1. pose proof (floor_of_scaled r 3 H0 H1 eq_refl) as Hfloor.
  assert (Math_floor (r * 3)%Q = 0 \/ Math_floor (r * 3)%Q = 1 \/ Math_floor (r * 3)%Q = 2)
    as [-> | [-> | ->]] by lia; simpl; rewrite !elem_of_cons; auto.
Qed.

(** X15. The on-chain lookup never consults the cache or the network: it
    draws five random numbers, six for 'bitcoin', and returns them scaled.
    For draws in [0, 1) the counts are integers with
    100000 <= active_addresses < 1100000,
    50000 <= transaction_count < 550000, 100 <= large_transactions < 1100
    and 1000000 <= holders_count < 6000000, the average transaction value
    lies in [1000, 11000), and [network_hash_rate] is a number in
    [150, 350] for 'bitcoin' and [undefined] for every other identifier. *)
Theorem on_chain_data_ranges (id : string) (env : Env) (w : World) :
  unit_interval env ->
  exists v w' addresses transactions large holders average,
    fetchOnChainData id env w = (Returned v, w')
    /\ cache w' = cache w /\ traffic w' = traffic w
    /\ clock_reads w' = clock_reads w
    /\ random_draws w'
       = (random_draws w + if String.eqb id "bitcoin" then 6 else 5)%nat
    /\ prop v "active_addresses" = num addresses
    /\ 100000 <= addresses < 1100000
    /\ prop v "transaction_count" = num transactions
    /\ 50000 <= transactions < 550000
    /\ prop v "large_transactions" = num large
    /\ 100 <= large < 1100
    /\ prop v "holders_count" = num holders
    /\ 1000000 <= holders < 6000000
    /\ prop v "average_transaction_value" = VNum average
    /\ (1000 <= average)%Q /\ (average < 11000)%Q
    /\ (if String.eqb id "bitcoin"
        then exists rate, prop v "network_hash_rate" = VNum rate
                          /\ (150 <= rate)%Q /\ (rate <= 350)%Q
        else prop v "network_hash_rate" = VUndefined).
Proof.
  intros Hunit. unfold fetchOnChainData, generateMockOnChainData.
  pose proof (Hunit (random_draws w)) as [H1 H1'].
  pose proof (Hunit (S (random_draws w))) as [H2 H2'].
  pose proof (Hunit (S (S (random_draws w)))) as [H3 H3'].
  pose proof (Hunit (S (S (S (random_draws w))))) as [H4 H4'].
  pose proof (Hunit (S (S (S (S (random_draws w)))))) as [H5 H5'].
  pose proof (Hunit (S (S (S (S (S (random_draws w))))))) as [H6 H6'].
  pose proof (floor_of_scaled _ 1000000 H1 H1' eq_refl) as Ha.
  pose proof (floor_of_scaled _ 500000 H2 H2' eq_refl) as Ht.
  pose proof (floor_of_scaled _ 1000 H3 H3' eq_refl) as Hl.
  pose proof (floor_of_scaled _ 5000000 H5 H5' eq_refl) as Hh5.
  pose proof (floor_of_scaled _ 5000000 H6 H6' eq_refl) as Hh6.
  destruct (String.eqb id "bitcoin"); unfold_monad; cbn [random_draws];
    eexists _, _, _, _, _, _, _;
    (split; [reflexivity |]);
    (split; [reflexivity |]); (split; [reflexivity |]); (split; [reflexivity |]);
    (split; [simpl; lia |]);
    (split; [reflexivity |]); (split; [lia |]);
    (split; [reflexivity |]); (split; [lia |]);
    (split; [reflexivity |]); (split; [lia |]);
    (split; [reflexivity |]); (split; [lia |]);
    (split; [reflexivity |]); (split; [lra |]); (split; [lra |]).
  - eexists. split; [reflexivity |]. split; lra.
  - reflexivity.
Qed.

Lemma on_chain_data_ranges_witness :
  exists v w',
    fetchOnChainData "ethereum" (offline_env 0) fresh_world = (Returned v, w')
    /\ prop v "network_hash_rate" = VUndefined
    /\ requests w' = [].
Proof.
  destruct (on_chain_data_ranges "ethereum" (offline_env 0) fresh_world)
    as (v & w' & a & t & l & h & avg & Hrun & _ & Htraffic & _ & _ & _ & _ & _ & _ & _ & _
        & _ & _ & _ & _ & _ & Hrate).
  - intros k. simpl. split; [discriminate | reflexivity].
  - exists v, w'. split; [exact Hrun |]. split; [exact Hrate |].
    by injection Htraffic as -> _.
Defined.

Lemma news_item_run (coinId : option string) (title : string) (index : nat) (env : Env)
    (w : World) :
  news_item coinId title index env w
  = (Returned (VObj
       [ ("id", VStr ("news-" +:+ pretty index));
         ("title", VStr (news_subject env coinId +:+ ": " +:+ title));
         ("description",
          VStr "Lorem ipsum dolor sit amet, consectetur adipiscing elit. Sed do eiusmod tempor incididunt ut labore et dolore magna aliqua.");
         ("url", VStr ("https://example.com/news/" +:+ pretty index));
         ("source", VStr "CryptoNews");
         ("published_at",
          VStr (toISOString env (clock env (clock_reads w) - Z.of_nat index * 3600000)));
         ("sentiment", sentiment_at (Math_floor (random env (random_draws w) * 3)%Q)) ]),
     mkWorld (cache w) (requests w) (sleeps w) (S (clock_reads w)) (S (random_draws w))).
Proof.
  unfold news_item, news_subject.
  destruct coinId as [c |]; [destruct (String.eqb c "") |]; reflexivity.
Qed.

Lemma news_loop (coinId : option string) (env : Env) :
  unit_interval env ->
  forall (titles : list string) (first : nat) (w : World),
  exists items w',
    mapiM_from first (news_item coinId) titles env w = (Returned items, w')
    /\ length items = length titles
    /\ cache w' = cache w /\ traffic w' = traffic w
    /\ clock_reads w' = (clock_reads w + length titles)%nat
    /\ random_draws w' = (random_draws w + length titles)%nat
    /\ forall i item, items !! i = Some item ->
         prop item "id" = VStr ("news-" +:+ pretty (first + i)%nat)
         /\ (exists title, titles !! i = Some title
               /\ prop item "title"
                  = VStr (news_subject env coinId +:+ ": " +:+ title))
         /\ prop item "published_at"
            = VStr (toISOString env (clock env (clock_reads w + i)%nat
                                     - Z.of_nat (first + i) * 3600000))
         /\ prop item "sentiment" ∈ [VStr "positive"; VStr "neutral"; VStr "negative"].
Proof.
  intros Hunit titles.
  induction titles as [| title titles IH]; intros first w.
  - exists [], w. split; [reflexivity |]. split; [reflexivity |].
    split; [reflexivity |]. split; [reflexivity |].
    split; [simpl; lia |]. split; [simpl; lia |]. intros i item Hitem. by destruct i.
  - cbn [mapiM_from]. unfold bind at 1. rewrite news_item_run. cbv beta iota.
    unfold bind at 1.
    match goal with
    | |- context [mapiM_from (S first) (news_item coinId) titles env ?w0] =>
      destruct (IH (S first) w0)
        as (items & w' & Hrun & Hlen & Hcache & Htraffic & Hclock & Hdraws & Hitems)
    end.
    rewrite Hrun. eexists _, w'. split; [reflexivity |].
    split; [simpl; by rewrite Hlen |]. split; [exact Hcache |]. split; [exact Htraffic |].
    split; [simpl in *; lia |]. split; [simpl in *; lia |].
    intros [| i] item Hitem; simpl in Hitem.
    + injection Hitem as <-. rewrite !Nat.add_0_r.
      split; [reflexivity |]. split; [by exists title |]. split; [reflexivity |].
      destruct (Hunit (random_draws w)) as [H0 H1]. by apply sentiment_of_draw.
    + destruct (Hitems i item Hitem) as (Hid & Htitle & Hdate & Hsentiment).
      cbn [clock_reads] in Hdate.
      replace (first + S i)%nat with (S first + i)%nat by lia.
      replace (clock_reads w + S i)%nat with (S (clock_reads w) + i)%nat by lia.
      split; [exact Hid |]. split; [exact Htitle |]. split; [exact Hdate | exact Hsentiment].
Qed.

(** X16. The news lookup never consults the cache or the network: it
    returns five items, one per title of the fixed list and in its order,
    after five readings of the clock and five random draws.  The item at
    index [i] has the id 'news-i', the title '<subject>: <title i>' where
    the subject is the upper-cased coin id, or 'Crypto' when no coin id or
    the empty one is given, and is dated [i] hours before the [i]-th
    reading of the clock; for draws in [0, 1) its sentiment is one of
    'positive', 'neutral' and 'negative'. *)
Theorem news_items (coinId : option string) (env : Env) (w : World) :
  unit_interval env ->
  exists items w',
    fetchCryptoNews coinId env w = (Returned (VArr items), w')
    /\ length items = length news_titles
    /\ cache w' = cache w /\ traffic w' = traffic w
    /\ clock_reads w' = (clock_reads w + 5)%nat
    /\ random_draws w' = (random_draws w + 5)%nat
    /\ forall i item, items !! i = Some item ->
         prop item "id" = VStr ("news-" +:+ pretty i)
         /\ (exists title, news_titles !! i = Some title
               /\ prop item "title"
                  = VStr (news_subject env coinId +:+ ": " +:+ title))
         /\ prop item "published_at"
            = VStr (toISOString env (clock env (clock_reads w + i)%nat
                                     - Z.of_nat i * 3600000))
         /\ prop item "sentiment" ∈ [VStr "positive"; VStr "neutral"; VStr "negative"].
Proof.
  intros Hunit. unfold fetchCryptoNews, generateMockNews.
  destruct (news_loop coinId env Hunit news_titles 0 w)
    as (items & w' & Hrun & Hlen & Hcache & Htraffic & Hclock & Hdraws & Hitems).
  unfold bind. rewrite Hrun. exists items, w'.
  split; [reflexivity |]. split; [exact Hlen |]. split; [exact Hcache |].
  split; [exact Htraffic |]. split; [exact Hclock |]. split; [exact Hdraws |].
  exact Hitems.
Qed.

Lemma news_items_witness :
  exists items w',
    fetchCryptoNews None (offline_env 0) fresh_world = (Returned (VArr items), w')
    /\ length items = 5%nat
    /\ requests w' = [].
Proof.
  destruct (news_items None (offline_env 0) fresh_world)
    as (items & w' & Hrun & Hlen & _ & Htraffic & _).
  - intros k. simpl. split; [discriminate | reflexivity].
  - exists items, w'. split; [exact Hrun |]. split; [exact Hlen |].
    by injection Htraffic as -> _.
Defined.


(** ** The range of a prediction and how the card shows it *)

Section PredictionRange.
Local Open Scope Q_scope.

Lemma clamp_lower (b x : Q) : b <= 0.95 -> b <= x -> b <= Qmax 0.5 (Qmin 0.95 x).
Proof.
  intros Hb Hx. apply Qle_trans with (Qmin 0.95 x).
  - by apply Q.min_glb.
  - apply Q.le_max_r.
Qed.

(** The factor [1 + volatilityFactor + trendFactor + marketCapFactor]. *)
Lemma multiplier_range (crypto : CryptoCurrency) (r : Q) :
  0 <= r -> r < 1 ->
  let m := 1 + (r * 0.2 - 0.1) + trendFactor crypto + marketCapFactor crypto in
  0.83 <= m /\ m < 1.17
  /\ (0 < to_number (price_change_percentage_24h crypto) ->
      market_cap_rank crypto <= 10 -> 0.97 <= m)
  /\ (~ 0 < to_number (price_change_percentage_24h crypto) ->
      ~ market_cap_rank crypto <= 10 -> m < 1.03).
Proof.
  intros H0 H1. simpl. unfold trendFactor, marketCapFactor.
  pose proof (gt_true (to_number (price_change_percentage_24h crypto)) 0) as Hrise.
  pose proof (Qle_bool_iff (market_cap_rank crypto) 10) as Hrank.
  destruct (gt (to_number (price_change_percentage_24h crypto)) 0);
    destruct (Qle_bool (market_cap_rank crypto) 10);
    repeat split; intros; try lra;
    solve [ exfalso; intuition discriminate | exfalso; intuition ].
Qed.





(** X24. For random draws in [0, 1) the prediction card shows the
    confidence in green for every coin whose 24-hour change is below 5% in
    absolute value and whose market cap exceeds one billion.  It shows the
    confidence in red only for a coin that has neither property, and such
    a coin never gets a green confidence. *)
Theorem confidence_colour (crypto : CryptoCurrency) (env : Env) (w w' : World)
    (p : PredictionData) :
  generatePrediction crypto env w = (Returned p, w') ->
  unit_interval env ->
  (Math_abs (price_change_percentage_24h crypto) < 5 ->
   1000000000 < market_cap crypto -> confidenceColor p = "text-green-400")
  /\ (confidenceColor p = "text-red-400" ->
      ~ Math_abs (price_change_percentage_24h crypto) < 5
      /\ ~ 1000000000 < market_cap crypto)
  /\ (~ Math_abs (price_change_percentage_24h crypto) < 5 ->
      ~ 1000000000 < market_cap crypto -> confidenceColor p <> "text-green-400").
Proof.
  intros Hrun Hunit. rewrite generatePrediction_run in Hrun. cbv zeta in Hrun.
  injection Hrun as <- _. unfold confidenceColor. cbn [confidence].
  pose proof (Hunit (S (random_draws w))) as [H2 H2'].
  set (r2 := random env (S (random_draws w))) in *.
  pose proof (lt_true (Math_abs (price_change_percentage_24h crypto)) 5) as Hcalm.
  pose proof (gt_true (market_cap crypto) 1000000000) as Hlarge.
  unfold baseConfidence, priceStability, marketCapStability.
  set (sum := 0.7 + (if lt (Math_abs (price_change_percentage_24h crypto)) 5
                     then 0.1 else -0.1)
              + (if gt (market_cap crypto) 1000000000 then 0.1 else -0.05) + r2 * 0.2).
  pose proof (clamp_bounds sum) as [_ Hupper].
  pose proof (gt_true (Qmax 0.5 (Qmin 0.95 sum)) 0.8) as Hgreen.
  pose proof (gt_true (Qmax 0.5 (Qmin 0.95 sum)) 0.6) as Hyellow.
  assert (forall b, b <= 0.95 -> b <= sum -> b <= Qmax 0.5 (Qmin 0.95 sum)) as Hlower
    by (intros b; apply clamp_lower).
  assert (forall b, 0.5 < b -> sum < b -> Qmax 0.5 (Qmin 0.95 sum) < b) as Hbelow.
  { intros b Hb Hsum. apply Q.max_lub_lt; [exact Hb |].
    eapply Qle_lt_trans; [apply Q.le_min_r | exact Hsum]. }
  destruct (lt (Math_abs (price_change_percentage_24h crypto)) 5);
    destruct (gt (market_cap crypto) 1000000000); subst sum.
  - specialize (Hlower 0.9). 
    assert (gt (Qmax 0.5 (Qmin 0.95 (0.7 + 0.1 + 0.1 + r2 * 0.2))) 0.8 = true) as ->
      by (apply Hgreen; assert (0.9 <= Qmax 0.5 (Qmin 0.95 (0.7 + 0.1 + 0.1 + r2 * 0.2)))
            by (apply Hlower; lra); lra).
    split; [done |]. split; [discriminate |]. intros Hn. exfalso. apply Hn. by apply Hcalm.
  - specialize (Hlower 0.75).
    assert (gt (Qmax 0.5 (Qmin 0.95 (0.7 + 0.1 + -0.05 + r2 * 0.2))) 0.6 = true) as Hy
      by (apply Hyellow;
          assert (0.75 <= Qmax 0.5 (Qmin 0.95 (0.7 + 0.1 + -0.05 + r2 * 0.2)))
            by (apply Hlower; lra); lra).
    split; [intros _ Hl; apply Hlarge in Hl; discriminate |].
    split; [| intros Hn; exfalso; apply Hn; by apply Hcalm].
    rewrite Hy. destruct (gt _ 0.8); discriminate.
  - specialize (Hlower 0.7).
    assert (gt (Qmax 0.5 (Qmin 0.95 (0.7 + -0.1 + 0.1 + r2 * 0.2))) 0.6 = true) as Hy
      by (apply Hyellow;
          assert (0.7 <= Qmax 0.5 (Qmin 0.95 (0.7 + -0.1 + 0.1 + r2 * 0.2)))
            by (apply Hlower; lra); lra).
    split; [intros Hc; apply Hcalm in Hc; discriminate |].
    split; [| intros _ Hn; exfalso; apply Hn; by apply Hlarge].
    rewrite Hy. destruct (gt _ 0.8); discriminate.
  - specialize (Hbelow 0.8).
    assert (gt (Qmax 0.5 (Qmin 0.95 (0.7 + -0.1 + -0.05 + r2 * 0.2))) 0.8 = false) as ->.
    { apply not_true_is_false. intros Hg. apply Hgreen in Hg.
      assert (Qmax 0.5 (Qmin 0.95 (0.7 + -0.1 + -0.05 + r2 * 0.2)) < 0.8)
        by (apply Hbelow; lra). lra. }
    split; [intros Hc; apply Hcalm in Hc; discriminate |].
    split.
    + intros _. split; intros Hc; [apply Hcalm in Hc | apply Hlarge in Hc]; discriminate.
    + intros _ _. destruct (gt _ 0.6); discriminate.
Qed.

Lemma confidence_colour_witness :
  exists p,
    generatePrediction (sample_snapshot 43250 (Some 2.45) 847000000000 1)
                       (sample_env 200 None 0) fresh_world
    = (Returned p, after_two_draws fresh_world)
    /\ confidenceColor p = "text-green-400".
Proof.
  pose proof (generatePrediction_run (sample_env 200 None 0) fresh_world
                (sample_snapshot 43250 (Some 2.45) 847000000000 1)) as Hrun.
  cbv zeta in Hrun.
  destruct (confidence_colour _ _ _ _ _ Hrun) as (Hgreen & _).
  - apply sample_env_unit_interval.
  - eexists. split; [exact Hrun |]. apply Hgreen; reflexivity.
Defined.
End PredictionRange.


(** ** The charts *)

Section Charts.
Local Open Scope Q_scope.

Lemma min_of_le_acc (rest : list Q) (acc : Q) : fold_left Qmin rest acc <= acc.
Proof.
  revert acc. induction rest as [| x rest IH]; intros acc; simpl; [apply Qle_refl |].
  eapply Qle_trans; [apply IH | apply Q.le_min_l].
Qed.

Lemma max_of_ge_acc (rest : list Q) (acc : Q) : acc <= fold_left Qmax rest acc.
Proof.
  revert acc. induction rest as [| x rest IH]; intros acc; simpl; [apply Qle_refl |].
  eapply Qle_trans; [apply Q.le_max_l | apply IH].
Qed.

Lemma min_of_le (first : Q) (rest : list Q) (x : Q) :
  x ∈ first :: rest -> Math_min_of first rest <= x.
Proof.
  unfold Math_min_of. intros [-> | Hin]%elem_of_cons; [apply min_of_le_acc |].
  revert first. induction rest as [| y rest IH]; intros first; [by inversion Hin |].
  simpl. apply elem_of_cons in Hin as [-> | Hin].
  - eapply Qle_trans; [apply min_of_le_acc | apply Q.le_min_r].
  - by apply IH.
Qed.

Lemma max_of_ge (first : Q) (rest : list Q) (x : Q) :
  x ∈ first :: rest -> x <= Math_max_of first rest.
Proof.
  unfold Math_max_of. intros [-> | Hin]%elem_of_cons; [apply max_of_ge_acc |].
  revert first. induction rest as [| y rest IH]; intros first; [by inversion Hin |].
  simpl. apply elem_of_cons in Hin as [-> | Hin].
  - eapply Qle_trans; [apply Q.le_max_r | apply max_of_ge_acc].
  - by apply IH.
Qed.

(** A fraction of a positive whole. *)
Lemma fraction_mono (a b c : Q) : a <= b -> 0 < c -> a / c <= b / c.
Proof.
  intros Hab Hc. unfold Qdiv. apply Qmult_le_compat_r; [exact Hab |].
  apply Qlt_le_weak. by apply Qinv_lt_0_compat.
Qed.

Lemma fraction_unit (a c : Q) : 0 <= a -> a <= c -> 0 < c -> 0 <= a / c /\ a / c <= 1.
Proof.
  intros Ha Hac Hc. split.
  - pose proof (fraction_mono 0 a c Ha Hc) as H. unfold Qdiv in H at 1.
    by rewrite Qmult_0_l in H.
  - pose proof (fraction_mono a c c Hac Hc) as H.
    assert (c / c == 1) as Hcc by (field; lra). by rewrite Hcc in H.
Qed.

Lemma of_nat_le (i j : nat) : (i <= j)%nat -> of_nat i <= of_nat j.
Proof. intros H. unfold of_nat. rewrite <- Zle_Qle. lia. Qed.

Lemma of_nat_lt (i j : nat) : (i < j)%nat -> of_nat i < of_nat j.
Proof. intros H. unfold of_nat. rewrite <- Zlt_Qlt. lia. Qed.

(** The horizontal coordinate of [PriceChart] runs from the left padding
    to the right padding. *)
Lemma PriceChart_x_range (n i : nat) (width : Q) :
  (2 <= n)%nat -> (i < n)%nat -> 80 <= width ->
  40 <= PriceChart_x n i width /\ PriceChart_x n i width <= width - 40
  /\ PriceChart_x n 0 width == 40
  /\ PriceChart_x n (n - 1) width == width - 40
  /\ forall j, (i <= j)%nat -> PriceChart_x n i width <= PriceChart_x n j width.
Proof.
  intros Hn Hi Hwidth. unfold PriceChart_x, PriceChart_padding.
  assert (0 < of_nat (n - 1)) as Hpos by (apply (of_nat_lt 0); lia).
  destruct (fraction_unit (of_nat i) (of_nat (n - 1))) as [Hlow Hhigh];
    [apply (of_nat_le 0); lia | apply of_nat_le; lia | exact Hpos |].
  set (t := of_nat i / of_nat (n - 1)) in *.
  assert (0 <= t * (width - 2 * 40)) by (apply Qmult_le_0_compat; lra).
  assert (0 <= (1 - t) * (width - 2 * 40)) by (apply Qmult_le_0_compat; lra).
  split; [lra |]. split; [lra |]. split; [| split].
  - unfold of_nat at 1. simpl. field. lra.
  - field. lra.
  - intros j Hj. pose proof (fraction_mono _ _ _ (of_nat_le i j Hj) Hpos) as Hmono.
    fold t in Hmono. set (u := of_nat j / of_nat (n - 1)) in *.
    assert (0 <= (u - t) * (width - 2 * 40)) by (apply Qmult_le_0_compat; lra). lra.
Qed.

(** The vertical coordinate of [PriceChart]: inside the plot area and
    decreasing in the price. *)
Lemma PriceChart_y_range (p q minPrice maxPrice height : Q) :
  minPrice <= p -> p <= q -> q <= maxPrice -> 80 <= height ->
  let priceRange := if Qeq_bool (maxPrice - minPrice) 0 then 1 else maxPrice - minPrice in
  40 <= PriceChart_y q minPrice priceRange height
  /\ PriceChart_y q minPrice priceRange height <= PriceChart_y p minPrice priceRange height
  /\ PriceChart_y p minPrice priceRange height <= height - 40.
Proof.
  intros Hp Hpq Hq Hheight. simpl. unfold PriceChart_y, PriceChart_padding.
  set (priceRange := if Qeq_bool (maxPrice - minPrice) 0 then 1 else maxPrice - minPrice).
  assert (0 < priceRange /\ q - minPrice <= priceRange) as [Hpos Hle].
  { subst priceRange. destruct (Qeq_bool (maxPrice - minPrice) 0) eqn:Hzero.
    - apply Qeq_bool_eq in Hzero. split; lra.
    - apply Qeq_bool_neq in Hzero. split; lra. }
  destruct (fraction_unit (q - minPrice) priceRange) as [_ Hhigh]; [lra | lra | exact Hpos |].
  destruct (fraction_unit (p - minPrice) priceRange) as [Hlow _]; [lra | lra | exact Hpos |].
  assert ((p - minPrice) / priceRange <= (q - minPrice) / priceRange) as Hmono
    by (apply fraction_mono; [lra | exact Hpos]).
  set (t := (p - minPrice) / priceRange) in *.
  set (u := (q - minPrice) / priceRange) in *.
  assert (0 <= t * (height - 2 * 40)) by (apply Qmult_le_0_compat; lra).
  assert (0 <= (1 - u) * (height - 2 * 40)) by (apply Qmult_le_0_compat; lra).
  assert (0 <= (u - t) * (height - 2 * 40)) by (apply Qmult_le_0_compat; lra).
  repeat split; lra.
Qed.



(** *** The charts of [EnhancedPriceChart] *)

Lemma min_of_in (first : Q) (rest : list Q) : Math_min_of first rest ∈ first :: rest.
Proof.
  unfold Math_min_of. revert first. induction rest as [| y rest IH]; intros first; simpl.
  - apply list_elem_of_here.
  - specialize (IH (Qmin first y)). apply elem_of_cons in IH as [-> | IH].
    + unfold Qmin, GenericMinMax.gmin. destruct (first ?= y).
      * apply list_elem_of_here.
      * apply list_elem_of_here.
      * apply list_elem_of_further, list_elem_of_here.
    + by do 2 apply list_elem_of_further.
Qed.

Lemma max_of_in (first : Q) (rest : list Q) : Math_max_of first rest ∈ first :: rest.
Proof.
  unfold Math_max_of. revert first. induction rest as [| y rest IH]; intros first; simpl.
  - apply list_elem_of_here.
  - specialize (IH (Qmax first y)). apply elem_of_cons in IH as [-> | IH].
    + unfold Qmax, GenericMinMax.gmax. destruct (first ?= y).
      * apply list_elem_of_here.
      * apply list_elem_of_further, list_elem_of_here.
      * apply list_elem_of_here.
    + by do 2 apply list_elem_of_further.
Qed.

(** The range [maxPrice - minPrice] vanishes exactly when all values are
    equal. *)
Lemma range_zero (first : Q) (rest : list Q) :
  Math_max_of first rest - Math_min_of first rest == 0
  <-> forall a b, a ∈ first :: rest -> b ∈ first :: rest -> a == b.
Proof.
  split.
  - intros Hzero a b Ha Hb.
    pose proof (min_of_le first rest a Ha). pose proof (max_of_ge first rest a Ha).
    pose proof (min_of_le first rest b Hb). pose proof (max_of_ge first rest b Hb).
    lra.
  - intros Hall. rewrite (Hall _ _ (max_of_in first rest) (min_of_in first rest)). ring.
Qed.

Lemma Enhanced_x_defined (n i : nat) (width : Q) :
  (n = 1%nat -> Enhanced_x n i width = None)
  /\ (n <> 1%nat ->
      Enhanced_x n i width
      = Some (Enhanced_padding
              + of_nat i / (of_nat n - 1) * (width - 2 * Enhanced_padding))).
Proof.
  unfold Enhanced_x, quotient. split.
  - intros ->. reflexivity.
  - intros Hn. destruct (Qeq_bool (of_nat n - 1) 0) eqn:Hzero; [| reflexivity].
    apply Qeq_bool_eq in Hzero. exfalso. apply Hn.
    unfold of_nat, Qeq in Hzero. simpl in Hzero. lia.
Qed.

Lemma Enhanced_y_defined (value minPrice priceRange height : Q) :
  (priceRange == 0 -> Enhanced_y value minPrice priceRange height = None)
  /\ (~ priceRange == 0 ->
      Enhanced_y value minPrice priceRange height
      = Some (height - Enhanced_padding
              - (value - minPrice) / priceRange * (height - 2 * Enhanced_padding))).
Proof.
  unfold Enhanced_y, quotient. split.
  - intros Hzero. apply Qeq_bool_iff in Hzero. by rewrite Hzero.
  - intros Hrange. destruct (Qeq_bool priceRange 0) eqn:Hzero; [| reflexivity].
    by apply Qeq_bool_eq in Hzero.
Qed.



Lemma all_prices_in (candlestickData : list CandlestickData) (c : CandlestickData) :
  c ∈ candlestickData ->
  candle_high c ∈ mjoin ((fun d => [candle_high d; candle_low d]) <$> candlestickData)
  /\ candle_low c ∈ mjoin ((fun d => [candle_high d; candle_low d]) <$> candlestickData).
Proof.
  induction candlestickData as [| d rest IH]; [by inversion 1 |].
  intros [-> | Hin]%elem_of_cons;
    change (mjoin ((fun d => [candle_high d; candle_low d]) <$> ?x :: rest))
      with (candle_high x :: candle_low x
            :: mjoin ((fun d => [candle_high d; candle_low d]) <$> rest)).
  - split; [apply list_elem_of_here | apply list_elem_of_further, list_elem_of_here].
  - destruct (IH Hin) as [Hhigh Hlow]. split; by do 2 apply list_elem_of_further.
Qed.

(** The vertical coordinate of [EnhancedPriceChart] for a positive price
    range: inside the plot area and decreasing in the value. *)
Lemma Enhanced_y_range (v v' minPrice priceRange height : Q) :
  0 < priceRange -> 120 <= height ->
  minPrice <= v -> v <= v' -> v' - minPrice <= priceRange ->
  let y value :=
    height - Enhanced_padding
    - (value - minPrice) / priceRange * (height - 2 * Enhanced_padding) in
  60 <= y v' /\ y v' <= y v /\ y v <= height - 60.
Proof.
  intros Hrange Hheight Hv Hvv' Hv'. simpl. unfold Enhanced_padding.
  destruct (fraction_unit (v' - minPrice) priceRange) as [_ Hhigh]; [lra | lra | exact Hrange |].
  destruct (fraction_unit (v - minPrice) priceRange) as [Hlow _]; [lra | lra | exact Hrange |].
  assert ((v - minPrice) / priceRange <= (v' - minPrice) / priceRange) as Hmono
    by (apply fraction_mono; [lra | exact Hrange]).
  set (t := (v - minPrice) / priceRange) in *.
  set (u := (v' - minPrice) / priceRange) in *.
  assert (0 <= t * (height - 2 * 60)) by (apply Qmult_le_0_compat; lra).
  assert (0 <= (1 - u) * (height - 2 * 60)) by (apply Qmult_le_0_compat; lra).
  assert (0 <= (u - t) * (height - 2 * 60)) by (apply Qmult_le_0_compat; lra).
  repeat split; lra.
Qed.

(** The body rectangle [fillRect(_, Math.min(openY, closeY), _, Math.abs(closeY - openY))]
    ends at the lower of the two coordinates. *)
Lemma body_extent (openY closeY bottom : Q) :
  openY <= bottom -> closeY <= bottom ->
  Qmin openY closeY + Qmax 1 (Qabs (closeY - openY)) <= bottom
  \/ Qmax 1 (Qabs (closeY - openY)) == 1.
Proof.
  intros Hopen Hclose.
  destruct (Qlt_le_dec 1 (Qabs (closeY - openY))) as [Htall | Hflat].
  - left. rewrite (Q.max_r 1 (Qabs (closeY - openY))) by lra.
    destruct (Qlt_le_dec closeY openY) as [Hlt | Hle].
    + rewrite (Q.min_r openY closeY) by lra. rewrite Qabs_neg by lra. lra.
    + rewrite (Q.min_l openY closeY) by lra. rewrite Qabs_pos by lra. lra.
  - right. by apply Q.max_l.
Qed.


End Charts.


(** ** The synthetic listing and coin detail *)

Lemma mock_currency_entry (id : string) (env : Env) (w : World) :
  exists e w', mock_currency id env w = (Returned e, w') /\ listing_entry env id e.
Proof.
  unfold mock_currency, mockData_get, listing_entry. simpl.
  destruct (String.eqb_spec id "bitcoin") as [-> | Hbitcoin].
  { eexists _, _. split; [reflexivity |]. split; [by eexists |].
    split; [discriminate |]. split; [reflexivity |].
    intros _ Hother. exfalso. apply Hother. rewrite !elem_of_cons. auto. }
  destruct (String.eqb_spec id "ethereum") as [-> | Hethereum].
  { eexists _, _. split; [reflexivity |]. split; [by eexists |].
    split; [discriminate |]. split; [reflexivity |].
    intros _ Hother. exfalso. apply Hother. rewrite !elem_of_cons. auto. }
  destruct (String.eqb_spec id "solana") as [-> | Hsolana].
  { eexists _, _. split; [reflexivity |]. split; [by eexists |].
    split; [discriminate |]. split; [reflexivity |].
    intros _ Hother. exfalso. apply Hother. rewrite !elem_of_cons. auto. }
  destruct (inherited id) eqn:Hinherited.
  - eexists _, _. split; [reflexivity |]. split; [by eexists |].
    split; [intros _; by eexists |]. split; discriminate.
  - eexists _, _. split; [reflexivity |]. split; [by eexists |].
    split; [discriminate |]. split; [reflexivity |].
    intros _ _. repeat split; reflexivity.
Qed.

Lemma mock_currencies (ids : list string) (env : Env) (w : World) :
  exists es w',
    mapM mock_currency ids env w = (Returned es, w')
    /\ Forall2 (listing_entry env) ids es.
Proof.
  revert w. induction ids as [| id ids IH]; intros w.
  - eexists _, _. split; [reflexivity | constructor].
  - destruct (mock_currency_entry id env w) as (e & w0 & Hrun & He).
    destruct (IH w0) as (es & w1 & Hrest & Hes).
    exists (e :: es), w1. split; [| by constructor].
    cbn [mapM]. unfold bind at 1. rewrite Hrun. unfold bind at 1. by rewrite Hrest.
Qed.

(** X22. The synthetic listing has one record per requested identifier,
    in the order requested, and is produced without touching the cache or
    the network.  Every record carries [last_updated].  A record carries
    the requested [id], except for an identifier that names a property
    inherited from [Object.prototype] ('constructor', 'toString', ...):
    there the lookup [mockData[id]] finds the inherited member and the
    record holds [last_updated] and nothing else.  An identifier without a
    profile yields the placeholder coin: price 1, rank 999, the symbol made
    of the first three characters in upper case. *)
Theorem synthetic_listing_entries (ids : list string) (env : Env) (w : World) :
  exists entities w',
    generateMockData ids env w = (Returned (VArr entities), w')
    /\ Forall2 (listing_entry env) ids entities
    /\ cache w' = cache w /\ traffic w' = traffic w.
Proof.
  destruct (mock_currencies ids env w) as (es & w' & Hrun & Hes).
  assert (generateMockData ids env w = (Returned (VArr es), w')) as Hgen
    by (unfold generateMockData, bind; by rewrite Hrun).
  exists es, w'. split; [exact Hgen |]. split; [exact Hes |]. split.
  - destruct (generateMockData_frames ids) as (Hcache & _). by apply (Hcache _ _ _ _ Hgen).
  - by apply (synthetic_traffic (Cryptocurrencies ids) _ _ _ _ Hgen).
Qed.

Lemma assoc_absent (k : string) (fields : list (string * Value)) :
  k ∉ fields.*1 -> assoc k fields = None.
Proof.
  induction fields as [| [k' v] fields IH]; [done |].
  intros [Hne Hrest]%not_elem_of_cons. simpl in *.
  destruct (String.eqb_spec k k') as [-> | _]; [done | by apply IH].
Qed.

Lemma prop_set_field (name : string) (v : Value) (fields : list (string * Value))
    (k : string) :
  prop (VObj (set_field name v fields)) k
  = if String.eqb k name then v else prop (VObj fields) k.
Proof.
  induction fields as [| [k' x] fields IH]; simpl in *.
  - by destruct (String.eqb k name).
  - destruct (String.eqb_spec k' name) as [-> | Hne]; simpl.
    + by destruct (String.eqb k name).
    + destruct (String.eqb_spec k k') as [-> | Hkk'].
      * destruct (String.eqb_spec k' name); [done | reflexivity].
      * exact IH.
Qed.

(** [{ ...base, ...overlay }] for an overlay without repeated keys. *)
Lemma prop_overlay (overlay base : list (string * Value)) (k : string) :
  NoDup overlay.*1 ->
  prop (VObj (fold_left (fun fields kv => set_field kv.1 kv.2 fields) overlay base)) k
  = match assoc k overlay with
    | Some v => v
    | None => prop (VObj base) k
    end.
Proof.
  revert base. induction overlay as [| [name v] overlay IH]; intros base; [done |].
  intros [Hfresh Hrest]%NoDup_cons. cbn [fold_left fst snd]. rewrite (IH _ Hrest).
  rewrite prop_set_field. cbn [assoc].
  destruct (String.eqb_spec k name) as [-> | _]; [| reflexivity].
  by rewrite (assoc_absent name overlay Hfresh).
Qed.

(** X23. The synthetic coin detail is the record the synthetic listing
    gives for the same identifier, extended: every property other than
    the fifteen the detail sets itself is the one of the listing record,
    and the 24-hour price change is 2% of the listed price.  The contract
    address is [undefined] exactly for 'ethereum'.  For an identifier that
    names a property inherited from [Object.prototype] the listing record
    has neither name nor price, so the detail has no [id], its description
    starts with 'undefined' and its price change is [NaN]. *)
Theorem synthetic_detail_extends_listing (id : string) (env : Env) (w : World) :
  exists base detail w',
    generateMockData [id] env w = (Returned (VArr [base]), w')
    /\ generateMockDetailedData id env w = (Returned detail, w')
    /\ listing_entry env id base
    /\ (forall k, k ∉ detail_keys -> prop detail k = prop base k)
    /\ prop (prop (prop detail "market_data") "price_change_24h_in_currency") "usd"
       = times (prop base "current_price") 0.02
    /\ (prop detail "contract_address" = VUndefined <-> id = "ethereum")
    /\ (inherited id = true ->
        prop detail "id" = VUndefined
        /\ prop detail "description"
           = VStr "undefined is a decentralized digital currency that enables instant payments to anyone, anywhere in the world."
        /\ prop (prop (prop detail "market_data") "price_change_24h_in_currency") "usd"
           = VNaN).
Proof.
  destruct (mock_currency_entry id env w) as (base & w' & Hrun & Hbase).
  assert (exists fields, base = VObj fields) as (fields & ->).
  { unfold mock_currency in Hrun. destruct (mockData_get id); unfold_monad;
      injection Hrun as <- _; by eexists. }
  assert (generateMockData [id] env w = (Returned (VArr [VObj fields]), w')) as Hlisting
    by (unfold generateMockData; cbn [mapM]; unfold bind, ret; by rewrite Hrun).
  exists (VObj fields). eexists. exists w'. split; [exact Hlisting |].
  split; [unfold generateMockDetailedData, bind; rewrite Hlisting; reflexivity |].
  cbn [opt_index lookup list_lookup default from_option].
  split; [exact Hbase |]. split; [| split; [| split]].
  - intros k Hk. rewrite prop_overlay by compute_done.
    by rewrite assoc_absent.
  - rewrite prop_overlay by compute_done. reflexivity.
  - rewrite prop_overlay by compute_done. cbn [assoc String.eqb Ascii.eqb Bool.eqb].
    destruct (String.eqb_spec id "ethereum") as [-> | Hne]; split; try done.
  - intros Hinherited. destruct Hbase as (_ & Hempty & _).
    destruct (Hempty Hinherited) as (stamp & [= ->]).
    rewrite !prop_overlay by compute_done. repeat split; reflexivity.
Qed.


(** ** The fallback on an inherited property name *)

Lemma mockData_get_inherited (id : string) :
  inherited id = true -> mockData_get id = Some [].
Proof.
  intros Hinherited. unfold mockData_get. simpl.
  destruct (String.eqb_spec id "bitcoin") as [-> | _]; [discriminate |].
  destruct (String.eqb_spec id "ethereum") as [-> | _]; [discriminate |].
  destruct (String.eqb_spec id "solana") as [-> | _]; [discriminate |].
  by rewrite Hinherited.
Qed.

Lemma detail_of_inherited (id : string) (env : Env) (w : World) :
  inherited id = true ->
  exists v w',
    generateMockDetailedData id env w = (Returned v, w')
    /\ prop v "id" = VUndefined /\ prop v "name" = VUndefined
    /\ prop v "current_price" = VUndefined
    /\ has_shape DetailedCoinData_shape v = false.
Proof.
  intros Hinherited.
  unfold generateMockDetailedData, generateMockData. cbn [mapM]. unfold mock_currency.
  rewrite (mockData_get_inherited id Hinherited). unfold now_iso. unfold_monad.
  eexists _, _. split; [reflexivity |]. repeat split; reflexivity.
Qed.

(** C3, what the code does.  The fallback does not yield a valid entity
    for every lookup.  When
    a market listing or a coin detail is asked for an identifier that names
    a property inherited from [Object.prototype] ('constructor',
    'toString', ...), misses the cache and the Fetch Client throws or
    returns a response that is not OK, the lookup still returns without
    throwing and writes nothing to the cache, but the record it returns for
    that identifier is not the placeholder coin: [mockData[id]] finds the
    inherited member, so the listing holds a record with [last_updated] and
    nothing else, and the coin detail has no [id], no [name] and no
    [current_price].  The value returned is not a structurally valid entity
    of its resource kind. *)
Theorem fallback_inherited_identifier (env : Env) (w w0 w1 : World) (l : Lookup)
    (id : string) (c : Value) (res : Res Response) :
  inherited id = true ->
  asks_for l id ->
  getCachedData (cacheKey l) env w = (Returned c, w0) ->
  truthy c = false ->
  fetchWithRetry (request_url l (API_BASE_URL env)) no_headers default_retries env w0
  = (res, w1) ->
  failed res ->
  exists v w2,
    lookup l env w = (Returned v, w2)
    /\ cache w2 = cache w0
    /\ ~ valid l v
    /\ match l with
       | Cryptocurrencies ids =>
         exists entities,
           v = VArr entities
           /\ forall i, ids !! i = Some id ->
                exists stamp, entities !! i = Some (VObj [("last_updated", VStr stamp)])
       | DetailedCoin _ =>
         prop v "id" = VUndefined /\ prop v "name" = VUndefined
         /\ prop v "current_price" = VUndefined
         /\ has_shape DetailedCoinData_shape v = false
       | _ => True
       end.
Proof.
  intros Hinherited Hasks Hget Hc Hfetch Hfailed.
  pose proof (synthetic_frames l) as (Hcache & _ & _).
  assert (lookup l env w = synthetic l env w1) as Hlookup.
  { rewrite lookup_is_template, (template_miss _ _ _ _ _ _ _ _ _ Hget res w1 Hc Hfetch).
    destruct res as [r | e]; [| reflexivity].
    simpl in Hfailed. by rewrite Hfailed. }
  assert (cache w1 = cache w0) as Hsame
    by (apply (fetchWithRetry_preserves_cache _ _ _ _ _ _ _ Hfetch)).
  rewrite Hlookup.
  destruct l as [ids | id' | | | |]; simpl in Hasks; try done.
  - destruct (mock_currencies ids env w1) as (es & w2 & Hrun & Hes).
    assert (generateMockData ids env w1 = (Returned (VArr es), w2)) as Hgen
      by (unfold generateMockData, bind; by rewrite Hrun).
    assert (forall i, ids !! i = Some id ->
              exists stamp, es !! i = Some (VObj [("last_updated", VStr stamp)])) as Hrecord.
    { intros i Hi. destruct (Forall2_lookup_l _ _ _ _ _ Hes Hi) as (e & He & _ & Hempty & _).
      destruct (Hempty Hinherited) as (stamp & ->). by exists stamp. }
    exists (VArr es), w2. split; [exact Hgen |].
    split; [by rewrite (Hcache _ _ _ _ Hgen) |]. split.
    + intros (entities & [= <-] & Hvalid).
      apply list_elem_of_lookup_1 in Hasks as (i & Hi).
      destruct (Hrecord i Hi) as (stamp & Hstamp).
      destruct (Forall2_lookup_lr _ _ _ _ _ _ Hvalid Hi Hstamp) as [_ Hid].
      discriminate Hid.
    + by exists es.
  - subst id'.
    destruct (detail_of_inherited id env w1 Hinherited)
      as (v & w2 & Hrun & Hid & Hname & Hprice & Hshape).
    exists v, w2. split; [exact Hrun |].
    split; [by rewrite (Hcache _ _ _ _ Hrun) |]. split.
    + intros (Hvalid & _). simpl in Hrun. congruence.
    + by repeat split.
Qed.

Lemma fallback_inherited_identifier_witness :
  exists v w2,
    lookup (DetailedCoin "constructor") (sample_env 500 None 0) fresh_world = (Returned v, w2)
    /\ cache w2 = cache fresh_world
    /\ prop v "id" = VUndefined
    /\ has_shape DetailedCoinData_shape v = false.
Proof.
  edestruct fallback_inherited_identifier
    with (env := sample_env 500 None 0) (w := fresh_world) (l := DetailedCoin "constructor")
         (id := "constructor")
    as (v & w2 & Hrun & Hcache & _ & Hid & _ & _ & Hshape).
  - reflexivity.
  - reflexivity.
  - vm_compute. reflexivity.
  - reflexivity.
  - vm_compute. reflexivity.
  - reflexivity.
  - exists v, w2. split; [exact Hrun |]. split; [exact Hcache |]. by split.
Defined.
